(** * Case Organizer: the client-side case-browser runtime (static/js/main.js)

    A shallow embedding of the stateful parts of [main.js]: the infinite
    year dropdown, [smartTruncate], the results renderer with the directory
    overlay, the notes modal and the note button of the case lookup, together
    with the properties the design document states about them.

    Conventions.  A JavaScript number that the code only uses as an integer
    is a [Z]; a JavaScript string is a [string], or a [list ascii] where the
    code slices it; a DOM element the code looks up and may not find is an
    [option]; an [await] splits a handler in the part that runs before the
    request and the part that runs when the response arrives, so that other
    events can be placed between the two. *)

From Stdlib Require Import ZArith List Bool Lia String Ascii.
From Stdlib Require Import Numbers.DecimalString.
Import ListNotations.

#[local] Set Warnings "-register-all".

Local Open Scope string_scope.
Local Open Scope list_scope.
Local Open Scope Z_scope.

(** ** The infinite year dropdown ([initYearDropdown]) *)

Module YearDropdown.

Definition CHUNK : Z := 80.

(** The closure variables [anchor], [from], [to], [selected], the value of
    the bound hidden input (as [parseInt] reads it back), the [hidden]
    attribute of the panel, [panel.dataset.ready], and the years of the
    option nodes under the panel, in document order. *)
Record state := mkState {
  anchor : Z;
  from : Z;
  to : Z;
  selected : Z;
  hidden_value : Z;
  panel_hidden : bool;
  ready : bool;
  items : list Z
}.

(** [for (let y = lo; y <= hi; y++)]: the years the loop visits. *)
Definition years (lo hi : Z) : list Z :=
  map (fun i => lo + Z.of_nat i) (seq 0 (Z.to_nat (hi + 1 - lo))).

(** The state after [initYearDropdown(wrapperId, hiddenInputId, startYear)];
    whether the panel starts hidden is decided by the page. *)
Definition init (startYear : Z) (panelHidden : bool) : state :=
  {| anchor := startYear;
     from := startYear - CHUNK;
     to := startYear + CHUNK;
     selected := startYear;
     hidden_value := startYear;
     panel_hidden := panelHidden;
     ready := false;
     items := [] |}.

(** [render(true)]: the panel is emptied and filled with [from..to]. *)
Definition render_initial (s : state) : state :=
  {| anchor := anchor s; from := from s; to := to s;
     selected := selected s; hidden_value := hidden_value s;
     panel_hidden := panel_hidden s; ready := ready s;
     items := years (from s) (to s) |}.

Definition set_ready (s : state) : state :=
  {| anchor := anchor s; from := from s; to := to s;
     selected := selected s; hidden_value := hidden_value s;
     panel_hidden := panel_hidden s; ready := true;
     items := items s |}.

Definition set_panel_hidden (b : bool) (s : state) : state :=
  {| anchor := anchor s; from := from s; to := to s;
     selected := selected s; hidden_value := hidden_value s;
     panel_hidden := b; ready := ready s;
     items := items s |}.

Definition open (s : state) : state :=
  if negb (panel_hidden s) then s
  else
    let s1 := set_panel_hidden false s in
    if negb (ready s1) then set_ready (render_initial s1) else s1.

Definition close (s : state) : state :=
  if panel_hidden s then s else set_panel_hidden true s.

(** [setYear(y)] writes the closure variable and the hidden input; the
    highlight it moves is a class on the option nodes and changes neither
    the window nor the list of nodes. *)
Definition setYear (y : Z) (s : state) : state :=
  {| anchor := anchor s; from := from s; to := to s;
     selected := y; hidden_value := y;
     panel_hidden := panel_hidden s; ready := ready s;
     items := items s |}.

(** The two halves of the [scroll] listener. *)
Definition grow_top (s : state) : state :=
  let oldFrom := from s in
  let from' := from s - CHUNK in
  {| anchor := anchor s; from := from'; to := to s;
     selected := selected s; hidden_value := hidden_value s;
     panel_hidden := panel_hidden s; ready := ready s;
     items := years from' (oldFrom - 1) ++ items s |}.

Definition grow_bottom (s : state) : state :=
  let oldTo := to s in
  let to' := to s + CHUNK in
  {| anchor := anchor s; from := from s; to := to';
     selected := selected s; hidden_value := hidden_value s;
     panel_hidden := panel_hidden s; ready := ready s;
     items := items s ++ years (oldTo + 1) to' |}.

Definition on_scroll (nearTop nearBottom : bool) (s : state) : state :=
  let s1 := if nearTop then grow_top s else s in
  if nearBottom then grow_bottom s1 else s1.

Inductive key :=
| ArrowUp | ArrowDown | PageUp | PageDown | Home | End_ | Enter | Escape
| OtherKey.

(** [next] as the chain of [if (e.key === ...)] computes it from [cur]. *)
Definition next_year (k : key) (cur : Z) : Z :=
  match k with
  | ArrowUp => cur + 1
  | ArrowDown => cur - 1
  | PageUp => cur + 10
  | PageDown => cur - 10
  | Home => 9999
  | End_ => 1
  | Enter | Escape | OtherKey => cur
  end.

(** The part of the [keydown] listener after [setYear(next)]. *)
Definition extend_for (next : Z) (s : state) : state :=
  if next <? from s + 5 then
    let oldFrom := from s in
    let from' := next - CHUNK in
    {| anchor := anchor s; from := from'; to := to s;
       selected := selected s; hidden_value := hidden_value s;
       panel_hidden := panel_hidden s; ready := ready s;
       items := years from' (oldFrom - 1) ++ items s |}
  else if next >? to s - 5 then
    let oldTo := to s in
    let to' := next + CHUNK in
    {| anchor := anchor s; from := from s; to := to';
       selected := selected s; hidden_value := hidden_value s;
       panel_hidden := panel_hidden s; ready := ready s;
       items := items s ++ years (oldTo + 1) to' |}
  else s.

Definition on_keydown (k : key) (s : state) : state :=
  let cur := hidden_value s in
  match k with
  | OtherKey => s
  | Enter | Escape => close s
  | _ =>
      let next := next_year k cur in
      extend_for next (setYear next s)
  end.

(** The [click] listener of the panel: the click lands on an option node,
    whose [data-year] is [y]; a click elsewhere in the panel finds no
    [.yd-item] and returns. *)
Definition on_item_click (y : Z) (s : state) : state :=
  if existsb (Z.eqb y) (items s) then close (setYear y s) else s.

Definition on_trigger_click (s : state) : state :=
  if panel_hidden s then open s else close s.

(** The [wheel] listener of the trigger. *)
Definition on_trigger_wheel (ctrlKey : bool) (deltaY : Z) (s : state) : state :=
  if negb (panel_hidden s) then s
  else if negb ctrlKey then
    let delta := if deltaY <? 0 then 1 else -1 in
    setYear (selected s + delta) s
  else s.

Inductive event :=
| Scroll (nearTop nearBottom : bool)
| ItemClick (y : Z)
| KeyDown (k : key)
| TriggerClick
| TriggerWheel (ctrlKey : bool) (deltaY : Z)
| OutsideClick.

Definition step (s : state) (e : event) : state :=
  match e with
  | Scroll nt nb => on_scroll nt nb s
  | ItemClick y => on_item_click y s
  | KeyDown k => on_keydown k s
  | TriggerClick => on_trigger_click s
  | TriggerWheel c d => on_trigger_wheel c d s
  | OutsideClick => close s
  end.

Definition run (s : state) (evs : list event) : state :=
  fold_left step evs s.

(** The invariant of the design document and the width of the window. *)
Definition window_ok (s : state) : Prop :=
  from s <= selected s <= to s.

Definition width (s : state) : Z := to s - from s.

Definition is_wheel (e : event) : bool :=
  match e with TriggerWheel _ _ => true | _ => false end.

Definition is_move (k : key) : bool :=
  match k with
  | ArrowUp | ArrowDown | PageUp | PageDown | Home | End_ => true
  | _ => false
  end.

(** What every state the listeners can produce has in common: the window
    is at least as wide as the initial one, the hidden input mirrors
    [selected], and every option node lies inside the window. *)
Record shape (s : state) : Prop := mkShape {
  wide : from s + 2 * CHUNK <= to s;
  mirrored : hidden_value s = selected s;
  items_inside : forall y, In y (items s) -> from s <= y <= to s
}.

End YearDropdown.

(** ** JavaScript strings as the code slices them, and [smartTruncate] *)

Module JsString.

(** A string is its sequence of code units; [s.length] is their number. *)
Definition len (s : list ascii) : Z := Z.of_nat (List.length s).

(** How [String.prototype.slice] turns an argument into a position: a
    negative argument counts from the end and stops at 0, any other one
    stops at the length. *)
Definition rel_index (n : Z) (i : Z) : Z :=
  if i <? 0 then Z.max (n + i) 0 else Z.min i n.

(** [s.slice(start)] and [s.slice(start, end)]. *)
Definition slice_from (s : list ascii) (start : Z) : list ascii :=
  skipn (Z.to_nat (rel_index (len s) start)) s.

Definition slice (s : list ascii) (start end_ : Z) : list ascii :=
  let a := rel_index (len s) start in
  let b := rel_index (len s) end_ in
  firstn (Z.to_nat (b - a)) (skipn (Z.to_nat a) s).

(** [s.lastIndexOf(c)] for a one-character needle: the index of the last
    occurrence, or -1. *)
Fixpoint lastIndexOf_aux (c : ascii) (s : list ascii) (i acc : Z) : Z :=
  match s with
  | [] => acc
  | x :: r => lastIndexOf_aux c r (i + 1) (if Ascii.eqb x c then i else acc)
  end.

Definition lastIndexOf (c : ascii) (s : list ascii) : Z :=
  lastIndexOf_aux c s 0 (-1).

(** [Math.ceil(k / 2)] and [Math.floor(k / 2)] for an integer [k]. *)
Definition ceil_half (k : Z) : Z := (k + 1) / 2.
Definition floor_half (k : Z) : Z := k / 2.

Definition ellipsis : list ascii := list_ascii_of_string "...".

Definition ext_of (filename : list ascii) : list ascii :=
  let extIndex := lastIndexOf "."%char filename in
  if negb (extIndex =? -1) then slice_from filename extIndex else [].

Definition base_of (filename : list ascii) : list ascii :=
  let extIndex := lastIndexOf "."%char filename in
  if negb (extIndex =? -1) then slice filename 0 extIndex else filename.

Definition is_empty (s : list ascii) : bool :=
  match s with [] => true | _ => false end.

(** [smartTruncate(filename, maxLen)]; the callers pass [maxLen = 100]. *)
Definition smartTruncate (filename : list ascii) (maxLen : Z) : list ascii :=
  if is_empty filename || (len filename <=? maxLen) then filename
  else
    let ext := ext_of filename in
    let base := base_of filename in
    let keep := maxLen - len ext - 3 in
    let startLen := ceil_half keep in
    let endLen := floor_half keep in
    slice base 0 startLen ++ ellipsis ++ slice_from base (- endLen) ++ ext.

(** The same on [string], as [buildResultItem] uses it for a row's name. *)
Definition smartTruncate_string (filename : string) (maxLen : Z) : string :=
  string_of_list_ascii (smartTruncate (list_ascii_of_string filename) maxLen).

End JsString.

(** ** JSON values, thrown errors and responses of [fetch] *)

Module Json.

(** A parsed body.  [Num] holds the integers, which is what the backend
    sends for an identifier or a year: a number with a fraction, or one too
    large to be printed in digits only, has no value here. *)
Inductive value :=
| Null
| Bool (b : bool)
| Num (n : Z)
| Str (s : string)
| Arr (items : list value)
| Obj (fields : list (string * value)).

(** Truthiness of a value; [None] below stands for [undefined]. *)
Definition truthy (v : value) : bool :=
  match v with
  | Null => false
  | Bool b => b
  | Num n => negb (n =? 0)
  | Str s => negb (String.eqb s "")
  | Arr _ | Obj _ => true
  end.

Definition truthy_opt (o : option value) : bool :=
  match o with Some v => truthy v | None => false end.

(** The property [k] of a parsed object: of several members with one name
    [JSON.parse] keeps the last. *)
Fixpoint lookup (k : string) (fields : list (string * value)) : option value :=
  match fields with
  | [] => None
  | (k', v) :: rest =>
      match lookup k rest with
      | Some w => Some w
      | None => if String.eqb k k' then Some v else None
      end
  end.

(** [v || fallback]. *)
Definition or_value (v : option value) (fallback : value) : value :=
  match v with
  | Some w => if truthy w then w else fallback
  | None => fallback
  end.

(** The items before the first [null], and whether there is one. *)
Fixpoint until_null (items : list value) : list value :=
  match items with
  | [] => []
  | Null :: _ => []
  | x :: rest => x :: until_null rest
  end.

Fixpoint has_null (items : list value) : bool :=
  match items with
  | [] => false
  | Null :: _ => true
  | _ :: rest => has_null rest
  end.

Definition string_of_Z (n : Z) : string :=
  NilEmpty.string_of_int (Z.to_int n).

Definition join_comma (l : list string) : string := String.concat "," l.

(** [String(v)], as a template literal and [new Error(v)] apply it. *)
Fixpoint to_js_string (v : value) : string :=
  match v with
  | Null => "null"
  | Bool true => "true"
  | Bool false => "false"
  | Num n => if n =? 0 then "0" else string_of_Z n
  | Str s => s
  | Arr items =>
      join_comma
        (map (fun x => match x with Null => "" | _ => to_js_string x end) items)
  | Obj _ => "[object Object]"
  end.

End Json.

Module Js.

(** A thrown value: an [Error] made by the code with [new Error(message)],
    or a [TypeError] of the engine or of [fetch]. *)
Inductive exn :=
| ErrorObj (message : string)
| TypeErrorObj (message : string).

Inductive result (A : Type) :=
| Ok (a : A)
| Throw (e : exn).
Arguments Ok {A} a.
Arguments Throw {A} e.

Definition bind {A B} (r : result A) (k : A -> result B) : result B :=
  match r with Ok a => k a | Throw e => Throw e end.

Definition exn_name (e : exn) : string :=
  match e with
  | ErrorObj _ => "Error"
  | TypeErrorObj _ => "TypeError"
  end.

Definition exn_message (e : exn) : string :=
  match e with
  | ErrorObj m => m
  | TypeErrorObj m => m
  end.

(** The errors of the engine the handlers can run into.  The wording is
    V8's; no property below depends on it. *)
Definition null_read (k : string) : exn :=
  TypeErrorObj ("Cannot read properties of null (reading '" ++ k ++ "')").

Definition not_a_function (what : string) : exn :=
  TypeErrorObj (what ++ " is not a function").

(** [String(e)], that is [Error.prototype.toString]. *)
Definition exn_to_string (e : exn) : string :=
  if String.eqb (exn_message e) "" then exn_name e
  else exn_name e ++ ": " ++ exn_message e.

(** [err.message || err] inside a template literal. *)
Definition message_or_self (e : exn) : string :=
  if String.eqb (exn_message e) "" then exn_to_string e else exn_message e.

(** [data.k] for the property names the code reads ([ok], [msg], [error],
    [results], ...): none of them is defined on a prototype, so the read
    gives [undefined] on anything but an object that has it, and throws on
    [null]. *)
Definition prop (data : Json.value) (k : string) : result (option Json.value) :=
  match data with
  | Json.Null => Throw (null_read k)
  | Json.Obj fields => Ok (Json.lookup k fields)
  | _ => Ok None
  end.

End Js.

Notation "x <- c1 ;; c2" := (Js.bind c1 (fun x => c2))
  (at level 61, c1 at next level, right associativity).

Module Http.

(** What the code sees of a [Response]: [resp.status], and the value
    [resp.json()] resolves to, [None] when it rejects. *)
Record response := mkResponse {
  status : Z;
  body : option Json.value
}.

(** [resp.ok]. *)
Definition ok (r : response) : bool :=
  (200 <=? status r) && (status r <=? 299).

(** The outcome of [await fetch(...)]. *)
Inductive fetched :=
| Rejected (e : Js.exn)
| Responded (r : response).

(** [await resp.json().catch(() => fallback)]. *)
Definition json_or (fallback : Json.value) (r : response) : Json.value :=
  match body r with Some v => v | None => fallback end.

(** [`HTTP ${resp.status}`]. *)
Definition http_status_text (r : response) : string :=
  "HTTP " ++ Json.to_js_string (Json.Num (status r)).

(** [v || fallback] inside a template literal or [new Error(...)]. *)
Definition text_or (v : option Json.value) (fallback : string) : string :=
  match v with
  | Some w => if Json.truthy w then Json.to_js_string w else fallback
  | None => fallback
  end.

(** What the design document calls a failure: a status outside 2xx, or a
    body without a truthy [ok]. *)
Definition lacks_truthy_ok (r : response) : bool :=
  match body r with
  | Some (Json.Obj fields) => negb (Json.truthy_opt (Json.lookup "ok" fields))
  | _ => true
  end.

Definition is_failure (r : response) : bool :=
  negb (ok r) || lacks_truthy_ok r.

(** The members of the body as the handlers read them: those of the object
    the body parses to, none when the body does not parse. *)
Definition object_body (r : response) : option (list (string * Json.value)) :=
  match body r with
  | None => Some []
  | Some (Json.Obj fields) => Some fields
  | Some _ => None
  end.

(** A [fetch] that is rejected, or answered with a failure. *)
Definition failed (f : fetched) : bool :=
  match f with
  | Rejected _ => true
  | Responded r => is_failure r
  end.

(** [if (!resp.ok || !data.ok) throw new Error(data.msg || `HTTP ...`)]
    after [data = await resp.json().catch(() => ({}))]: the data when the
    test lets them through. *)
Definition ensure_ok (r : response) : Js.result Json.value :=
  let data := json_or (Json.Obj []) r in
  failed <- (if negb (ok r) then Js.Ok true
             else (v <- Js.prop data "ok" ;; Js.Ok (negb (Json.truthy_opt v)))) ;;
  if (failed : bool) then
    m <- Js.prop data "msg" ;;
    Js.Throw (Js.ErrorObj (text_or m (http_status_text r)))
  else Js.Ok data.

(** [if (!resp.ok) throw new Error(data.error || `HTTP ...`)], the weaker
    test of the two searches that have one. *)
Definition ensure_status (r : response) : Js.result Json.value :=
  let data := json_or (Json.Obj []) r in
  if negb (ok r) then
    m <- Js.prop data "error" ;;
    Js.Throw (Js.ErrorObj (text_or m (http_status_text r)))
  else Js.Ok data.

End Http.

(** ** What the handlers exchange with the page and the backend *)

(** [modal.dataset.intent], and the third argument of [openNotesModal]: the
    two shapes of context object the code builds, [{ kind: 'case', year,
    month, caseName }] and [{ kind: 'case-law', id, onSaved }], where
    [onSaved] writes the preview line of the card the note belongs to. *)
Inductive intent := Update | Create.

Inductive NoteContext :=
| CaseContext (year month caseName : string)
| CaseLawContext (id : option Json.value) (card : nat).

(** The requests of the note editor and of the note button, by endpoint:
    [GET /api/note/{year}/{month}/{case}], [POST] to the same,
    [POST /api/create-note] and [POST /case-law/{id}/note]. *)
Inductive request :=
| GetNote (year month cname : string)
| PostNote (year month cname : string) (content : string)
| PostCreateNote (year month cname : string) (content : string)
| PostCaseLawNote (id : Json.value) (content : string).

(** What a handler does beside changing the state it owns.
    [OpenNotesModal] is the call [openNotesModal(content, intent, context)]
    with the very value it is given. *)
Inductive effect :=
| Alert (text : string)
| ConsoleWarn (text : string)
| OpenNotesModal (content : Json.value) (i : intent) (context : option NoteContext)
| NotePreview (card : nat) (text : string)
| RefreshNoteButton.

(** ** The results renderer and the directory overlay *)

Module Results.

Record SearchResultRecord := mkRecord {
  file : string;
  path : string;
  rel : option string
}.

(** The children of [#results]: a row made by [buildResultItem(rec)], a
    [<div class="result-item">] holding a text, and the two kinds of
    folder row of [showDirLevel], which remember the path their click
    asks for. *)
Inductive row :=
| RecordRow (rec : SearchResultRecord)
| TextRow (text : string)
| UpRow (target : string)
| FolderRow (dir : string) (target : string).

Record Host := mkHost {
  rows : list row;
  scrollTop : Z
}.

Record Button := mkButton {
  active_class : bool;
  textContent : string;
  aria_pressed : string
}.

Record DirSearchState := mkDir {
  active : bool;
  previousScroll : Z;
  currentPath : string
}.

(** [#results], [#dir-search], the two module-level variables, and
    [CASEORG_IS_ADMIN]. *)
Record state := mkState {
  results : option Host;
  dirBtn : option Button;
  dirSearchState : DirSearchState;
  lastRenderedResults : option (list SearchResultRecord);
  isAdmin : bool
}.

(** The name a row shows: [smartTruncate(rec.file, 100)]. *)
Definition display_name (rec : SearchResultRecord) : string :=
  JsString.smartTruncate_string (file rec) 100.

(** [{ ...item }] and [cloneResults]; [None] is [null]. *)
Definition clone_record (item : SearchResultRecord) : SearchResultRecord :=
  {| file := file item; path := path item; rel := rel item |}.

Definition cloneResults (lst : option (list SearchResultRecord))
  : option (list SearchResultRecord) :=
  match lst with
  | None => None
  | Some l => Some (map clone_record l)
  end.

Definition inactive_button (b : Button) : Button :=
  {| active_class := false;
     textContent := "Directory Search";
     aria_pressed := "false" |}.

Definition active_button (b : Button) : Button :=
  {| active_class := true;
     textContent := "Exit Directory Search";
     aria_pressed := "true" |}.

Definition rendered_rows (lst : option (list SearchResultRecord)) : list row :=
  match lst with
  | None | Some [] => [TextRow "No results."]
  | Some l => map RecordRow l
  end.

Section Layout.

(** The largest scroll offset of [#results] when it holds the given
    rows ([scrollHeight - clientHeight]); the browser keeps [scrollTop]
    between 0 and it. *)
Variable maxScroll : list row -> Z.

Definition clamp (v m : Z) : Z := Z.max 0 (Z.min v m).

(** [host.innerHTML = ...] followed by appends, and [host.scrollTop = v]. *)
Definition set_rows (new : list row) (h : Host) : Host :=
  {| rows := new; scrollTop := clamp (scrollTop h) (maxScroll new) |}.

Definition set_scrollTop (v : Z) (h : Host) : Host :=
  {| rows := rows h; scrollTop := clamp v (maxScroll (rows h)) |}.

Definition with_results (h : Host) (st : state) : state :=
  {| results := Some h; dirBtn := dirBtn st;
     dirSearchState := dirSearchState st;
     lastRenderedResults := lastRenderedResults st;
     isAdmin := isAdmin st |}.

Definition with_dir (d : DirSearchState) (st : state) : state :=
  {| results := results st; dirBtn := dirBtn st;
     dirSearchState := d;
     lastRenderedResults := lastRenderedResults st;
     isAdmin := isAdmin st |}.

Definition with_button (f : Button -> Button) (st : state) : state :=
  {| results := results st; dirBtn := option_map f (dirBtn st);
     dirSearchState := dirSearchState st;
     lastRenderedResults := lastRenderedResults st;
     isAdmin := isAdmin st |}.

Definition with_last (l : option (list SearchResultRecord)) (st : state) : state :=
  {| results := results st; dirBtn := dirBtn st;
     dirSearchState := dirSearchState st;
     lastRenderedResults := l;
     isAdmin := isAdmin st |}.

(** [renderResults(list)]; [None] is a [null] argument. *)
Definition renderResults (lst : option (list SearchResultRecord)) (st : state)
  : state :=
  match results st with
  | None => st
  | Some host =>
      let st1 :=
        if active (dirSearchState st) then
          with_button inactive_button
            (with_dir {| active := false; previousScroll := 0;
                         currentPath := "" |} st)
        else st in
      let st2 := with_last (cloneResults lst) st1 in
      with_results (set_rows (rendered_rows lst) host) st2
  end.


(** *** Reading the bodies of [/search] and [/api/dir-tree]

    A [SearchResultRecord] carries texts.  The contract makes every item
    of [results] an object whose [file] and [path] are strings, and these
    are the items a record can stand for.  ([rel] is kept when it is a
    string; the code never reads it.) *)
Definition record_of_json (item : Json.value) : option SearchResultRecord :=
  match item with
  | Json.Obj fields =>
      match Json.lookup "file" fields, Json.lookup "path" fields with
      | Some (Json.Str f), Some (Json.Str p) =>
          Some {| file := f; path := p;
                  rel := match Json.lookup "rel" fields with
                         | Some (Json.Str s) => Some s
                         | _ => None
                         end |}
      | _, _ => None
      end
  | _ => None
  end.

Fixpoint records_of_json (items : list Json.value)
  : option (list SearchResultRecord) :=
  match items with
  | [] => Some []
  | item :: rest =>
      match record_of_json item, records_of_json rest with
      | Some r, Some rs => Some (r :: rs)
      | _, _ => None
      end
  end.

(** [(v || []).forEach(...)]: the items the loop visits. *)
Definition items_or_empty (v : option Json.value) : Js.result (list Json.value) :=
  match v with
  | Some (Json.Arr items) => Js.Ok items
  | Some w =>
      if Json.truthy w
      then Js.Throw (Js.not_a_function "(intermediate value).forEach")
      else Js.Ok []
  | None => Js.Ok []
  end.

(** [!v || !v.length]. *)
Definition missing_or_empty (v : option Json.value) : bool :=
  match v with
  | Some (Json.Arr items) => match items with [] => true | _ => false end
  | Some (Json.Str _) => negb (Json.truthy_opt v)
  | Some (Json.Obj fields) => negb (Json.truthy_opt (Json.lookup "length" fields))
  | _ => true
  end.

(** [data.results || []] as [renderResults] receives it:
    - [Listed l]: an array of records (the empty one for a missing or falsy
      [results]);
    - [NoList]: a truthy value that is no array and has no truthy [length]
      ([true], a number, an object without one): [cloneResults] gives
      [null] and the test [!list.length] shows "No results.";
    - [NotIterable]: a value that is no array but has a truthy [length] (a
      non-empty string, an object with one): [list.forEach] is not a
      function, and the call throws after it has emptied [#results];
    - [Foreign]: an array with an item that is not a record of two strings.
      The rows and the snapshot the code then holds carry values a
      [SearchResultRecord] has no place for, and building a row may throw:
      such an answer is outside this model. *)
Inductive search_list :=
| Listed (l : list SearchResultRecord)
| NoList
| NotIterable
| Foreign.

Definition results_argument (v : option Json.value) : search_list :=
  match v with
  | Some (Json.Arr items) =>
      match records_of_json items with
      | Some l => Listed l
      | None => Foreign
      end
  | Some w =>
      if Json.truthy w
      then (if missing_or_empty v then NoList else NotIterable)
      else Listed []
  | None => Listed []
  end.

(** [renderResults(list)] for a [list] that is [NotIterable]: the mode is
    reset, [lastRenderedResults] becomes [null], [#results] is emptied, and
    [list.forEach] throws. *)
Definition renderResults_throws (st : state) : state :=
  match results st with
  | None => st
  | Some host =>
      let st1 :=
        if active (dirSearchState st) then
          with_button inactive_button
            (with_dir {| active := false; previousScroll := 0;
                         currentPath := "" |} st)
        else st in
      with_results (set_rows [] host) (with_last None st1)
  end.

(** *** [runBasicSearch] and [runAdvancedSearch], from the response on

    Neither has a [try]: a rejected [fetch] or a throwing read ends the
    handler with nothing rendered.  For a [Foreign] answer the function
    below leaves the state as it is, which says nothing about the code:
    every statement that lets a search answer arrive and depends on what
    it renders assumes that the answer is not [Foreign]. *)
Definition on_search_response (f : Http.fetched) (st : state) : state :=
  match f with
  | Http.Rejected _ => st
  | Http.Responded r =>
      let data := Http.json_or (Json.Obj [("results", Json.Arr [])]) r in
      match Js.prop data "results" with
      | Js.Throw _ => st
      | Js.Ok v =>
          match results_argument v with
          | Listed l => renderResults (Some l) st
          | NoList => renderResults None st
          | NotIterable => renderResults_throws st
          | Foreign => st
          end
      end
  end.


(** *** [showDirLevel(relPath)] *)

(** Up to the [fetch]: the state, and the path asked for if a request
    is made. *)
Definition showDirLevel_request (relPath : string) (st : state)
  : state * option string :=
  if negb (active (dirSearchState st)) then (st, None)
  else
    match results st with
    | None => (st, None)
    | Some _ =>
        (with_dir {| active := active (dirSearchState st);
                     previousScroll := previousScroll (dirSearchState st);
                     currentPath := relPath |} st,
         Some relPath)
    end.

(** [parts = relPath.split('/'); parts.pop(); parts.join('/')]: what
    stands before the last slash, nothing when there is none. *)
Definition parent_path (relPath : string) : string :=
  let s := list_ascii_of_string relPath in
  let i := JsString.lastIndexOf "/"%char s in
  if i =? -1 then "" else string_of_list_ascii (JsString.slice s 0 i).

Definition child_path (relPath dir : string) : string :=
  if String.eqb relPath "" then dir else relPath ++ "/" ++ dir.

Definition up_rows (relPath : string) : list row :=
  if String.eqb relPath "" then [] else [UpRow (parent_path relPath)].

Definition folder_row (relPath : string) (dir : Json.value) : row :=
  let name := Json.to_js_string dir in
  FolderRow name (child_path relPath name).

(** [buildResultItem({ file: f.name, path: f.path, rel: f.name })] for an
    item of [files]: the row, the error it throws ([f] is [null], or the
    name is [true] or a number other than 0, on which [smartTruncate] calls
    [lastIndexOf]), or [None] for an item whose row a [SearchResultRecord]
    cannot stand for (a name that is an array or an object, a path that is
    no string).  A name that is missing or falsy is shown as the empty
    text. *)
Definition file_row (f : Json.value) : Js.result (option row) :=
  name <- Js.prop f "name" ;;
  path_ <- Js.prop f "path" ;;
  match name with
  | Some (Json.Bool true) =>
      Js.Throw (Js.not_a_function "filename.lastIndexOf")
  | Some (Json.Num n) =>
      if n =? 0 then
        Js.Ok (match path_ with
               | Some (Json.Str p) =>
                   Some (RecordRow {| file := ""; path := p; rel := None |})
               | _ => None
               end)
      else Js.Throw (Js.not_a_function "filename.lastIndexOf")
  | Some (Json.Arr _) | Some (Json.Obj _) => Js.Ok None
  | Some (Json.Str s) =>
      Js.Ok (match path_ with
             | Some (Json.Str p) =>
                 Some (RecordRow {| file := s; path := p; rel := Some s |})
             | _ => None
             end)
  | Some Json.Null | Some (Json.Bool false) | None =>
      Js.Ok (match path_ with
             | Some (Json.Str p) =>
                 Some (RecordRow {| file := ""; path := p; rel := None |})
             | _ => None
             end)
  end.

(** The rows of the [files], [None] from the first item on that has no
    row in this model, or the error of the first item that throws before
    such an item. *)
Fixpoint file_rows (l : list Json.value) : Js.result (option (list row)) :=
  match l with
  | [] => Js.Ok (Some [])
  | f :: rest =>
      r <- file_row f ;;
      match r with
      | None => Js.Ok None
      | Some row_ =>
          rs <- file_rows rest ;;
          Js.Ok (option_map (cons row_) rs)
      end
  end.

(** The rows the [try] block has put under [#results] when it ends
    normally ([None] when one of them is outside the model), or the error
    that interrupts it. *)
Definition listing_rows (relPath : string) (data : Json.value)
  : Js.result (option (list row)) :=
  dirs <- Js.prop data "dirs" ;;
  dir_items <- items_or_empty dirs ;;
  files <- Js.prop data "files" ;;
  file_items <- items_or_empty files ;;
  frows <- file_rows file_items ;;
  Js.Ok (option_map
           (fun rows_ =>
              up_rows relPath
              ++ map (folder_row relPath) dir_items
              ++ rows_
              ++ (if missing_or_empty dirs && missing_or_empty files
                  then [TextRow "(empty)"] else []))
           frows).

Definition error_row (e : Js.exn) : row :=
  TextRow ("Error: " ++ Js.exn_to_string e).

(** The [catch] block. *)
Definition showDirLevel_catch (e : Js.exn) (host : Host) (st : state) : state :=
  if negb (active (dirSearchState st)) then st
  else with_results (set_rows [error_row e] host) st.

(** From the response of the [fetch] on.  [#results] is the element the
    first half found.  A listing with a file that is outside the model
    leaves the state as it is here, which says nothing about the code:
    statements that depend on the rows of a listing assume it has none. *)
Definition showDirLevel_resume (relPath : string) (f : Http.fetched) (st : state)
  : state :=
  match results st with
  | None => st
  | Some host =>
      match f with
      | Http.Rejected e => showDirLevel_catch e host st
      | Http.Responded r =>
          let data := Http.json_or (Json.Obj []) r in
          if negb (active (dirSearchState st)) then st
          else
            match listing_rows relPath data with
            | Js.Ok (Some rs) => with_results (set_rows rs host) st
            | Js.Ok None => st
            | Js.Throw e => showDirLevel_catch e host st
            end
      end
  end.

(** *** The click listener of [#dir-search] *)

Definition placeholder_row : row :=
  TextRow "Use the search tools above to view results.".

Definition loading_row : row := TextRow "Loading directory tree...".

Definition enter (host : Host) (st : state) : state * option string :=
  let st1 :=
    with_dir {| active := true;
                previousScroll := scrollTop host;
                currentPath := "" |} st in
  let st2 := with_button active_button st1 in
  let st3 := with_results (set_rows [loading_row] host) st2 in
  showDirLevel_request "" st3.

(** The statements of the [else] branch before the snapshot is taken. *)
Definition exit_prologue (st : state) : state :=
  with_button inactive_button
    (with_dir {| active := false;
                 previousScroll := previousScroll (dirSearchState st);
                 currentPath := "" |} st).

Definition restore_scroll (st : state) : state :=
  match results st with
  | Some host =>
      with_results (set_scrollTop (previousScroll (dirSearchState st)) host) st
  | None => st
  end.

Definition clear_previousScroll (st : state) : state :=
  with_dir {| active := active (dirSearchState st);
              previousScroll := 0;
              currentPath := currentPath (dirSearchState st) |} st.

Definition exit (host : Host) (st : state) : state :=
  let st1 := exit_prologue st in
  let snapshot := cloneResults (lastRenderedResults st1) in
  let st2 :=
    match snapshot with
    | Some _ => restore_scroll (renderResults snapshot st1)
    | None => with_results (set_rows [placeholder_row] host) st1
    end in
  clear_previousScroll st2.

(** The listener is only added when [#dir-search] exists. *)
Definition on_dir_click (st : state) : state * option string :=
  match dirBtn st with
  | None => (st, None)
  | Some _ =>
      match results st with
      | None => (st, None)
      | Some host =>
          if negb (active (dirSearchState st)) then enter host st
          else (exit host st, None)
      end
  end.

(** *** The delete button of a row, from the response on

    [target] is the place of the row under [#results] when the response
    arrives, [None] when the row is no longer there. *)
Fixpoint remove_nth {A} (n : nat) (l : list A) : list A :=
  match l, n with
  | [], _ => []
  | _ :: r, O => r
  | x :: r, S m => x :: remove_nth m r
  end.

Definition row_remove (target : option nat) (st : state) : state :=
  match target, results st with
  | Some i, Some host => with_results (set_rows (remove_nth i (rows host)) host) st
  | _, _ => st
  end.

Definition delete_failure_message (data : Json.value) (r : Http.response)
  : string :=
  match data with
  | Json.Obj fields => Http.text_or (Json.lookup "msg" fields) (Http.http_status_text r)
  | _ => Http.http_status_text r
  end.

Definition on_delete_response (target : option nat) (f : Http.fetched) (st : state)
  : state * list effect :=
  match f with
  | Http.Rejected e => (st, [Alert ("Delete failed: " ++ Js.exn_to_string e)])
  | Http.Responded r =>
      let data := Http.json_or (Json.Obj []) r in
      let failed :=
        if negb (Http.ok r) then Js.Ok true
        else (v <- Js.prop data "ok" ;; Js.Ok (negb (Json.truthy_opt v))) in
      match failed with
      | Js.Throw e => (st, [Alert ("Delete failed: " ++ Js.exn_to_string e)])
      | Js.Ok true =>
          (st, [Alert ("Delete failed: " ++ delete_failure_message data r)])
      | Js.Ok false => (row_remove target st, [])
      end
  end.

(** *** Events on the results surface *)
Inductive event :=
| SearchDone (f : Http.fetched)
| DirClick
| ShowDir (relPath : string)
| DirDone (relPath : string) (f : Http.fetched)
| DeleteDone (target : option nat) (f : Http.fetched)
| UserScroll (v : Z).

Definition step (st : state) (e : event) : state :=
  match e with
  | SearchDone f => on_search_response f st
  | DirClick => fst (on_dir_click st)
  | ShowDir relPath => fst (showDirLevel_request relPath st)
  | DirDone relPath f => showDirLevel_resume relPath f st
  | DeleteDone target f =>
      if isAdmin st then fst (on_delete_response target f st) else st
  | UserScroll v =>
      match results st with
      | Some host => with_results (set_scrollTop v host) st
      | None => st
      end
  end.

Definition run (st : state) (evs : list event) : state :=
  fold_left step evs st.

End Layout.

End Results.

(** ** The notes modal ([bindGlobalNotesModalHandlers]) *)

Module Notes.

Inductive modal_state := View | Edit.

(** [modal.dataset.state] and [modal.dataset.intent] ([None] while the
    attribute is not set), the three closure variables, the editor, the
    three buttons and the [hidden] attribute of the modal. *)
Record state := mkState {
  dataset_state : option modal_state;
  dataset_intent : option intent;
  originalContent : string;
  rawContent : string;
  noteContext : option NoteContext;
  editor_value : string;
  editor_readOnly : bool;
  editor_shown : bool;
  save_disabled : bool;
  save_visible : bool;
  cancel_visible : bool;
  edit_visible : bool;
  modal_hidden : bool
}.

Definition newline : ascii := "010"%char.
Definition backslash : ascii := "\"%char.

(** [raw.replace(/\\r\\n|\\n|\\r/g, '\n')]: the two-character
    sequences backslash-n and backslash-r (and the four-character
    backslash-r-backslash-n) become one line break. *)
Fixpoint asViewText (raw : string) : string :=
  match raw with
  | EmptyString => EmptyString
  | String c rest =>
      if Ascii.eqb c backslash then
        match rest with
        | String d rest' =>
            if Ascii.eqb d "r"%char then
              match rest' with
              | String c2 (String d2 rest'') =>
                  if Ascii.eqb c2 backslash && Ascii.eqb d2 "n"%char
                  then String newline (asViewText rest'')
                  else String newline (asViewText rest')
              | _ => String newline (asViewText rest')
              end
            else if Ascii.eqb d "n"%char then String newline (asViewText rest')
            else String c (asViewText rest)
        | EmptyString => String c EmptyString
        end
      else String c (asViewText rest)
  end.

Definition carriage_return : ascii := "013"%char.

(** What [editor.value] returns after an assignment: the value getter of a
    [<textarea>] gives the text with every CR LF pair and every remaining CR
    turned into one LF. *)
Fixpoint normalize_newlines (s : string) : string :=
  match s with
  | EmptyString => EmptyString
  | String c rest =>
      if Ascii.eqb c carriage_return then
        match rest with
        | String d rest' =>
            if Ascii.eqb d newline
            then String newline (normalize_newlines rest')
            else String newline (normalize_newlines rest)
        | EmptyString => String newline EmptyString
        end
      else String c (normalize_newlines rest)
  end.

Definition is_edit (st : state) : bool :=
  match dataset_state st with Some Edit => true | _ => false end.

Definition is_create (st : state) : bool :=
  match dataset_intent st with Some Create => true | _ => false end.

Definition updateDirtyState (st : state) : state :=
  {| dataset_state := dataset_state st;
     dataset_intent := dataset_intent st;
     originalContent := originalContent st;
     rawContent := rawContent st;
     noteContext := noteContext st;
     editor_value := editor_value st;
     editor_readOnly := editor_readOnly st;
     editor_shown := editor_shown st;
     save_disabled :=
       if negb (is_edit st) then true
       else String.eqb (editor_value st) (originalContent st);
     save_visible := save_visible st;
     cancel_visible := cancel_visible st;
     edit_visible := edit_visible st;
     modal_hidden := modal_hidden st |}.

Definition setState (s : modal_state) (st : state) : state :=
  let editing := match s with Edit => true | View => false end in
  updateDirtyState
    {| dataset_state := Some s;
       dataset_intent := dataset_intent st;
       originalContent := originalContent st;
       rawContent := rawContent st;
       noteContext := noteContext st;
       editor_value :=
         normalize_newlines
           (if negb editing then asViewText (rawContent st) else rawContent st);
       editor_readOnly := negb editing;
       editor_shown := editor_shown st;
       save_disabled := save_disabled st;
       save_visible := editing;
       cancel_visible := editing;
       edit_visible := negb (editing || is_create st);
       modal_hidden := modal_hidden st |}.

Definition set_contents (raw original : string) (st : state) : state :=
  {| dataset_state := dataset_state st;
     dataset_intent := dataset_intent st;
     originalContent := original;
     rawContent := raw;
     noteContext := noteContext st;
     editor_value := editor_value st;
     editor_readOnly := editor_readOnly st;
     editor_shown := editor_shown st;
     save_disabled := save_disabled st;
     save_visible := save_visible st;
     cancel_visible := cancel_visible st;
     edit_visible := edit_visible st;
     modal_hidden := modal_hidden st |}.

Definition set_intent (i : intent) (st : state) : state :=
  {| dataset_state := dataset_state st;
     dataset_intent := Some i;
     originalContent := originalContent st;
     rawContent := rawContent st;
     noteContext := noteContext st;
     editor_value := editor_value st;
     editor_readOnly := editor_readOnly st;
     editor_shown := editor_shown st;
     save_disabled := save_disabled st;
     save_visible := save_visible st;
     cancel_visible := cancel_visible st;
     edit_visible := edit_visible st;
     modal_hidden := modal_hidden st |}.

Definition set_context (c : option NoteContext) (st : state) : state :=
  {| dataset_state := dataset_state st;
     dataset_intent := dataset_intent st;
     originalContent := originalContent st;
     rawContent := rawContent st;
     noteContext := c;
     editor_value := editor_value st;
     editor_readOnly := editor_readOnly st;
     editor_shown := editor_shown st;
     save_disabled := save_disabled st;
     save_visible := save_visible st;
     cancel_visible := cancel_visible st;
     edit_visible := edit_visible st;
     modal_hidden := modal_hidden st |}.

Definition show_modal (st : state) : state :=
  {| dataset_state := dataset_state st;
     dataset_intent := dataset_intent st;
     originalContent := originalContent st;
     rawContent := rawContent st;
     noteContext := noteContext st;
     editor_value := editor_value st;
     editor_readOnly := editor_readOnly st;
     editor_shown := true;
     save_disabled := save_disabled st;
     save_visible := save_visible st;
     cancel_visible := cancel_visible st;
     edit_visible := edit_visible st;
     modal_hidden := false |}.

Definition openModal (content : string) (i : intent) (st : state) : state :=
  let st1 := set_intent i st in
  let st2 := set_contents content content st1 in
  let st3 := setState (match i with Create => Edit | Update => View end) st2 in
  show_modal st3.

Definition closeModal (st : state) : state :=
  {| dataset_state := dataset_state st;
     dataset_intent := dataset_intent st;
     originalContent := originalContent st;
     rawContent := rawContent st;
     noteContext := None;
     editor_value := editor_value st;
     editor_readOnly := true;
     editor_shown := false;
     save_disabled := save_disabled st;
     save_visible := save_visible st;
     cancel_visible := cancel_visible st;
     edit_visible := edit_visible st;
     modal_hidden := true |}.

(** What [openModal] shows for a content of any kind and intent [update]:
    the text itself, the empty text for a falsy value, and for any other
    value the [TypeError] of [raw.replace] inside [asViewText], thrown
    before the modal is shown. *)
Definition view_content (content : Json.value) : Js.result string :=
  match content with
  | Json.Str s => Js.Ok s
  | w => if Json.truthy w then Js.Throw (Js.not_a_function "raw.replace")
         else Js.Ok ""
  end.

(** [window._openNotesWith(content, intent, context)], for a content that
    is a text. *)
Definition _openNotesWith (content : string) (i : intent)
    (context : option NoteContext) (st : state) : state :=
  openModal content i (set_context context st).

(** The click listener of [#editNotesBtn]. *)
Definition on_edit_click (st : state) : state :=
  setState Edit (set_contents (originalContent st) (originalContent st) st).

(** The [input] listener of the editor, after the browser has put the new
    text in the editor; [v] is what [editor.value] then returns. *)
Definition on_input (v : string) (st : state) : state :=
  updateDirtyState
    {| dataset_state := dataset_state st;
       dataset_intent := dataset_intent st;
       originalContent := originalContent st;
       rawContent := rawContent st;
       noteContext := noteContext st;
       editor_value := v;
       editor_readOnly := editor_readOnly st;
       editor_shown := editor_shown st;
       save_disabled := save_disabled st;
       save_visible := save_visible st;
       cancel_visible := cancel_visible st;
       edit_visible := edit_visible st;
       modal_hidden := modal_hidden st |}.

Definition handleCancel (st : state) : state :=
  let editing := is_edit st in
  let st1 := set_contents (originalContent st) (originalContent st) st in
  if negb editing then setState View st1
  else if is_create st1 then setState View (closeModal st1)
  else setState View st1.

(** The click listener of [#notesClose]. *)
Definition on_close_click (st : state) : state :=
  setState View
    (closeModal (set_contents (originalContent st) (originalContent st) st)).

(** *** [saveCurrent]

    Up to the [fetch]: either an alert and no request, or the request and
    what the rest of the function keeps of this half ([intent], and which
    of the two branches it is in). *)
Inductive pending :=
| CaseLawSave
| CaseSave (i : intent).

Inductive dispatch :=
| Blocked (text : string)
| Sent (p : pending) (req : request).

Definition or_else (a b : string) : string :=
  if String.eqb a "" then b else a.

(** [domYear], [domMonth] and [domCase] are the values of [#mc-year],
    [#mc-month] and [#mc-case], empty when the element is missing. *)
Definition saveCurrent_request (domYear domMonth domCase : string) (st : state)
  : dispatch :=
  let i := if is_create st then Create else Update in
  let payloadContent := editor_value st in
  match noteContext st with
  | Some (CaseLawContext caseId _) =>
      match caseId with
      | Some v =>
          if Json.truthy v then Sent CaseLawSave (PostCaseLawNote v payloadContent)
          else Blocked "Missing case-law identifier."
      | None => Blocked "Missing case-law identifier."
      end
  | ctx =>
      let of_ctx (f : string -> string -> string -> string) :=
        match ctx with
        | Some (CaseContext y m c) => f y m c
        | _ => ""
        end in
      let year := or_else (of_ctx (fun y _ _ => y)) domYear in
      let month := or_else (of_ctx (fun _ m _ => m)) domMonth in
      let cname := or_else (of_ctx (fun _ _ c => c)) domCase in
      if String.eqb year "" || String.eqb month "" || String.eqb cname "" then
        Blocked "Select Year, Month, and Case first."
      else
        match i with
        | Create => Sent (CaseSave Create) (PostCreateNote year month cname payloadContent)
        | Update => Sent (CaseSave Update) (PostNote year month cname payloadContent)
        end
  end.

(** [await fetch(...)] followed by the test of the response, inside the
    [try]. *)
Definition checked (f : Http.fetched) : Js.result Json.value :=
  match f with
  | Http.Rejected e => Js.Throw e
  | Http.Responded r => Http.ensure_ok r
  end.

Definition save_failed (e : Js.exn) : effect :=
  Alert ("Save failed: " ++ Js.message_or_self e).

(** [rawContent = editor.value; originalContent = rawContent]. *)
Definition commit (st : state) : state :=
  set_contents (editor_value st) (editor_value st) st.

(** [modal.dataset.intent = 'update'; setState('view'); closeModal()]. *)
Definition finish (st : state) : state :=
  closeModal (setState View (set_intent Update st)).

(** What [noteContext.onSaved(data.summary || '')] does, for the context
    that is current when the response arrives; a context of a case has no
    [onSaved]. *)
Definition onSaved_effects (ctx : NoteContext) (data : Json.value) : list effect :=
  match ctx with
  | CaseLawContext _ card =>
      match Js.prop data "summary" with
      | Js.Ok summary => [NotePreview card (Http.text_or summary "No note saved yet.")]
      | Js.Throw _ => []
      end
  | CaseContext _ _ _ => []
  end.

(** From the response on.  [RefreshNoteButton] is the call of
    [window.__refreshNoteButton], which [manageCaseForm] defines. *)
Definition saveCurrent_resume (p : pending) (f : Http.fetched) (st : state)
  : state * list effect :=
  match checked f with
  | Js.Throw e => (st, [save_failed e])
  | Js.Ok data =>
      let st1 := commit st in
      match p with
      | CaseLawSave =>
          match noteContext st1 with
          | None =>
              (st1, [Alert "Notes saved!"; save_failed (Js.null_read "onSaved")])
          | Some ctx =>
              (finish st1, Alert "Notes saved!" :: onSaved_effects ctx data)
          end
      | CaseSave i =>
          (finish st1,
           [Alert (match i with
                   | Create => "Note.json created!"
                   | Update => "Notes saved!"
                   end);
            RefreshNoteButton])
      end
  end.

(** *** Events on the modal

    Both callers of [openNotesModal] pass a context object.  The buttons
    and the editor are inside the modal: a click or a keystroke reaches
    them only while the modal and the button are shown, and the editor
    takes input only while it is not read-only.  The response to a save
    can arrive at any time. *)
Inductive event :=
| OpenNote (content : string) (i : intent) (ctx : NoteContext)
| EditClick
| Input (v : string)
| SaveDone (p : pending) (f : Http.fetched)
| CancelClick
| CloseClick.

Definition shown (button_visible : bool) (st : state) : bool :=
  negb (modal_hidden st) && button_visible.

Definition step (st : state) (e : event) : state :=
  match e with
  | OpenNote content i ctx => _openNotesWith content i (Some ctx) st
  | EditClick => if shown (edit_visible st) st then on_edit_click st else st
  | Input v =>
      if shown (negb (editor_readOnly st)) st then on_input v st else st
  | SaveDone p f => fst (saveCurrent_resume p f st)
  | CancelClick => if shown (cancel_visible st) st then handleCancel st else st
  | CloseClick => if shown true st then on_close_click st else st
  end.

Definition run (st : state) (evs : list event) : state :=
  fold_left step evs st.

(** The state [bindGlobalNotesModalHandlers] leaves, for a page whose
    modal starts hidden with no [data-state]; [editorText] is what
    [editor.value] returns there. *)
Definition init (editorText : string) : state :=
  {| dataset_state := None;
     dataset_intent := None;
     originalContent := "";
     rawContent := "";
     noteContext := None;
     editor_value := editorText;
     editor_readOnly := false;
     editor_shown := false;
     save_disabled := true;
     save_visible := false;
     cancel_visible := false;
     edit_visible := true;
     modal_hidden := true |}.

Definition save_enabled (st : state) : bool := negb (save_disabled st).

(** The rule of the design document for the save button: it is enabled if
    and only if the state is [edit] and the text in the editor differs from
    [originalContent]. *)
Definition save_rule (st : state) : Prop :=
  save_enabled st = true
  <-> dataset_state st = Some Edit /\ editor_value st <> originalContent st.

(** The state is [edit] and the text in the editor differs from
    [originalContent]. *)
Definition dirty (st : state) : bool :=
  is_edit st && negb (String.eqb (editor_value st) (originalContent st)).

(** What holds of the modal from its first opening on: the save button is
    enabled exactly when the editor is dirty; a hidden modal is not in the
    edit state; a modal without a context is hidden. *)
Record consistent (st : state) : Prop := mkConsistent {
  enabled_iff_dirty : save_enabled st = dirty st;
  hidden_not_edit : modal_hidden st = true -> is_edit st = false;
  no_context_hidden : noteContext st = None -> modal_hidden st = true
}.

End Notes.

(** ** The case lookup of [manageCaseForm]: note button and name search *)

Module CaseLookup.

(** [#create-note-btn]: shown or hidden, its two [data-] attributes, its
    label, and whether [onclick] holds the handler or [null]. *)
Record NoteButton := mkNoteButton {
  visible : bool;
  hasNote : bool;
  intent_attr : option intent;
  label : string;
  wired : bool
}.

(** The values of the three selects, the note button, and
    [invoiceBtn.disabled]. *)
Record state := mkState {
  yearValue : string;
  monthValue : string;
  caseValue : string;
  noteBtn : NoteButton;
  invoiceDisabled : bool
}.

(** What [getNoteState] returns: [content] and [template] are the values
    of the answer as they are (strings by the contract), or the fallback. *)
Record NoteState := mkNoteState {
  exists_ : bool;
  content : Json.value;
  template : Json.value
}.

(** [data?.k] and [data && data.k]: nothing on [null] and on a body that
    did not parse. *)
Definition safe_prop (data : option Json.value) (k : string) : option Json.value :=
  match data with
  | Some (Json.Obj fields) => Json.lookup k fields
  | _ => None
  end.

Section Template.

(** The text [defaultNoteTemplate()] returns. *)
Variable NOTE_TEMPLATE_DEFAULT : string.

(** [getNoteState(year, month, cname)]: the request, and the value the
    function returns for each outcome of the [fetch]. *)
Definition getNoteState_request (year month cname : string) : request :=
  GetNote year month cname.

Definition getNoteState_resume (f : Http.fetched) : NoteState * list effect :=
  match f with
  | Http.Rejected e =>
      ({| exists_ := false; content := Json.Str "";
          template := Json.Str NOTE_TEMPLATE_DEFAULT |},
       [ConsoleWarn "Note check failed"])
  | Http.Responded r =>
      let data := Http.body r in
      if Http.ok r && Json.truthy_opt (safe_prop data "ok") then
        ({| exists_ := true;
            content := Json.or_value (safe_prop data "content") (Json.Str "");
            template :=
              Json.or_value (safe_prop data "template")
                (Json.Str NOTE_TEMPLATE_DEFAULT) |},
         [])
      else
        ({| exists_ := false; content := Json.Str "";
            template :=
              Json.or_value (safe_prop data "template")
                (Json.Str NOTE_TEMPLATE_DEFAULT) |},
         [])
  end.

Definition hasSelection (st : state) : bool :=
  negb (String.eqb (yearValue st) "")
  && negb (String.eqb (monthValue st) "")
  && negb (String.eqb (caseValue st) "").

Definition with_noteBtn (b : NoteButton) (st : state) : state :=
  {| yearValue := yearValue st; monthValue := monthValue st;
     caseValue := caseValue st; noteBtn := b;
     invoiceDisabled := invoiceDisabled st |}.

Definition with_invoiceDisabled (d : bool) (st : state) : state :=
  {| yearValue := yearValue st; monthValue := monthValue st;
     caseValue := caseValue st; noteBtn := noteBtn st;
     invoiceDisabled := d |}.

(** [setVisibility(noteBtn, false)], the two [delete]s and
    [noteBtn.onclick = null]. *)
Definition hide_note_button (st : state) : state :=
  with_noteBtn {| visible := false; hasNote := false; intent_attr := None;
                  label := label (noteBtn st); wired := false |} st.

Definition show_note_button (st : state) : state :=
  with_noteBtn {| visible := true; hasNote := true; intent_attr := Some Update;
                  label := "View / Edit Note.json"; wired := true |} st.

(** [updateCaseActions], up to the [await] and from it on. *)
Definition updateCaseActions_request (st : state) : state * option request :=
  let st1 := with_invoiceDisabled (negb (hasSelection st)) st in
  if negb (hasSelection st) then (hide_note_button st1, None)
  else (st1, Some (getNoteState_request (yearValue st) (monthValue st) (caseValue st))).

Definition updateCaseActions_resume (f : Http.fetched) (st : state)
  : state * list effect :=
  let (noteState, effs) := getNoteState_resume f in
  if negb (exists_ noteState) then (hide_note_button st, effs)
  else (show_note_button st, effs).



End Template.

(** *** [performNameSearch], from the response on: what [#mc-name-results]
    shows. *)
Inductive name_view :=
| NameText (text : string)
| NameItems (items : list Json.value).

(** [renderNameResults(list)]: one button per item.  The function is
    [async] and is not awaited: on a [null] item, whose [case] cannot be
    read, it stops with the buttons made so far, and its rejection reaches
    no handler. *)
Definition renderNameResults (v : option Json.value) : name_view :=
  match v with
  | Some (Json.Arr (x :: l)) => NameItems (Json.until_null (x :: l))
  | _ => NameText "No cases found."
  end.

Definition performNameSearch_resume (f : Http.fetched) : name_view :=
  let attempt :=
    data <- match f with
            | Http.Rejected e => Js.Throw e
            | Http.Responded r => Http.ensure_status r
            end ;;
    Js.prop data "cases" in
  match attempt with
  | Js.Throw e => NameText ("Search failed: " ++ Js.message_or_self e)
  | Js.Ok cases => renderNameResults cases
  end.

End CaseLookup.

(** ** The case-law search form ([caseLawSearchForm]) *)

Module CaseLaw.

Inductive results_view :=
| ViewText (text : string)
| Cards (items : list Json.value).

(** [#cls-results] and the options of [#cls-year] after the placeholder. *)
Record state := mkState {
  view : results_view;
  yearOptions : list Json.value
}.

(** The form's own [renderResults(list)]: what [#cls-results] shows when
    the call ends, and the error that ends it.  A card is made of any item
    but [null], whose [petitioner] cannot be read: the loop stops there,
    with the cards made so far. *)
Definition renderResults (v : option Json.value) : results_view * option Js.exn :=
  match v with
  | Some (Json.Arr (x :: l)) =>
      (Cards (Json.until_null (x :: l)),
       if Json.has_null (x :: l) then Some (Js.null_read "petitioner") else None)
  | _ => (ViewText "No case law found.", None)
  end.

(** [applyFilters(filters)]. *)
Definition applyFilters (filters : Json.value) (st : state) : state :=
  {| view := view st;
     yearOptions :=
       match filters with
       | Json.Obj fields =>
           match Json.lookup "years" fields with
           | Some (Json.Arr years) => years
           | _ => []
           end
       | _ => []
       end |}.

(** [performSearch], from the response on. *)
Definition performSearch_resume (f : Http.fetched) (st : state)
  : state * list effect :=
  let attempt :=
    data <- match f with
            | Http.Rejected e => Js.Throw e
            | Http.Responded r => Http.ensure_status r
            end ;;
    results <- Js.prop data "results" ;;
    filters <- Js.prop data "filters" ;;
    Js.Ok (results, filters) in
  match attempt with
  | Js.Throw e => (st, [Alert ("Search failed: " ++ Js.message_or_self e)])
  | Js.Ok (results, filters) =>
      let st1 := {| view := fst (renderResults results);
                    yearOptions := yearOptions st |} in
      match snd (renderResults results) with
      | Some e => (st1, [Alert ("Search failed: " ++ Js.message_or_self e)])
      | None =>
          (match filters with
           | Some fl => if Json.truthy fl then applyFilters fl st1 else st1
           | None => st1
           end, [])
      end
  end.

(** The note button of a card, from the response of
    [GET /case-law/{id}/note] on, on a page whose notes modal is bound.  The
    call of [openNotesModal] is inside the [try]: when it throws, for a
    content that is truthy and no text, the [catch] alerts. *)
Definition note_click_resume (id : option Json.value) (card : nat) (f : Http.fetched)
  : list effect :=
  match Notes.checked f with
  | Js.Throw e => [Alert ("Unable to load note: " ++ Js.message_or_self e)]
  | Js.Ok data =>
      let content := CaseLookup.safe_prop (Some data) "content" in
      let shown := Json.or_value content (Json.Str "") in
      OpenNotesModal shown
        (if Json.truthy_opt content then Update else Create)
        (Some (CaseLawContext id card))
      :: match Notes.view_content shown with
         | Js.Throw e => [Alert ("Unable to load note: " ++ Js.message_or_self e)]
         | Js.Ok _ => []
         end
  end.

End CaseLaw.

(** ** What a failing answer makes the handlers say *)

Module Surfaced.

(** The error thrown by the handlers that test the answer, by the kind of
    its body; [k] is the member they read for the message.  For an object,
    or a body that does not parse, it carries the server's text or
    [HTTP <status>]; for any other value but [null], [HTTP <status>]; on
    [null] the read itself throws - that of [ok] when the status is 2xx, of
    [k] otherwise. *)
Definition error_of (k : string) (r : Http.response) : Js.exn :=
  match Http.body r with
  | Some Json.Null => Js.null_read (if Http.ok r then "ok" else k)
  | Some (Json.Obj fields) =>
      Js.ErrorObj (Http.text_or (Json.lookup k fields) (Http.http_status_text r))
  | _ => Js.ErrorObj (Http.http_status_text r)
  end.

(** What follows [Delete failed: ] in the alert of the delete of a file:
    its handler guards the read of [msg], and shows the error itself where
    the others show its message. *)
Definition delete_text (r : Http.response) : string :=
  match Http.body r with
  | Some Json.Null =>
      if Http.ok r then Js.exn_to_string (Js.null_read "ok")
      else Http.http_status_text r
  | Some (Json.Obj fields) =>
      Http.text_or (Json.lookup "msg" fields) (Http.http_status_text r)
  | _ => Http.http_status_text r
  end.

End Surfaced.

(** ** Concrete pages and answers, for the examples below *)

Module Examples.

(** Two file names of a law office, longer than the 100 characters the
    callers pass: in the first the last dot is the one of [dt.], in the
    second the one of [Crl.M.C]. *)
Definition order_dated : list ascii :=
  list_ascii_of_string "Order dt. 12-03-2020 " ++ repeat "x"%char 100.

Definition order_in_crl_mc : list ascii :=
  list_ascii_of_string "Order dt. 12-03-2020 in Crl.M.C 1234 of 2020 "
  ++ repeat "x"%char 80.

(** A layout in which a row is 40 pixels high and [#results] 100. *)
Definition layout (rs : list Results.row) : Z :=
  Z.max 0 (40 * Z.of_nat (List.length rs) - 100).

Definition affidavit : Results.SearchResultRecord :=
  {| Results.file := "affidavit.pdf";
     Results.path := "2024/Mar/Doe v. Roe/affidavit.pdf";
     Results.rel := None |}.

Definition bail_order : Results.SearchResultRecord :=
  {| Results.file := "bail order.pdf";
     Results.path := "2024/Mar/Doe v. Roe/bail order.pdf";
     Results.rel := None |}.

Definition charge_sheet : Results.SearchResultRecord :=
  {| Results.file := "charge sheet.pdf";
     Results.path := "2024/Mar/Doe v. Roe/charge sheet.pdf";
     Results.rel := None |}.

Definition deposition : Results.SearchResultRecord :=
  {| Results.file := "deposition.pdf";
     Results.path := "2024/Mar/Doe v. Roe/deposition.pdf";
     Results.rel := None |}.

Definition json_of_record (rec : Results.SearchResultRecord) : Json.value :=
  Json.Obj [("file", Json.Str (Results.file rec));
            ("path", Json.Str (Results.path rec))].

Definition four_results : Json.value :=
  Json.Arr (map json_of_record [affidavit; bail_order; charge_sheet; deposition]).

(** An answer of [/search] as the backend sends it, and two failures that
    carry the same [results]. *)
Definition search_answer : Http.response :=
  {| Http.status := 200;
     Http.body := Some (Json.Obj [("results", four_results)]) |}.

Definition search_answer_500 : Http.response :=
  {| Http.status := 500;
     Http.body := Some (Json.Obj [("results", four_results)]) |}.

Definition search_answer_not_ok : Http.response :=
  {| Http.status := 200;
     Http.body := Some (Json.Obj [("ok", Json.Bool false);
                                  ("msg", Json.Str "index unavailable");
                                  ("results", four_results)]) |}.

Definition ok_answer : Http.response :=
  {| Http.status := 200;
     Http.body := Some (Json.Obj [("ok", Json.Bool true)]) |}.

Definition listing_answer : Http.response :=
  {| Http.status := 200;
     Http.body := Some (Json.Obj [("dirs", Json.Arr [Json.Str "2024"]);
                                  ("files", Json.Arr [])]) |}.

(** The page of an administrator before any search. *)
Definition search_page : Results.state :=
  {| Results.results :=
       Some {| Results.rows := [Results.placeholder_row]; Results.scrollTop := 0 |};
     Results.dirBtn :=
       Some {| Results.active_class := false;
               Results.textContent := "Directory Search";
               Results.aria_pressed := "false" |};
     Results.dirSearchState :=
       {| Results.active := false; Results.previousScroll := 0;
          Results.currentPath := "" |};
     Results.lastRenderedResults := None;
     Results.isAdmin := true |}.

(** After a search and a scroll down by 40 pixels. *)
Definition searched_page : Results.state :=
  Results.run layout search_page
    [Results.SearchDone (Http.Responded search_answer); Results.UserScroll 40].

(** ... and after a click on Directory Search. *)
Definition browsing_page : Results.state :=
  Results.run layout searched_page [Results.DirClick].

End Examples.

(** ** Further parts of [main.js] and [invoice.js] *)

(** *** [escapeHtml] *)

Module Html.

Definition double_quote : ascii := "034"%char.

(** [HTML_ESCAPE[ch] || ch] for the characters the pattern matches, and the
    character itself for the others. *)
Definition escape_char (ch : ascii) : string :=
  if Ascii.eqb ch "&"%char then "&amp;"
  else if Ascii.eqb ch "<"%char then "&lt;"
  else if Ascii.eqb ch ">"%char then "&gt;"
  else if Ascii.eqb ch double_quote then "&quot;"
  else if Ascii.eqb ch "'"%char then "&#39;"
  else String ch EmptyString.

(** [escapeHtml(value)] for a string. *)
Fixpoint escapeHtml (value : string) : string :=
  match value with
  | EmptyString => EmptyString
  | String ch rest => escape_char ch ++ escapeHtml rest
  end.

(** The characters that can open or close a tag or an attribute value. *)
Definition is_markup (ch : ascii) : bool :=
  Ascii.eqb ch "<"%char || Ascii.eqb ch ">"%char
  || Ascii.eqb ch double_quote || Ascii.eqb ch "'"%char.

Fixpoint chars (s : string) : list ascii :=
  match s with
  | EmptyString => []
  | String c r => c :: chars r
  end.

(** The reading of the five entities back into their characters. *)
Fixpoint unescapeHtml (s : string) : string :=
  match s with
  | EmptyString => EmptyString
  | String c r =>
      if Ascii.eqb c "&"%char then
        match r with
        | String "a" (String "m" (String "p" (String ";" r'))) =>
            String "&" (unescapeHtml r')
        | String "l" (String "t" (String ";" r')) => String "<" (unescapeHtml r')
        | String "g" (String "t" (String ";" r')) => String ">" (unescapeHtml r')
        | String "q" (String "u" (String "o" (String "t" (String ";" r')))) =>
            String double_quote (unescapeHtml r')
        | String "#" (String "3" (String "9" (String ";" r'))) =>
            String "'" (unescapeHtml r')
        | _ => String c (unescapeHtml r)
        end
      else String c (unescapeHtml r)
  end.

End Html.

(** *** What the notes modal shows *)

Module NotesView.

Import Notes.

(** The presentation of the modal that goes with its state: Save and
    Cancel are shown exactly in the edit state, Edit exactly in the view
    state of an existing note; outside the edit state the editor is
    read-only and holds the view text of [originalContent] as the textarea
    returns it (line ends normalised); in the edit state it is editable and
    the modal is shown; and [rawContent] is [originalContent]. *)
Record presented (st : state) : Prop := mkPresented {
  save_shown : save_visible st = is_edit st;
  cancel_shown : cancel_visible st = is_edit st;
  edit_shown : edit_visible st = negb (is_edit st || is_create st);
  view_text :
    is_edit st = false ->
    editor_readOnly st = true
    /\ editor_value st = normalize_newlines (asViewText (originalContent st));
  edit_open :
    is_edit st = true -> editor_readOnly st = false /\ modal_hidden st = false;
  raw_is_original : rawContent st = originalContent st
}.

(** An event that neither opens a note nor is the answer to a save that
    succeeded. *)
Definition keeps_saved_text (e : event) : bool :=
  match e with
  | OpenNote _ _ _ => false
  | SaveDone _ f => Http.failed f
  | _ => true
  end.

Fixpoint has_backslash (s : string) : bool :=
  match s with
  | EmptyString => false
  | String c r => Ascii.eqb c backslash || has_backslash r
  end.

(** No match of [NOTE_ESCAPE_RE]: no backslash is followed by [r] or
    [n]. *)
Fixpoint escape_free (s : string) : bool :=
  match s with
  | EmptyString => true
  | String c r =>
      (if Ascii.eqb c backslash then
         match r with
         | String d _ => negb (Ascii.eqb d "r"%char || Ascii.eqb d "n"%char)
         | EmptyString => true
         end
       else true)
      && escape_free r
  end.

Fixpoint has_carriage_return (s : string) : bool :=
  match s with
  | EmptyString => false
  | String c r => Ascii.eqb c carriage_return || has_carriage_return r
  end.

(** The three escape sequences, as they stand in a note. *)
Definition escaped_n : string := String backslash "n".
Definition escaped_r : string := String backslash "r".
Definition escaped_rn : string := (escaped_r ++ escaped_n)%string.

(** The text does not begin with backslash-n. *)
Definition not_escaped_n_head (t : string) : Prop :=
  match t with
  | String c (String d _) => Ascii.eqb c backslash && Ascii.eqb d "n"%char = false
  | _ => True
  end.

(** A backslash that is kept is followed by neither [r] nor [n]. *)
Definition not_escape_head (t : string) : Prop :=
  match t with
  | EmptyString => True
  | String d _ => Ascii.eqb d "r"%char = false /\ Ascii.eqb d "n"%char = false
  end.

End NotesView.

(** *** The results surface between events *)

Module ResultsRest.

Import Results.


Definition is_search (e : event) : bool :=
  match e with SearchDone _ => true | _ => false end.


(** [#results] has at least one child. *)
Definition not_blank (st : state) : Prop :=
  match results st with
  | Some host => rows host <> []
  | None => True
  end.

Definition no_slash (dir : string) : Prop :=
  ~ In "/"%char (list_ascii_of_string dir).



End ResultsRest.

(** *** [openConfirm] and the two delete buttons that wait for it *)

Module Confirm.

(** What a delete handler sends once its [openConfirm] promise resolves to
    [true]: [POST /api/delete-file] with [{ path }] for a result row,
    [DELETE /case-law/{id}] for a case-law card. *)
Inductive delete_request :=
| PostDeleteFile (path : string)
| DeleteCaseLaw (id : string).

(** [#confirmModal] with [#confirmText], and the click listeners on
    [#confirmYes], [#confirmNo] and [#confirmClose]: every call of
    [openConfirm] that found the four elements and is not yet resolved has
    its [onYes] on the first and its [onNo] on the other two.  [waiting]
    lists these calls in the order of registration, each by the request its
    caller sends on [true].  [parts] tells whether the four elements
    exist. *)
Record state := mkState {
  parts : bool;
  confirmText : option string;
  hidden : bool;
  aria_hidden : string;
  waiting : list delete_request
}.

Definition default_message : string := "Do you want to delete this file?".

(** [message || 'Do you want to delete this file?']. *)
Definition message_or_default (message : string) : string :=
  if String.eqb message "" then default_message else message.

(** [openConfirm(message)] called by a handler that continues with the
    request [k]; [native] is the answer [window.confirm] would give.  The
    second component lists the promises resolved by the call. *)
Definition openConfirm (message : string) (native : bool) (k : delete_request)
    (st : state) : state * list (delete_request * bool) :=
  if negb (parts st) then (st, [(k, native)])
  else
    ({| parts := parts st;
        confirmText :=
          option_map (fun _ => message_or_default message) (confirmText st);
        hidden := false;
        aria_hidden := "false";
        waiting := waiting st ++ [k] |},
     []).

(** A click on [#confirmYes] ([answer = true]) or on [#confirmNo] or
    [#confirmClose] ([false]): every listener registered on the element
    runs, each calling its own [cleanup] and resolving its own promise. *)
Definition click (answer : bool) (st : state)
  : state * list (delete_request * bool) :=
  match waiting st with
  | [] => (st, [])
  | ws =>
      ({| parts := parts st;
          confirmText := confirmText st;
          hidden := true;
          aria_hidden := "true";
          waiting := [] |},
       map (fun k => (k, answer)) ws)
  end.

(** [if (!ok) return;] and the [fetch] that follows. *)
Definition after_confirm (resolved : list (delete_request * bool))
  : list delete_request :=
  map fst (filter snd resolved).

(** The two quotation marks around the name in the message of a result row
    (U+201C and U+201D), as the bytes of their UTF-8 encoding. *)
Definition left_quote : string :=
  String (ascii_of_nat 226) (String (ascii_of_nat 128) (String (ascii_of_nat 156) "")).

Definition right_quote : string :=
  String (ascii_of_nat 226) (String (ascii_of_nat 128) (String (ascii_of_nat 157) "")).

Definition file_message (rec : Results.SearchResultRecord) : string :=
  "Delete " ++ left_quote ++ Results.display_name rec ++ right_quote ++ "?".

Definition card_message (title : string) : string :=
  "Delete " ++ String Html.double_quote title
  ++ String Html.double_quote "? This will remove the stored files and note.".

Inductive event :=
| FileDeleteClick (rec : Results.SearchResultRecord) (native : bool)
| CardDeleteClick (title id : string) (native : bool)
| ClickYes
| ClickNo
| ClickClose.

(** A handler up to its [fetch]: the state and the requests sent. *)
Definition step (st : state) (e : event) : state * list delete_request :=
  let (st', resolved) :=
    match e with
    | FileDeleteClick rec native =>
        openConfirm (file_message rec) native (PostDeleteFile (Results.path rec)) st
    | CardDeleteClick title id native =>
        openConfirm (card_message title) native (DeleteCaseLaw id) st
    | ClickYes => click true st
    | ClickNo | ClickClose => click false st
    end in
  (st', after_confirm resolved).

Fixpoint run (st : state) (evs : list event) : state * list delete_request :=
  match evs with
  | [] => (st, [])
  | e :: rest =>
      let (st1, sent1) := step st e in
      let (st2, sent2) := run st1 rest in
      (st2, sent1 ++ sent2)
  end.

(** The requests the delete clicks of a sequence would send if confirmed. *)
Definition asked (e : event) : list delete_request :=
  match e with
  | FileDeleteClick rec _ => [PostDeleteFile (Results.path rec)]
  | CardDeleteClick _ id _ => [DeleteCaseLaw id]
  | _ => []
  end.

Definition is_yes (e : event) : bool :=
  match e with ClickYes => true | _ => false end.

(** The dialog between events: shown exactly while a call waits, with
    [aria-hidden] telling the same, and nobody waits on a page without the
    dialog. *)
Record tidy (st : state) : Prop := mkTidy {
  shown_iff_waiting : hidden st = true <-> waiting st = [];
  aria_tells : aria_hidden st = if hidden st then "true" else "false";
  waiting_needs_parts : parts st = false -> waiting st = []
}.

End Confirm.

(** *** The three selects of the case lookup ([manageCaseForm]) *)

Module Cascade.

(** A [<select>] whose first option is the placeholder with the empty
    value: the values of the options after it, the value selected, and
    [disabled]. *)
Record Select := mkSelect {
  options : list string;
  value : string;
  disabled : bool
}.

(** [sel.innerHTML = '<option value="">...</option>']: the placeholder is
    the only option left and is selected. *)
Definition clear_options (s : Select) : Select :=
  {| options := []; value := ""; disabled := disabled s |}.

(** ... followed by [sel.disabled = true]. *)
Definition reset (s : Select) : Select :=
  {| options := []; value := ""; disabled := true |}.

(** One appended [<option>] per item, and [sel.disabled = false]. *)
Definition fill (items : list Json.value) (s : Select) : Select :=
  {| options := options s ++ map Json.to_js_string items;
     value := value s;
     disabled := false |}.

(** The user picks the option with value [v]: possible on an enabled
    select for the placeholder and for the options it has. *)
Definition can_pick (v : string) (s : Select) : bool :=
  negb (disabled s)
  && (String.eqb v "" || existsb (String.eqb v) (options s)).

Definition pick (v : string) (s : Select) : Select :=
  {| options := options s; value := v; disabled := disabled s |}.

(** [#mc-year], [#mc-month], [#mc-case], [#create-note-btn] and
    [invoiceBtn.disabled]. *)
Record state := mkState {
  yearSel : Select;
  monthSel : Select;
  caseSel : Select;
  noteBtn : CaseLookup.NoteButton;
  invoiceDisabled : bool
}.

(** What [updateCaseActions] and the note button read and write. *)
Definition selection (st : state) : CaseLookup.state :=
  {| CaseLookup.yearValue := value (yearSel st);
     CaseLookup.monthValue := value (monthSel st);
     CaseLookup.caseValue := value (caseSel st);
     CaseLookup.noteBtn := noteBtn st;
     CaseLookup.invoiceDisabled := invoiceDisabled st |}.

Definition with_actions (l : CaseLookup.state) (st : state) : state :=
  {| yearSel := yearSel st; monthSel := monthSel st; caseSel := caseSel st;
     noteBtn := CaseLookup.noteBtn l;
     invoiceDisabled := CaseLookup.invoiceDisabled l |}.

Definition with_year (s : Select) (st : state) : state :=
  {| yearSel := s; monthSel := monthSel st; caseSel := caseSel st;
     noteBtn := noteBtn st; invoiceDisabled := invoiceDisabled st |}.

Definition with_month (s : Select) (st : state) : state :=
  {| yearSel := yearSel st; monthSel := s; caseSel := caseSel st;
     noteBtn := noteBtn st; invoiceDisabled := invoiceDisabled st |}.

Definition with_case (s : Select) (st : state) : state :=
  {| yearSel := yearSel st; monthSel := monthSel st; caseSel := s;
     noteBtn := noteBtn st; invoiceDisabled := invoiceDisabled st |}.

(** The requests of the form. *)
Inductive request_ :=
| GetYears
| GetMonths (year : string)
| GetCases (year month : string)
| Probe (r : request).

Definition updateCaseActions (st : state) : state * list request_ :=
  let (l, probe) := CaseLookup.updateCaseActions_request (selection st) in
  (with_actions l st,
   match probe with Some r => [Probe r] | None => [] end).

(** [(data.k || []).forEach(...)] after [data = await r.json().catch(() =>
    ({k: []}))]: the items visited. *)
Definition listed (k : string) (r : Http.response) : Js.result (list Json.value) :=
  v <- Js.prop (Http.json_or (Json.Obj [(k, Json.Arr [])]) r) k ;;
  Results.items_or_empty v.

(** An answer (or a rejection) that does not make the loader throw after
    it has begun to write. *)
Definition readable (k : string) (f : Http.fetched) : bool :=
  match f with
  | Http.Rejected _ => true
  | Http.Responded r =>
      match listed k r with Js.Ok _ => true | Js.Throw _ => false end
  end.

(** [loadYears], [loadMonths] and [loadCases] from the response on.  None
    has a [try]: a rejected [fetch] ends the function before it wrote
    anything, a throwing read after the first [innerHTML]. *)
Definition loadYears_resume (f : Http.fetched) (st : state)
  : state * list request_ :=
  match f with
  | Http.Rejected _ => (st, [])
  | Http.Responded r =>
      let st1 := with_year (clear_options (yearSel st)) st in
      match listed "years" r with
      | Js.Throw _ => (st1, [])
      | Js.Ok items =>
          updateCaseActions
            (with_case (reset (caseSel st1))
               (with_month (reset (monthSel st1))
                  (with_year (fill items (yearSel st1)) st1)))
      end
  end.

Definition loadMonths_resume (f : Http.fetched) (st : state)
  : state * list request_ :=
  match f with
  | Http.Rejected _ => (st, [])
  | Http.Responded r =>
      let st1 := with_month (clear_options (monthSel st)) st in
      match listed "months" r with
      | Js.Throw _ => (st1, [])
      | Js.Ok items =>
          updateCaseActions
            (with_case (reset (caseSel st1))
               (with_month (fill items (monthSel st1)) st1))
      end
  end.

Definition loadCases_resume (f : Http.fetched) (st : state)
  : state * list request_ :=
  match f with
  | Http.Rejected _ => (st, [])
  | Http.Responded r =>
      let st1 := with_case (clear_options (caseSel st)) st in
      match listed "cases" r with
      | Js.Throw _ => (st1, [])
      | Js.Ok items =>
          updateCaseActions (with_case (fill items (caseSel st1)) st1)
      end
  end.

(** The [change] listeners. *)
Definition on_year_change (st : state) : state * list request_ :=
  let y := value (yearSel st) in
  if String.eqb y "" then
    updateCaseActions
      (with_case (reset (caseSel st)) (with_month (reset (monthSel st)) st))
  else (st, [GetMonths y]).

Definition on_month_change (st : state) : state * list request_ :=
  let y := value (yearSel st) in
  let m := value (monthSel st) in
  if negb (String.eqb y "") && negb (String.eqb m "") then (st, [GetCases y m])
  else updateCaseActions (with_case (reset (caseSel st)) st).

Definition on_case_change (st : state) : state * list request_ :=
  updateCaseActions st.

(** The click listener of [#mc-invoice]: the parameters of the address it
    navigates to, if it does. *)
Definition on_invoice_click (st : state) : option (string * string * string) :=
  if invoiceDisabled st then None
  else
    let y := value (yearSel st) in
    let m := value (monthSel st) in
    let c := value (caseSel st) in
    if String.eqb y "" || String.eqb m "" || String.eqb c "" then None
    else Some (y, m, c).

Section Template.

Variable NOTE_TEMPLATE_DEFAULT : string.

(** The second half of [updateCaseActions], when the probe is answered. *)
Definition on_probe (f : Http.fetched) (st : state) : state :=
  with_actions
    (fst (CaseLookup.updateCaseActions_resume NOTE_TEMPLATE_DEFAULT f (selection st)))
    st.

(** The events of the Year & Month tab: the user picks an option, or one
    of the requests is answered. *)
Inductive event :=
| YearPicked (v : string)
| MonthPicked (v : string)
| CasePicked (v : string)
| YearsLoaded (f : Http.fetched)
| MonthsLoaded (f : Http.fetched)
| CasesLoaded (f : Http.fetched)
| ProbeDone (f : Http.fetched).

Definition step (st : state) (e : event) : state * list request_ :=
  match e with
  | YearPicked v =>
      if can_pick v (yearSel st)
      then on_year_change (with_year (pick v (yearSel st)) st)
      else (st, [])
  | MonthPicked v =>
      if can_pick v (monthSel st)
      then on_month_change (with_month (pick v (monthSel st)) st)
      else (st, [])
  | CasePicked v =>
      if can_pick v (caseSel st)
      then on_case_change (with_case (pick v (caseSel st)) st)
      else (st, [])
  | YearsLoaded f => loadYears_resume f st
  | MonthsLoaded f => loadMonths_resume f st
  | CasesLoaded f => loadCases_resume f st
  | ProbeDone f => (on_probe f st, [])
  end.

Definition run (st : state) (evs : list event) : state :=
  fold_left (fun s e => fst (step s e)) evs st.

Definition readable_event (e : event) : bool :=
  match e with
  | YearsLoaded f => readable "years" f
  | MonthsLoaded f => readable "months" f
  | CasesLoaded f => readable "cases" f
  | _ => true
  end.

End Template.

(** The form as [manageCaseForm] leaves it before [loadYears] is
    answered. *)
Definition init : state :=
  {| yearSel := {| options := []; value := ""; disabled := false |};
     monthSel := {| options := []; value := ""; disabled := true |};
     caseSel := {| options := []; value := ""; disabled := true |};
     noteBtn := {| CaseLookup.visible := false; CaseLookup.hasNote := false;
                   CaseLookup.intent_attr := None;
                   CaseLookup.label := "View / Edit Note.json";
                   CaseLookup.wired := false |};
     invoiceDisabled := true |}.

Definition complete (st : state) : bool :=
  CaseLookup.hasSelection (selection st).

(** The note button as [updateCaseActions] leaves it when it hides it
    and when it shows it. *)
Definition hidden_button (b : CaseLookup.NoteButton) : CaseLookup.NoteButton :=
  {| CaseLookup.visible := false; CaseLookup.hasNote := false;
     CaseLookup.intent_attr := None;
     CaseLookup.label := CaseLookup.label b;
     CaseLookup.wired := false |}.

Definition shown_button : CaseLookup.NoteButton :=
  {| CaseLookup.visible := true; CaseLookup.hasNote := true;
     CaseLookup.intent_attr := Some Update;
     CaseLookup.label := "View / Edit Note.json";
     CaseLookup.wired := true |}.

Definition whole (b : CaseLookup.NoteButton) : Prop :=
  b = if CaseLookup.visible b then shown_button else hidden_button b.

(** The actions between events: the invoice button is enabled only for a
    complete selection, and the note button is shown exactly when it has
    its handler and its two [data-] attributes. *)
Record actions_ok (st : state) : Prop := mkActionsOk {
  invoice_needs_selection : invoiceDisabled st = false -> complete st = true;
  note_button_whole : whole (noteBtn st)
}.

End Cascade.

(** *** The delete button of a case-law card, and Reset *)

Module CaseLawCards.

Import CaseLaw.

(** From the response of [DELETE /case-law/{id}] on.  [target] is the
    place of the card under [#cls-results] when the response arrives,
    [None] when the card is no longer there. *)
Definition card_remove (target : option nat) (v : results_view) : results_view :=
  let left :=
    match v, target with
    | Cards items, Some i => Cards (Results.remove_nth i items)
    | _, _ => v
    end in
  match left with
  | Cards (x :: l) => Cards (x :: l)
  | _ => ViewText "No case law found."
  end.

Definition on_delete_response (target : option nat) (f : Http.fetched)
    (st : state) : state * list effect :=
  match Notes.checked f with
  | Js.Throw e => (st, [Alert ("Delete failed: " ++ Js.message_or_self e)])
  | Js.Ok _ =>
      ({| view := card_remove target (view st); yearOptions := yearOptions st |},
       [])
  end.

(** What the click listener of [#cls-reset] does to [#cls-results]. *)
Definition on_reset (st : state) : state :=
  {| view := ViewText "Use the search tools above to view results.";
     yearOptions := yearOptions st |}.

Inductive event :=
| SearchDone (f : Http.fetched)
| CardDeleteDone (target : option nat) (f : Http.fetched)
| ResetClick.

Definition step (st : state) (e : event) : state * list effect :=
  match e with
  | SearchDone f => performSearch_resume f st
  | CardDeleteDone target f => on_delete_response target f st
  | ResetClick => (on_reset st, [])
  end.

Definition run (st : state) (evs : list event) : state :=
  fold_left (fun s e => fst (step s e)) evs st.

Definition not_blank (st : state) : Prop := view st <> Cards [].

(** A 2xx search answer whose first result is [null]: the loop of
    [renderResults] stops before its first card. *)
Definition null_first (e : event) : bool :=
  match e with
  | SearchDone (Http.Responded r) =>
      Http.ok r
      && match Http.body r with
         | Some (Json.Obj fields) =>
             match Json.lookup "results" fields with
             | Some (Json.Arr (Json.Null :: _)) => true
             | _ => false
             end
         | _ => false
         end
  | _ => false
  end.

End CaseLawCards.

(** *** The theme ([applyTheme], [initTheme], [setupThemeToggle]) *)

Module Theme.

Inductive icon := Sun | Moon.

(** [data-theme] of the document element, [#theme-toggle] and the icon
    written into it, the entry of [localStorage] under [caseOrg.theme], and
    whether the listener for changes of the system colour scheme is
    registered. *)
Record state := mkState {
  data_theme : option string;
  has_button : bool;
  button_icon : option icon;
  stored : option string;
  follows_system : bool
}.

Definition applyTheme (theme : string) (st : state) : state :=
  {| data_theme := Some theme;
     has_button := has_button st;
     button_icon :=
       if has_button st
       then Some (if String.eqb theme "dark" then Sun else Moon)
       else button_icon st;
     stored := stored st;
     follows_system := follows_system st |}.

(** [prefersDark] is what [matchMedia('(prefers-color-scheme: dark)')]
    tells, [None] where [window.matchMedia] is missing. *)
Definition initTheme (prefersDark : option bool) (st : state) : state :=
  match stored st with
  | Some saved =>
      if String.eqb saved "light" || String.eqb saved "dark"
      then applyTheme saved st
      else applyTheme (match prefersDark with Some true => "dark" | _ => "light" end) st
  | None =>
      applyTheme (match prefersDark with Some true => "dark" | _ => "light" end) st
  end.

Definition falsy (v : option string) : bool :=
  match v with Some s => String.eqb s "" | None => true end.

Definition setupThemeToggle (prefersDark : option bool) (st : state) : state :=
  if negb (has_button st) then st
  else
    {| data_theme := data_theme st;
       has_button := has_button st;
       button_icon := button_icon st;
       stored := stored st;
       follows_system :=
         if falsy (stored st)
         then match prefersDark with Some _ => true | None => follows_system st end
         else follows_system st |}.

(** The click listener of [#theme-toggle]. *)
Definition on_toggle (st : state) : state :=
  if negb (has_button st) then st
  else
    let current :=
      match data_theme st with
      | Some t => if String.eqb t "" then "light" else t
      | None => "light"
      end in
    let next := if String.eqb current "dark" then "light" else "dark" in
    let st1 := applyTheme next st in
    {| data_theme := data_theme st1;
       has_button := has_button st1;
       button_icon := button_icon st1;
       stored := Some next;
       follows_system := follows_system st1 |}.

(** The [change] listener of the media query. *)
Definition on_scheme_change (matches : bool) (st : state) : state :=
  if follows_system st
  then applyTheme (if matches then "dark" else "light") st
  else st.

(** The page before the script runs, and after [initTheme();
    setupThemeToggle();]. *)
Definition page (button : bool) (saved : option string) : state :=
  {| data_theme := None; has_button := button; button_icon := None;
     stored := saved; follows_system := false |}.

Definition start (button : bool) (saved : option string) (prefersDark : option bool)
  : state :=
  setupThemeToggle prefersDark (initTheme prefersDark (page button saved)).

Inductive event :=
| ToggleClick
| SchemeChange (matches : bool).

Definition step (st : state) (e : event) : state :=
  match e with
  | ToggleClick => on_toggle st
  | SchemeChange matches => on_scheme_change matches st
  end.

Definition run (st : state) (evs : list event) : state := fold_left step evs st.

Definition is_theme (s : string) : bool :=
  String.eqb s "light" || String.eqb s "dark".

(** The theme is one of the two, and the button shows the icon of the
    other one. *)
Record themed (st : state) : Prop := mkThemed {
  theme_known :
    data_theme st = Some "light" \/ data_theme st = Some "dark";
  icon_tells :
    has_button st = true ->
    button_icon st
    = Some (if String.eqb (match data_theme st with Some t => t | None => "" end) "dark"
            then Sun else Moon)
}.

End Theme.

(** *** [String.prototype.trim], on strings of code units below 256 *)

Module JsText.

(** White space among the code units below 256: tab, line feed, vertical
    tab, form feed, carriage return, space and no-break space.  The same
    set is the class [\s] of a regular expression. *)
Definition is_space (c : ascii) : bool :=
  let n := nat_of_ascii c in
  ((9 <=? n) && (n <=? 13) || (n =? 32) || (n =? 160))%nat.

Fixpoint trimStart (l : list ascii) : list ascii :=
  match l with
  | [] => []
  | c :: r => if is_space c then trimStart r else l
  end.

Definition trimEnd (l : list ascii) : list ascii := rev (trimStart (rev l)).

Definition trim_chars (l : list ascii) : list ascii := trimEnd (trimStart l).

Definition trim (s : string) : string :=
  string_of_list_ascii (trim_chars (list_ascii_of_string s)).

(** No white space at either end. *)
Definition tight (l : list ascii) : Prop :=
  match l with
  | [] => True
  | c :: _ => is_space c = false /\ is_space (last l c) = false
  end.

Definition blank (s : string) : Prop :=
  Forall (fun c => is_space c = true) (list_ascii_of_string s).

End JsText.

(** *** The case name of [createCaseForm] *)

Module CreateCase.

(** The values of [#pn], [#rn], the hidden [#cc-name] and
    [#cc-name-preview]. *)
Record state := mkState {
  pn : string;
  rn : string;
  cc_name : string;
  cc_name_preview : string
}.

Definition updateCaseName (st : state) : state :=
  let p := JsText.trim (pn st) in
  let r := JsText.trim (rn st) in
  let name :=
    if negb (String.eqb p "") && negb (String.eqb r "")
    then (p ++ " v. " ++ r)%string else "" in
  {| pn := pn st; rn := rn st; cc_name := name; cc_name_preview := name |}.

(** The form when [createCaseForm] returns. *)
Definition init : state :=
  updateCaseName {| pn := ""; rn := ""; cc_name := ""; cc_name_preview := "" |}.

(** The [input] events of the two fields. *)
Inductive event :=
| InputPetitioner (v : string)
| InputRespondent (v : string).

Definition step (st : state) (e : event) : state :=
  match e with
  | InputPetitioner v =>
      updateCaseName {| pn := v; rn := rn st; cc_name := cc_name st;
                        cc_name_preview := cc_name_preview st |}
  | InputRespondent v =>
      updateCaseName {| pn := pn st; rn := v; cc_name := cc_name st;
                        cc_name_preview := cc_name_preview st |}
  end.

Definition run (st : state) (evs : list event) : state := fold_left step evs st.

(** What a click on Create Case does before the [fetch]: the alert, or
    the three fields of the form data that name the case and its
    parties. *)
Inductive submitted :=
| NameMissing (alert : string)
| CreateCaseRequest (caseName petitioner respondent : string).

Definition on_submit (st : state) : submitted :=
  if String.eqb (cc_name st) ""
  then NameMissing "Enter Petitioner and Respondent to form the Case Name."
  else CreateCaseRequest (cc_name st) (JsText.trim (pn st)) (JsText.trim (rn st)).

(** The hidden field and the preview hold the name made of the two
    fields as they are now. *)
Definition named (st : state) : Prop :=
  cc_name st
  = (if negb (String.eqb (JsText.trim (pn st)) "")
        && negb (String.eqb (JsText.trim (rn st)) "")
     then JsText.trim (pn st) ++ " v. " ++ JsText.trim (rn st) else "")%string
  /\ cc_name_preview st = cc_name st.

End CreateCase.

(** *** [invoice.js]: the amount field, the file name and the item rows

    Texts are lists of code units below 256, as for [smartTruncate]. *)

Module Invoice.

Definition is_digit (c : ascii) : bool :=
  let n := nat_of_ascii c in ((48 <=? n) && (n <=? 57))%nat.

Definition is_dot (c : ascii) : bool := Ascii.eqb c ".".

(** [text.replace(/[^\d.]/g, '')]. *)
Definition clean (l : list ascii) : list ascii :=
  filter (fun c => is_digit c || is_dot c) l.

(** [parts[0]] and [parts.slice(1).join('')] for [parts = s.split('.')]. *)
Fixpoint before_dot (l : list ascii) : list ascii :=
  match l with
  | [] => []
  | c :: r => if is_dot c then [] else c :: before_dot r
  end.

Fixpoint after_dot (l : list ascii) : list ascii :=
  match l with
  | [] => []
  | c :: r => if is_dot c then r else after_dot r
  end.

Definition no_dots (l : list ascii) : list ascii :=
  filter (fun c => negb (is_dot c)) l.

Definition is_empty (l : list ascii) : bool :=
  match l with [] => true | _ => false end.

(** The [input] listener of an amount field: the text it writes back. *)
Definition amount_input (text : list ascii) : list ascii :=
  let cl := clean text in
  let integral := before_dot cl in
  let fractional := firstn 2 (no_dots (after_dot cl)) in
  let integral :=
    if is_empty integral && negb (is_empty fractional)
    then ["0"%char] else integral in
  if negb (is_empty fractional)
  then (if is_empty integral then ["0"%char] else integral)
       ++ "."%char :: fractional
  else integral.

(** Digits, optionally followed by a dot and one or two digits, with a
    digit before the dot. *)
Definition amount_shape (l : list ascii) : Prop :=
  exists i f,
    l = i ++ (match f with [] => [] | _ => "."%char :: f end)
    /\ Forall (fun c => is_digit c = true) i
    /\ Forall (fun c => is_digit c = true) f
    /\ (List.length f <= 2)%nat
    /\ (f <> [] -> i <> []).

(** [toLowerCase] on code units below 256. *)
Definition lower (c : ascii) : ascii :=
  let n := nat_of_ascii c in
  if ((65 <=? n) && (n <=? 90)
      || (192 <=? n) && (n <=? 222) && negb (n =? 215))%nat
  then ascii_of_nat (n + 32) else c.

(** [replace(/\s+/g, '-')]: [in_run] tells that the code unit before was
    white space. *)
Fixpoint dash_spaces (in_run : bool) (l : list ascii) : list ascii :=
  match l with
  | [] => []
  | c :: r =>
      if JsText.is_space c
      then (if in_run then dash_spaces true r else "-"%char :: dash_spaces true r)
      else c :: dash_spaces false r
  end.

(** The class [[a-z0-9_-]]. *)
Definition keep (c : ascii) : bool :=
  let n := nat_of_ascii c in
  ((97 <=? n) && (n <=? 122) || (48 <=? n) && (n <=? 57)
   || (n =? 95) || (n =? 45))%nat.

Definition sanitizeForFilename (value : list ascii) : list ascii :=
  filter keep (dash_spaces false (map lower (JsText.trim_chars value))).

(** [a || b] on texts. *)
Definition or_text (a b : list ascii) : list ascii :=
  if is_empty a then b else a.

(** [parts.join('_')]. *)
Fixpoint join_underscore (parts : list (list ascii)) : list ascii :=
  match parts with
  | [] => []
  | [p] => p
  | p :: rest => p ++ "_"%char :: join_underscore rest
  end.

Definition pdf : list ascii := list_ascii_of_string ".pdf".

(** [suggested_filename] of [collectInvoiceData]; [stamp] is the first
    ten characters of [today.toISOString()]. *)
Definition suggested_filename
    (invoiceNumber clientName invoiceDate stamp : list ascii) : list ascii :=
  let identifier := or_text invoiceNumber (list_ascii_of_string "invoice") in
  let client := or_text clientName (list_ascii_of_string "client") in
  let filenameParts :=
    filter (fun p => negb (is_empty p))
      (map sanitizeForFilename
         [identifier; client; or_text invoiceDate stamp]) in
  or_text (join_underscore filenameParts)
    (list_ascii_of_string "invoice_" ++ stamp)
  ++ pdf.

(** A row of [#invoice-items]: the number cell and the three fields.  The
    total under the table, which [updateTotals] adds up in floating point,
    is not part of the model. *)
Record ItemRow := mkItemRow {
  sn : string;
  item : string;
  description : string;
  amount : string
}.

(** [String(index + 1)]. *)
Definition number_text (index : nat) : string :=
  Json.to_js_string (Json.Num (Z.of_nat (S index))).

(** [renumberRows], from the row of the given index on. *)
Fixpoint renumber_from (index : nat) (rows : list ItemRow) : list ItemRow :=
  match rows with
  | [] => []
  | r :: rest =>
      {| sn := number_text index; item := item r;
         description := description r; amount := amount r |}
      :: renumber_from (S index) rest
  end.

Definition renumberRows (rows : list ItemRow) : list ItemRow :=
  renumber_from 0 rows.

(** [createItemRow()] without values. *)
Definition createItemRow (rows : list ItemRow) : list ItemRow :=
  renumberRows (rows ++ [{| sn := ""; item := ""; description := ""; amount := "" |}]).

Definition ensureAtLeastOneRow (rows : list ItemRow) : list ItemRow :=
  match rows with
  | [] => createItemRow rows
  | _ => renumberRows rows
  end.

Definition clear_fields (r : ItemRow) : ItemRow :=
  {| sn := sn r; item := ""; description := ""; amount := "" |}.

(** The click listener of the body for the remove button of the row at
    [index]. *)
Definition on_remove_click (index : nat) (rows : list ItemRow) : list ItemRow :=
  match nth_error rows index with
  | None => rows
  | Some _ =>
      renumberRows
        (match rows with
         | [r] => [clear_fields r]
         | _ => Results.remove_nth index rows
         end)
  end.

Inductive event :=
| AddClick
| RemoveClick (index : nat)
| FieldsTyped (index : nat) (item description amount : string).

Fixpoint set_fields (index : nat) (i d a : string) (rows : list ItemRow)
  : list ItemRow :=
  match rows, index with
  | [], _ => []
  | r :: rest, O =>
      {| sn := sn r; item := i; description := d; amount := a |} :: rest
  | r :: rest, S n => r :: set_fields n i d a rest
  end.

Definition step (rows : list ItemRow) (e : event) : list ItemRow :=
  match e with
  | AddClick => createItemRow rows
  | RemoveClick index => on_remove_click index rows
  | FieldsTyped index i d a => set_fields index i d a rows
  end.

Definition run (rows : list ItemRow) (evs : list event) : list ItemRow :=
  fold_left step evs rows.

(** The rows are numbered 1, 2, ... from the given index on. *)
Fixpoint numbered_from (index : nat) (rows : list ItemRow) : Prop :=
  match rows with
  | [] => True
  | r :: rest => sn r = number_text index /\ numbered_from (S index) rest
  end.

End Invoice.

(** *** The files chosen for upload ([manageCaseForm]) *)

Module FileSelection.

(** What the code reads of a [File]. *)
Record File := mkFile {
  name : string;
  size : Z
}.

(** [`${f.name}-${f.size}`]. *)
Definition key (f : File) : string :=
  (name f ++ "-" ++ Json.to_js_string (Json.Num (size f)))%string.

(** [have.has(key(f))] for [have = new Set(selectedFiles.map(key))]. *)
Definition has (selectedFiles : list File) (f : File) : bool :=
  existsb (String.eqb (key f)) (map key selectedFiles).

(** The [drop] listener of the drop zone: [selectedFiles] afterwards.
    [have] is made once, before the dropped files are visited. *)
Definition on_drop (files selectedFiles : list File) : list File :=
  match files with
  | [] => selectedFiles
  | _ => selectedFiles ++ filter (fun f => negb (has selectedFiles f)) files
  end.

End FileSelection.

(** * Properties *)

(** ** The year window *)

Section YearWindow.

Import YearDropdown.

Lemma in_years (lo hi y : Z) : In y (years lo hi) -> lo <= y <= hi.
Proof.
  unfold years. rewrite in_map_iff. intros [i [<- Hi]].
  apply in_seq in Hi. lia.
Qed.

Lemma years_length (lo hi : Z) :
  lo <= hi + 1 -> Z.of_nat (List.length (years lo hi)) = hi - lo + 1.
Proof.
  intros H. unfold years. rewrite length_map, length_seq. lia.
Qed.

Lemma map_seq_from_0 {A} (f : nat -> A) (a n : nat) :
  map f (seq a n) = map (fun i => f (a + i)%nat) (seq 0 n).
Proof.
  revert a f. induction n as [|n IH]; intros a f; simpl; [reflexivity|].
  f_equal; [f_equal; lia|].
  rewrite (IH (S a)), (IH 1%nat). apply map_ext. intros i. f_equal. lia.
Qed.

Lemma years_app (lo mid hi : Z) :
  lo <= mid + 1 -> mid <= hi ->
  years lo mid ++ years (mid + 1) hi = years lo hi.
Proof.
  intros H1 H2. unfold years.
  replace (Z.to_nat (hi + 1 - lo))
    with (Z.to_nat (mid + 1 - lo) + Z.to_nat (hi + 1 - (mid + 1)))%nat by lia.
  rewrite seq_app, map_app. f_equal.
  simpl (0 + _)%nat.
  rewrite (map_seq_from_0 _ (Z.to_nat (mid + 1 - lo))).
  apply map_ext. intros i. lia.
Qed.

Lemma years_app_pred (lo mid hi : Z) :
  lo <= mid -> mid - 1 <= hi ->
  years lo (mid - 1) ++ years mid hi = years lo hi.
Proof.
  intros H1 H2. rewrite <- (years_app lo (mid - 1) hi) by lia.
  do 2 f_equal. lia.
Qed.

Ltac unfold_listeners :=
  unfold step, on_scroll, on_item_click, on_keydown, on_trigger_click,
    on_trigger_wheel, extend_for, grow_top, grow_bottom, open, close,
    setYear, set_ready, render_initial, set_panel_hidden, next_year, CHUNK in *.

Ltac fields :=
  cbn [anchor from to selected hidden_value panel_hidden ready items] in *;
  unfold CHUNK in *.

Ltac split_tests :=
  repeat match goal with
    | |- context [if ?b then _ else _] => destruct b eqn:?
    | |- context [match ?k with ArrowUp => _ | _ => _ end] => destruct k
    end.

Ltac items_cases :=
  fields;
  repeat match goal with
    | H : In _ (_ ++ _) |- _ => apply in_app_or in H; destruct H
    | H : In _ (years _ _) |- _ => apply in_years in H
    | H : forall y, In y ?l -> _, H' : In ?z ?l |- _ => specialize (H z H')
    end.

Lemma init_shape (startYear : Z) (panelHidden : bool) :
  shape (init startYear panelHidden).
Proof.
  split; unfold init, CHUNK; simpl; try lia; intros y [].
Qed.

Lemma init_window_ok (startYear : Z) (panelHidden : bool) :
  window_ok (init startYear panelHidden).
Proof. unfold window_ok, init, CHUNK; simpl; lia. Qed.

Lemma step_shape (s : state) (e : event) : shape s -> shape (step s e).
Proof.
  intros [Hw Hm Hi]. destruct e; unfold_listeners; split_tests;
    (split; [fields; lia | fields; congruence || lia
            | intros ? Hy; items_cases; fields; lia]).
Qed.

Lemma existsb_eqb_in (y : Z) (l : list Z) :
  existsb (Z.eqb y) l = true -> In y l.
Proof.
  rewrite existsb_exists. intros [x [Hx Heq]].
  apply Z.eqb_eq in Heq. subst. exact Hx.
Qed.

Lemma step_window_ok (s : state) (e : event) :
  shape s -> window_ok s -> is_wheel e = false -> window_ok (step s e).
Proof.
  intros [Hw Hm Hi] Hok Hnw. unfold window_ok in *.
  destruct e; try discriminate Hnw.
  - unfold_listeners; split_tests; fields; lia.
  - unfold on_item_click, step. unfold on_item_click.
    destruct (existsb (Z.eqb y) (items s)) eqn:Hy; [|exact Hok].
    apply existsb_eqb_in, Hi in Hy.
    unfold_listeners; split_tests; fields; lia.
  - unfold_listeners; split_tests; fields; lia.
  - unfold_listeners; split_tests; fields; lia.
  - unfold_listeners; split_tests; fields; lia.
Qed.

Lemma step_width (s : state) (e : event) : width s <= width (step s e).
Proof.
  unfold width. destruct e; unfold_listeners; split_tests; fields; lia.
Qed.

Lemma key_move_window_ok (s : state) (k : key) :
  shape s -> is_move k = true -> window_ok (step s (KeyDown k)).
Proof.
  intros [Hw Hm Hi] Hk. unfold window_ok.
  destruct k; try discriminate Hk;
    unfold_listeners; split_tests; fields; lia.
Qed.

Lemma run_snoc (s : state) (evs : list event) (e : event) :
  run s (evs ++ [e]) = step (run s evs) e.
Proof. unfold run. rewrite fold_left_app. reflexivity. Qed.

Lemma run_shape (s : state) (evs : list event) : shape s -> shape (run s evs).
Proof.
  revert s. induction evs as [|e evs IH]; intros s Hs; simpl; [exact Hs|].
  apply IH, step_shape, Hs.
Qed.

Lemma run_window_ok (s : state) (evs : list event) :
  shape s -> window_ok s -> Forall (fun e => is_wheel e = false) evs ->
  window_ok (run s evs).
Proof.
  revert s. induction evs as [|e evs IH]; intros s Hs Hok Hall; simpl; [exact Hok|].
  inversion Hall; subst.
  apply IH; [apply step_shape, Hs | apply step_window_ok; assumption | assumption].
Qed.

(** Once the panel has been rendered, its option nodes are exactly the
    years of the window, so their number is [to - from + 1]. *)
Lemma step_items (s : state) (e : event) :
  shape s -> (ready s = true -> items s = years (from s) (to s)) ->
  ready (step s e) = true ->
  items (step s e) = years (from (step s e)) (to (step s e)).
Proof.
  intros [Hw Hm Hi]. unfold CHUNK in Hw.
  destruct e; unfold_listeners; split_tests; fields; intros Hr Hr';
    try (apply Hr; assumption); try reflexivity; try congruence;
    try rewrite (Hr Hr');
    repeat first [rewrite years_app_pred by lia | rewrite years_app by lia];
    reflexivity.
Qed.

Lemma run_items (startYear : Z) (panelHidden : bool) (evs : list event) :
  let s := run (init startYear panelHidden) evs in
  ready s = true ->
  items s = years (from s) (to s)
  /\ Z.of_nat (List.length (items s)) = to s - from s + 1.
Proof.
  cbv zeta.
  assert (H : forall evs,
    ready (run (init startYear panelHidden) evs) = true ->
    items (run (init startYear panelHidden) evs)
    = years (from (run (init startYear panelHidden) evs))
            (to (run (init startYear panelHidden) evs))).
  { clear evs. intros evs. induction evs as [|e evs IH] using rev_ind.
    - discriminate.
    - rewrite run_snoc. apply step_items; [|exact IH].
      apply run_shape, init_shape. }
  intros Hr. split; [apply H, Hr|].
  rewrite (H evs Hr).
  pose proof (wide _ (run_shape _ evs (init_shape startYear panelHidden))) as Hw.
  unfold CHUNK in Hw. rewrite years_length; lia.
Qed.

Lemma wheel_nudge (s : state) (ctrlKey : bool) (deltaY : Z) :
  let s' := step s (TriggerWheel ctrlKey deltaY) in
  from s' = from s /\ to s' = to s /\ Z.abs (selected s' - selected s) <= 1.
Proof.
  cbv zeta. unfold_listeners; split_tests; fields; lia.
Qed.

(** C2, as amended.  From the initial window [from = anchor - 80],
    [to = anchor + 80], [selected = anchor]: after every sequence of
    events without a wheel nudge of the trigger (scrolls of the panel,
    keys, clicks) [from <= selected <= to] holds; after every sequence of
    events whatsoever the next event does not narrow the window, a wheel
    nudge leaves [from] and [to] alone and moves [selected] by at most
    one, and a move by key puts [selected] back inside the window. *)
Theorem year_window_grows_and_holds_selection
    (startYear : Z) (panelHidden : bool) (evs : list event) :
  let s := run (init startYear panelHidden) evs in
  (Forall (fun e => is_wheel e = false) evs -> window_ok s)
  /\ (forall e, width s <= width (step s e))
  /\ (forall ctrlKey deltaY,
        let s' := step s (TriggerWheel ctrlKey deltaY) in
        from s' = from s /\ to s' = to s
        /\ Z.abs (selected s' - selected s) <= 1)
  /\ (forall k, is_move k = true -> window_ok (step s (KeyDown k))).
Proof.
  cbv zeta.
  pose proof (run_shape _ evs (init_shape startYear panelHidden)) as Hs.
  split; [|split; [|split]].
  - intros Hall. apply run_window_ok;
      [apply init_shape | apply init_window_ok | exact Hall].
  - intros e. apply step_width.
  - intros c d. apply wheel_nudge.
  - intros k Hk. apply key_move_window_ok; assumption.
Qed.

Lemma year_window_grows_and_holds_selection_witness :
  window_ok (run (init 2025 true)
               [TriggerClick; KeyDown Home; Scroll true false; ItemClick 9990])
  /\ window_ok (step (run (init 2025 true)
                        [TriggerClick; KeyDown Home; Scroll true false;
                         ItemClick 9990]) (KeyDown End_)).
Proof.
  destruct (year_window_grows_and_holds_selection 2025 true
              [TriggerClick; KeyDown Home; Scroll true false; ItemClick 9990])
    as [H1 [_ [_ H4]]].
  split; [apply H1; repeat constructor | apply H4; reflexivity].
Defined.

(** C2 fails as stated: with the panel closed, 81 wheel nudges upwards on
    the trigger take [selected] to 2106 while the window is still
    [1945..2105]. *)
Lemma year_window_wheel_counterexample :
  let s := run (init 2025 true) (repeat (TriggerWheel false (-1)) 81) in
  from s = 1945 /\ to s = 2105 /\ selected s = 2106 /\ ~ window_ok s.
Proof.
  cbv zeta. unfold window_ok.
  assert (E : run (init 2025 true) (repeat (TriggerWheel false (-1)) 81)
              = {| anchor := 2025; from := 1945; to := 2105;
                   selected := 2106; hidden_value := 2106;
                   panel_hidden := true; ready := false; items := [] |})
    by (vm_compute; reflexivity).
  rewrite E. cbn [from to selected]. repeat split; try lia.
Qed.

End YearWindow.

(** ** [smartTruncate] *)

Section Truncation.

Import JsString Examples.

Lemma len_app (a b : list ascii) : len (a ++ b) = len a + len b.
Proof. unfold len. rewrite length_app. lia. Qed.

Lemma len_nonneg (s : list ascii) : 0 <= len s.
Proof. unfold len. lia. Qed.

Lemma len_firstn (n : nat) (s : list ascii) :
  len (firstn n s) = Z.min (Z.of_nat n) (len s).
Proof. unfold len. rewrite length_firstn. lia. Qed.

Lemma len_skipn (n : nat) (s : list ascii) :
  len (skipn n s) = Z.max 0 (len s - Z.of_nat n).
Proof. unfold len. rewrite length_skipn. lia. Qed.

Lemma ceil_floor_half (k : Z) : ceil_half k + floor_half k = k.
Proof.
  unfold ceil_half, floor_half.
  pose proof (Z.div_mod k 2 ltac:(lia)).
  pose proof (Z.div_mod (k + 1) 2 ltac:(lia)).
  pose proof (Z.mod_pos_bound k 2 ltac:(lia)).
  pose proof (Z.mod_pos_bound (k + 1) 2 ltac:(lia)).
  lia.
Qed.

Lemma half_bounds (k : Z) :
  2 <= k -> 1 <= floor_half k /\ 1 <= ceil_half k.
Proof.
  unfold ceil_half, floor_half. intros H.
  pose proof (Z.div_mod k 2 ltac:(lia)).
  pose proof (Z.div_mod (k + 1) 2 ltac:(lia)).
  pose proof (Z.mod_pos_bound k 2 ltac:(lia)).
  pose proof (Z.mod_pos_bound (k + 1) 2 ltac:(lia)).
  lia.
Qed.

(** A head slice [s.slice(0, n)] with [n >= 0] is the first [n] code
    units, a tail slice [s.slice(-n)] with [n > 0] the last [n]. *)
Lemma slice_head (s : list ascii) (n : Z) :
  0 <= n -> slice s 0 n = firstn (Z.to_nat n) s.
Proof.
  intros H. unfold slice, rel_index.
  pose proof (len_nonneg s).
  destruct (0 <? 0) eqn:E0; [lia|].
  destruct (n <? 0) eqn:En; [lia|].
  replace (Z.min 0 (len s)) with 0 by lia.
  rewrite Z.sub_0_r. change (Z.to_nat 0) with 0%nat. cbn [skipn].
  destruct (Z.le_ge_cases n (len s)) as [Hle|Hge].
  - rewrite Z.min_l by lia. reflexivity.
  - rewrite Z.min_r by lia. unfold len in *.
    rewrite !firstn_all2 by lia. reflexivity.
Qed.

Lemma slice_tail (s : list ascii) (n : Z) :
  0 < n -> slice_from s (- n) = skipn (Z.to_nat (len s - n)) s.
Proof.
  intros H. unfold slice_from, rel_index.
  destruct (- n <? 0) eqn:En; [|lia].
  f_equal. lia.
Qed.

Lemma len_slice_head (s : list ascii) (n : Z) :
  0 <= n -> len (slice s 0 n) = Z.min n (len s).
Proof. intros H. rewrite slice_head, len_firstn by lia. lia. Qed.

Lemma len_slice_tail (s : list ascii) (n : Z) :
  0 < n -> len (slice_from s (- n)) = Z.min n (len s).
Proof.
  intros H. rewrite slice_tail, len_skipn by lia.
  pose proof (len_nonneg s). lia.
Qed.

Lemma lastIndexOf_aux_range (c : ascii) (s : list ascii) (i acc : Z) :
  let r := lastIndexOf_aux c s i acc in
  r = acc \/ i <= r < i + len s.
Proof.
  revert i acc. induction s as [|x s IH]; intros i acc; cbn [lastIndexOf_aux].
  - left. reflexivity.
  - cbv zeta in *.
    specialize (IH (i + 1) (if Ascii.eqb x c then i else acc)).
    unfold len in *. cbn [List.length]. 
    destruct IH as [IH|IH].
    + rewrite IH. destruct (Ascii.eqb x c); [right; lia | left; reflexivity].
    + right. lia.
Qed.

Lemma lastIndexOf_range (c : ascii) (s : list ascii) :
  lastIndexOf c s = -1 \/ 0 <= lastIndexOf c s < len s.
Proof. apply (lastIndexOf_aux_range c s 0 (-1)). Qed.

(** The base name followed by the extension is the file name. *)
Lemma base_ext (filename : list ascii) :
  base_of filename ++ ext_of filename = filename.
Proof.
  unfold base_of, ext_of.
  destruct (lastIndexOf_range "."%char filename) as [H|H].
  - rewrite H. cbn. apply app_nil_r.
  - destruct (lastIndexOf "."%char filename =? -1) eqn:E; [lia|]. cbn [negb].
    rewrite slice_head by lia.
    unfold slice_from, rel_index.
    destruct (lastIndexOf "."%char filename <? 0) eqn:E'; [lia|].
    rewrite Z.min_l by lia. apply firstn_skipn.
Qed.

Lemma smartTruncate_short (filename : list ascii) (maxLen : Z) :
  len filename <= maxLen -> smartTruncate filename maxLen = filename.
Proof.
  intros H. unfold smartTruncate.
  destruct (len filename <=? maxLen) eqn:E; [|lia].
  rewrite orb_true_r. reflexivity.
Qed.

Lemma smartTruncate_long (filename : list ascii) (maxLen : Z) :
  filename <> [] -> maxLen < len filename ->
  smartTruncate filename maxLen
  = slice (base_of filename) 0 (ceil_half (maxLen - len (ext_of filename) - 3))
    ++ ellipsis
    ++ slice_from (base_of filename)
         (- floor_half (maxLen - len (ext_of filename) - 3))
    ++ ext_of filename.
Proof.
  intros Hne H. unfold smartTruncate.
  destruct filename as [|c r]; [contradiction|]. cbn [is_empty orb].
  destruct (len (c :: r) <=? maxLen) eqn:E; [lia|]. reflexivity.
Qed.

Lemma smartTruncate_fits (filename : list ascii) (maxLen : Z) :
  2 <= maxLen - len (ext_of filename) - 3 ->
  len (smartTruncate filename maxLen) <= maxLen.
Proof.
  intros Hk.
  destruct (Z.le_gt_cases (len filename) maxLen) as [Hs|Hl].
  - rewrite smartTruncate_short by assumption. assumption.
  - assert (filename <> []) as Hne.
    { intros ->. pose proof (len_nonneg (ext_of [])).
      unfold len in Hl; cbn in Hl. lia. }
    rewrite smartTruncate_long by assumption.
    destruct (half_bounds _ Hk) as [Hf Hc].
    rewrite !len_app, len_slice_head, len_slice_tail by lia.
    pose proof (ceil_floor_half (maxLen - len (ext_of filename) - 3)).
    change (len ellipsis) with 3. lia.
Qed.

Lemma smartTruncate_ends_with_ext (filename : list ascii) (maxLen : Z) :
  exists front, smartTruncate filename maxLen = front ++ ext_of filename.
Proof.
  destruct (Z.le_gt_cases (len filename) maxLen) as [Hs|Hl].
  - exists (base_of filename).
    rewrite smartTruncate_short by assumption. symmetry. apply base_ext.
  - destruct filename as [|c r].
    + exists []. reflexivity.
    + rewrite smartTruncate_long by (assumption || discriminate).
      eexists. rewrite !app_assoc. reflexivity.
Qed.

(** Where the output fits, truncating it again changes nothing. *)
Lemma smartTruncate_idempotent_when_fits (filename : list ascii) (maxLen : Z) :
  2 <= maxLen - len (ext_of filename) - 3 ->
  smartTruncate (smartTruncate filename maxLen) maxLen
  = smartTruncate filename maxLen.
Proof.
  intros Hk. apply smartTruncate_short, smartTruncate_fits, Hk.
Qed.

(** C3, as amended.  The file name is its base name followed by its
    extension (the text from the last dot, nothing when there is no dot).
    [smartTruncate] returns a name of at most [maxLen] characters unchanged;
    a longer one it turns into a head slice of the base name, the literal
    [...], a tail slice of the base name and the extension.  The output
    always ends with the extension.  When [maxLen] leaves room for at least
    two characters of the base name beside the three dots and the
    extension, the head slice is the first [ceil(keep / 2)] characters of
    the base name, the tail slice its last [floor(keep / 2)], and the output
    is at most [maxLen] long. *)
Theorem smartTruncate_keeps_extension (filename : list ascii) (maxLen : Z) :
  let ext := ext_of filename in
  let base := base_of filename in
  let keep := maxLen - len ext - 3 in
  base ++ ext = filename
  /\ (len filename <= maxLen -> smartTruncate filename maxLen = filename)
  /\ (filename <> [] -> maxLen < len filename ->
      smartTruncate filename maxLen
      = slice base 0 (ceil_half keep) ++ ellipsis
        ++ slice_from base (- floor_half keep) ++ ext)
  /\ (exists front, smartTruncate filename maxLen = front ++ ext)
  /\ (2 <= keep ->
      slice base 0 (ceil_half keep) = firstn (Z.to_nat (ceil_half keep)) base
      /\ slice_from base (- floor_half keep)
         = skipn (Z.to_nat (len base - floor_half keep)) base
      /\ len (smartTruncate filename maxLen) <= maxLen).
Proof.
  cbv zeta. split; [apply base_ext|].
  split; [apply smartTruncate_short|].
  split; [apply smartTruncate_long|].
  split; [apply smartTruncate_ends_with_ext|].
  intros Hk. destruct (half_bounds _ Hk) as [Hf Hc].
  split; [apply slice_head; lia|].
  split; [apply slice_tail; lia|].
  apply smartTruncate_fits, Hk.
Qed.

Lemma smartTruncate_keeps_extension_witness :
  smartTruncate (list_ascii_of_string "abcdefghijklmnopqrstuvwxyz.txt") 13
  = list_ascii_of_string "abc...xyz.txt"
  /\ len (smartTruncate (list_ascii_of_string "abcdefghijklmnopqrstuvwxyz.txt") 13)
     <= 13.
Proof.
  destruct (smartTruncate_keeps_extension
              (list_ascii_of_string "abcdefghijklmnopqrstuvwxyz.txt") 13)
    as [_ [_ [H3 [_ H5]]]].
  split.
  - rewrite H3; [reflexivity | discriminate | vm_compute; reflexivity].
  - apply H5. vm_compute. discriminate.
Defined.

(** C3 fails as stated: for [order_dated], 121 characters long, the
    extension alone has 113 characters; with [maxLen = 100] the output is
    the three dots and the extension, 116 characters. *)
Lemma smartTruncate_exceeds_maxLen_counterexample :
  len order_dated = 121
  /\ len (ext_of order_dated) = 113
  /\ smartTruncate order_dated 100 = ellipsis ++ ext_of order_dated
  /\ ~ len (smartTruncate order_dated 100) <= 100.
Proof.
  assert (E : len (smartTruncate order_dated 100) = 116)
    by (vm_compute; reflexivity).
  repeat split; try (vm_compute; reflexivity).
  rewrite E. lia.
Qed.

(** C8 at a failing input.  For [order_in_crl_mc], 125 characters long with
    an extension of 96, [keep] is 1 and [endLen] is 0, so that
    [base.slice(-endLen)] is the whole base name: the output has 129
    characters, and truncating it again gives 133. *)
Theorem smartTruncate_not_idempotent_at_order_in_crl_mc :
  len order_in_crl_mc = 125
  /\ smartTruncate order_in_crl_mc 100
     = list_ascii_of_string "O..." ++ order_in_crl_mc
  /\ smartTruncate (smartTruncate order_in_crl_mc 100) 100
     = list_ascii_of_string "O...O..." ++ order_in_crl_mc
  /\ smartTruncate (smartTruncate order_in_crl_mc 100) 100
     <> smartTruncate order_in_crl_mc 100.
Proof.
  repeat split; try (vm_compute; reflexivity).
  vm_compute. discriminate.
Qed.

End Truncation.

(** ** The test [!resp.ok || !data.ok] *)

Section ResponseTest.

Import Http.

Lemma ensure_ok_success (r : response) :
  is_failure r = false ->
  exists fields,
    body r = Some (Json.Obj fields)
    /\ Json.truthy_opt (Json.lookup "ok" fields) = true
    /\ ensure_ok r = Js.Ok (Json.Obj fields).
Proof.
  unfold is_failure, lacks_truthy_ok, ensure_ok, json_or.
  intros H. apply orb_false_elim in H as [Hok Hbody].
  apply negb_false_iff in Hok.
  destruct (body r) as [[| | | | |fields]|]; try discriminate.
  apply negb_false_iff in Hbody.
  exists fields. rewrite Hok. cbn. rewrite Hbody. cbn. auto.
Qed.

Lemma ensure_ok_failure (r : response) :
  is_failure r = true -> exists e, ensure_ok r = Js.Throw e.
Proof.
  unfold is_failure, lacks_truthy_ok, ensure_ok, json_or. intros H.
  destruct (ok r); cbn in *;
    destruct (body r) as [[| | | | |fields]|]; cbn in *;
    try rewrite H; cbn; eauto.
Qed.


Lemma ensure_status_failure (r : response) :
  ok r = false -> exists e, ensure_status r = Js.Throw e.
Proof.
  unfold ensure_status, json_or. intros H. rewrite H. cbn.
  destruct (body r) as [[| | | | |fields]|]; cbn; eauto.
Qed.

Lemma ensure_status_failure_message (r : response) (fields : list (string * Json.value)) :
  ok r = false ->
  Http.object_body r = Some fields ->
  ensure_status r
  = Js.Throw (Js.ErrorObj (text_or (Json.lookup "error" fields) (http_status_text r))).
Proof.
  unfold ensure_status, json_or, object_body. intros H Hb. rewrite H. cbn.
  destruct (body r) as [[| | | | |fields']|]; cbn in *;
    try discriminate; injection Hb as <-; reflexivity.
Qed.

End ResponseTest.

(** ** The notes modal *)

Section NoteEditor.

Import Notes.

Ltac modal :=
  cbv [step shown _openNotesWith openModal on_edit_click on_input
       handleCancel on_close_click finish commit closeModal show_modal
       setState updateDirtyState set_contents set_intent set_context
       save_enabled dirty is_edit is_create
       dataset_state dataset_intent originalContent rawContent noteContext
       editor_value editor_readOnly editor_shown save_disabled save_visible
       cancel_visible edit_visible modal_hidden fst snd negb andb orb]
    in *.

Ltac split_modal :=
  repeat match goal with
    | |- context [if ?b then _ else _] => destruct b eqn:?
    | H : context [if ?b then _ else _] |- _ => destruct b eqn:?
    | |- context [match ?x with Some _ => _ | None => _ end] => destruct x eqn:?
    | |- context [match ?x with View => _ | Edit => _ end] => destruct x eqn:?
    | |- context [match ?x with Update => _ | Create => _ end] => destruct x eqn:?
    end.

Ltac use_implications :=
  repeat match goal with
    | H : ?a = ?a -> _ |- _ => specialize (H eq_refl)
    | H : ?P -> _, H' : ?P |- _ => specialize (H H')
    end.

Ltac close_modal_goal :=
  try reflexivity; try discriminate; try congruence;
  try (intros; use_implications; congruence).

Lemma init_consistent (editorText : string) : consistent (init editorText).
Proof. split; reflexivity || discriminate. Qed.

Lemma open_consistent (st : state) (content : string) (i : intent) (ctx : NoteContext) :
  consistent (step st (OpenNote content i ctx)).
Proof.
  destruct st, i; split; modal; close_modal_goal;
    rewrite String.eqb_refl; reflexivity.
Qed.

Lemma commit_hidden_consistent (st : state) :
  consistent st -> noteContext st = None -> consistent (commit st).
Proof.
  intros [HI HJ HK] Hc. specialize (HJ (HK Hc)). pose proof (HK Hc) as Hh.
  destruct st; split; modal; subst; split_modal; close_modal_goal.
Qed.

Lemma finish_consistent (st : state) : consistent (finish (commit st)).
Proof.
  destruct st; split; modal; split_modal; close_modal_goal.
Qed.

Lemma step_consistent (st : state) (e : event) :
  consistent st -> consistent (step st e).
Proof.
  intros Hc. destruct e.
  - apply open_consistent.
  - destruct Hc as [HI HJ HK].
    destruct st; split; modal; split_modal; close_modal_goal.
  - destruct Hc as [HI HJ HK].
    destruct st; split; modal; split_modal; close_modal_goal.
  - cbn [step]. unfold saveCurrent_resume.
    destruct (checked f) as [data|err]; [|exact Hc].
    destruct p.
    + destruct (noteContext (commit st)) eqn:Hctx; cbn [fst].
      * apply finish_consistent.
      * apply commit_hidden_consistent; [exact Hc|].
        destruct st; exact Hctx.
    + cbn [fst]. apply finish_consistent.
  - destruct Hc as [HI HJ HK].
    destruct st; split; modal; split_modal; close_modal_goal.
  - destruct Hc as [HI HJ HK].
    destruct st; split; modal; split_modal; close_modal_goal.
Qed.

Lemma run_consistent (st : state) (evs : list event) :
  consistent st -> consistent (run st evs).
Proof.
  revert st. induction evs as [|e evs IH]; intros st Hc; [exact Hc|].
  apply IH, step_consistent, Hc.
Qed.

Lemma dirty_iff (st : state) :
  dirty st = true
  <-> dataset_state st = Some Edit /\ editor_value st <> originalContent st.
Proof.
  unfold dirty, is_edit.
  destruct (dataset_state st) as [[|]|]; cbn [andb negb];
    try (split; [discriminate | intros [H _]; discriminate]).
  destruct (String.eqb_spec (editor_value st) (originalContent st)) as [E|E];
    cbn [negb]; split; try discriminate; tauto.
Qed.

Lemma consistent_save_rule (st : state) : consistent st -> save_rule st.
Proof.
  intros [HI _ _]. unfold save_rule. rewrite HI. apply dirty_iff.
Qed.

Lemma updateDirtyState_save_rule (st : state) : save_rule (updateDirtyState st).
Proof.
  unfold save_rule. rewrite <- dirty_iff.
  destruct st as [[[|]|] ? ? ? ? ? ? ? ? ? ? ? ?]; modal; reflexivity.
Qed.

Lemma saved_disabled (p : pending) (r : Http.response) (st : state) :
  Http.is_failure r = false ->
  (p = CaseLawSave -> noteContext st <> None) ->
  save_enabled (fst (saveCurrent_resume p (Http.Responded r) st)) = false.
Proof.
  intros Hr Hctx. unfold saveCurrent_resume, checked.
  destruct (ensure_ok_success r Hr) as [fields [_ [_ ->]]].
  destruct p.
  - destruct (noteContext (commit st)) eqn:E.
    + destruct st; reflexivity.
    + exfalso. apply Hctx; [reflexivity|]. destruct st; exact E.
  - destruct st; reflexivity.
Qed.

(** C4.  From the moment the modal is opened (and already in the state the
    page starts in), after every sequence of events - openings, clicks on
    Edit, Cancel and Close, input, responses to saves arriving at any time -
    the save button is enabled if and only if the state is [edit] and the
    text in the editor differs from [originalContent].  The [input] listener
    and every [setState] establish this by themselves, whatever the state
    before, and a successful save leaves the button disabled. *)
Theorem save_enabled_iff_edit_and_dirty
    (st0 : state) (content : string) (i : intent) (ctx : NoteContext)
    (editorText : string) (evs : list event) :
  let opened := run (step st0 (OpenNote content i ctx)) evs in
  save_rule opened
  /\ save_rule (run (init editorText) evs)
  /\ (forall v, save_rule (on_input v opened)
               /\ editor_value (on_input v opened) = v
               /\ originalContent (on_input v opened) = originalContent opened)
  /\ (forall s, save_rule (setState s opened))
  /\ (forall p r,
        Http.is_failure r = false ->
        (p = CaseLawSave -> noteContext opened <> None) ->
        save_enabled (fst (saveCurrent_resume p (Http.Responded r) opened)) = false).
Proof.
  cbv zeta. split; [|split; [|split; [|split]]].
  - apply consistent_save_rule, run_consistent, open_consistent.
  - apply consistent_save_rule, run_consistent, init_consistent.
  - intros v. split; [apply updateDirtyState_save_rule|].
    split; reflexivity.
  - intros s. apply updateDirtyState_save_rule.
  - intros p r. apply saved_disabled.
Qed.

Lemma save_enabled_iff_edit_and_dirty_witness :
  let r := {| Http.status := 200;
              Http.body := Some (Json.Obj [("ok", Json.Bool true)]) |} in
  let st := run (step (init "") (OpenNote "a" Update (CaseContext "2024" "Mar" "Doe v. Roe")))
              [EditClick; Input "ab"] in
  save_enabled st = true
  /\ save_enabled (fst (saveCurrent_resume (CaseSave Update) (Http.Responded r) st))
     = false.
Proof.
  cbv zeta.
  destruct (save_enabled_iff_edit_and_dirty (init "") "a" Update
              (CaseContext "2024" "Mar" "Doe v. Roe") "" [EditClick; Input "ab"])
    as [H1 [_ [_ [_ H5]]]].
  split.
  - apply H1. split; [vm_compute; reflexivity | vm_compute; discriminate].
  - apply H5; [vm_compute; reflexivity | discriminate].
Defined.

Lemma checked_failed (f : Http.fetched) :
  Http.failed f = true -> exists e, checked f = Js.Throw e.
Proof.
  destruct f as [e|r]; cbn [Http.failed checked]; [eauto|].
  apply ensure_ok_failure.
Qed.






(** C5.  The save whose answer finds the modal closed.  A note of a
    case-law entry is open and the user clicks Save: the text of the editor
    is sent to the case-law endpoint.  The user closes the modal before the
    answer arrives, and the backend accepts the save.  Then the handler
    alerts [Notes saved!] and, reading [onSaved] of the context the close
    has cleared, [Save failed: ...]; [intent] stays what it was; and what
    becomes [originalContent] is not the text that was sent and saved but
    what the close put in the editor, the view text of the content the
    modal was opened with.  This last holds of the save of a case note as
    well. *)
Theorem save_answered_after_close
    (domYear domMonth domCase : string) (st : state)
    (v : Json.value) (card : nat) (r : Http.response) :
  noteContext st = Some (CaseLawContext (Some v) card) ->
  Json.truthy v = true ->
  modal_hidden st = false ->
  Http.is_failure r = false ->
  let closed := step st CloseClick in
  let restored := normalize_newlines (asViewText (originalContent st)) in
  saveCurrent_request domYear domMonth domCase st
  = Sent CaseLawSave (PostCaseLawNote v (editor_value st))
  /\ snd (saveCurrent_resume CaseLawSave (Http.Responded r) closed)
     = [Alert "Notes saved!";
        Alert ("Save failed: " ++ Js.message_or_self (Js.null_read "onSaved"))]
  /\ dataset_intent (fst (saveCurrent_resume CaseLawSave (Http.Responded r) closed))
     = dataset_intent st
  /\ (forall p,
        originalContent (fst (saveCurrent_resume p (Http.Responded r) closed))
        = restored
        /\ rawContent (fst (saveCurrent_resume p (Http.Responded r) closed))
           = restored).
Proof.
  intros Hc Hv Hh Hr. cbv zeta.
  split; [unfold saveCurrent_request; rewrite Hc, Hv; reflexivity|].
  destruct (ensure_ok_success r Hr) as [fields [_ [_ E]]].
  unfold step, shown. rewrite Hh. cbn [negb andb].
  unfold saveCurrent_resume, checked. rewrite E.
  destruct st; cbn in *.
  split; [reflexivity|]. split; [reflexivity|].
  intros p. destruct p; split; reflexivity.
Qed.

Lemma save_answered_after_close_witness :
  let ok := {| Http.status := 200;
               Http.body := Some (Json.Obj [("ok", Json.Bool true)]) |} in
  let entry := CaseLawContext (Some (Json.Num 7)) 0 in
  let st := run (step (init "") (OpenNote "" Create entry)) [Input "Bail granted"] in
  let closed := step st CloseClick in
  saveCurrent_request "" "" "" st
  = Sent CaseLawSave (PostCaseLawNote (Json.Num 7) "Bail granted")
  /\ saveCurrent_resume CaseLawSave (Http.Responded ok) closed
     = (closed,
        [Alert "Notes saved!";
         Alert "Save failed: Cannot read properties of null (reading 'onSaved')"])
  /\ dataset_intent closed = Some Create
  /\ originalContent closed = "".
Proof.
  cbv zeta.
  set (st := run (step (init "") (OpenNote "" Create
                                    (CaseLawContext (Some (Json.Num 7)) 0)))
               [Input "Bail granted"]).
  destruct (save_answered_after_close "" "" "" st (Json.Num 7) 0
              {| Http.status := 200;
                 Http.body := Some (Json.Obj [("ok", Json.Bool true)]) |})
    as [H1 [H2 [H3 H4]]]; try (vm_compute; reflexivity).
  split; [refine (eq_trans H1 _); vm_compute; reflexivity|].
  split; [vm_compute; reflexivity|].
  split; vm_compute; reflexivity.
Defined.

End NoteEditor.

(** ** The results surface and the directory overlay *)

Section ResultsSurface.

Import Results.

Variable maxScroll : list row -> Z.

Lemma clone_record_id (item : SearchResultRecord) : clone_record item = item.
Proof. destruct item. reflexivity. Qed.

Lemma map_clone_record_id (l : list SearchResultRecord) :
  map clone_record l = l.
Proof.
  induction l as [|x l IH]; [reflexivity|].
  cbn [map]. rewrite clone_record_id, IH. reflexivity.
Qed.

Lemma cloneResults_id (lst : option (list SearchResultRecord)) :
  cloneResults lst = lst.
Proof.
  destruct lst as [l|]; [|reflexivity]. cbn [cloneResults].
  rewrite map_clone_record_id. reflexivity.
Qed.


Lemma showDirLevel_resume_inactive (relPath : string) (f : Http.fetched) (st : state) :
  active (dirSearchState st) = false ->
  showDirLevel_resume maxScroll relPath f st = st.
Proof.
  intros H. unfold showDirLevel_resume, showDirLevel_catch.
  destruct (results st); [|reflexivity].
  destruct f; rewrite H; reflexivity.
Qed.

Lemma showDirLevel_request_active (relPath : string) (st st1 : state) (asked : string) :
  showDirLevel_request relPath st = (st1, Some asked) ->
  active (dirSearchState st) = true
  /\ active (dirSearchState st1) = true
  /\ currentPath (dirSearchState st1) = relPath
  /\ asked = relPath.
Proof.
  unfold showDirLevel_request.
  destruct (active (dirSearchState st)) eqn:Ha; cbn [negb]; [|discriminate].
  destruct (results st); [|discriminate].
  intros H. injection H as <- <-. cbn. auto.
Qed.

(** C6.  A response (or an error) of [showDirLevel] that arrives while the
    [active] flag is cleared changes nothing: neither the rows and the
    scroll offset of the results surface nor anything else.  This holds
    although the flag was set when the request was made: whatever happens
    between the request and its answer, if it leaves the flag cleared (a
    click on Exit, a new rendering of search results), the answer is
    dropped. *)
Theorem stale_directory_response_is_discarded
    (relPath : string) (f : Http.fetched) (st : state) :
  (active (dirSearchState st) = false ->
   showDirLevel_resume maxScroll relPath f st = st)
  /\ (forall st1 asked evs,
        showDirLevel_request relPath st = (st1, Some asked) ->
        active (dirSearchState (run maxScroll st1 evs)) = false ->
        active (dirSearchState st) = true
        /\ showDirLevel_resume maxScroll asked f (run maxScroll st1 evs)
           = run maxScroll st1 evs).
Proof.
  split.
  - apply showDirLevel_resume_inactive.
  - intros st1 asked evs Hreq Hoff.
    destruct (showDirLevel_request_active _ _ _ _ Hreq) as [Ha _].
    split; [exact Ha|]. apply showDirLevel_resume_inactive, Hoff.
Qed.


Lemma renderResults_surface (lst : option (list SearchResultRecord)) (st : state) (host : Host) :
  results st = Some host ->
  results (renderResults maxScroll lst st)
  = Some (set_rows maxScroll (rendered_rows lst) host)
  /\ lastRenderedResults (renderResults maxScroll lst st) = lst.
Proof.
  intros Hh. unfold renderResults. rewrite Hh.
  destruct (active (dirSearchState st)); cbn; rewrite cloneResults_id; auto.
Qed.






End ResultsSurface.

(** *** The requests of the results surface *)

Section ResultsRequests.

Import Results.

Variable maxScroll : list row -> Z.

Lemma on_delete_response_failure
    (target : option nat) (r : Http.response) (st : state) :
  Http.is_failure r = true ->
  exists msg,
    on_delete_response maxScroll target (Http.Responded r) st
    = (st, [Alert ("Delete failed: " ++ msg)])
    /\ (forall fields,
          Http.object_body r = Some fields ->
          msg = Http.text_or (Json.lookup "msg" fields) (Http.http_status_text r)).
Proof.
  unfold Http.is_failure, Http.lacks_truthy_ok, on_delete_response,
    delete_failure_message, Http.json_or, Http.object_body.
  intros H.
  destruct (Http.ok r); cbn [negb orb] in *;
    destruct (Http.body r) as [[| | | | |fields]|]; cbn in *;
    try rewrite H; cbn;
    eexists; (split; [reflexivity|]);
    intros fields' Hf; try discriminate; injection Hf as <-; reflexivity.
Qed.

Lemma on_delete_response_rejected (target : option nat) (e : Js.exn) (st : state) :
  on_delete_response maxScroll target (Http.Rejected e) st
  = (st, [Alert ("Delete failed: " ++ Js.exn_to_string e)]).
Proof. reflexivity. Qed.


(** Neither search reads [resp.status] or [data.ok]: what is rendered
    depends on the [results] member of the body alone. *)
Lemma on_search_response_ignores_status (s s' : Z) (b : option Json.value) (st : state) :
  on_search_response maxScroll (Http.Responded (Http.mkResponse s b)) st
  = on_search_response maxScroll (Http.Responded (Http.mkResponse s' b)) st.
Proof. reflexivity. Qed.

Lemma on_search_response_renders
    (r : Http.response) (fields : list (string * Json.value))
    (items : list Json.value) (l : list SearchResultRecord) (st : state) :
  Http.body r = Some (Json.Obj fields) ->
  Json.lookup "results" fields = Some (Json.Arr items) ->
  records_of_json items = Some l ->
  on_search_response maxScroll (Http.Responded r) st
  = renderResults maxScroll (Some l) st.
Proof.
  intros H Hl Hr. unfold on_search_response, Http.json_or. rewrite H.
  cbn [Js.prop]. rewrite Hl. cbn [results_argument]. rewrite Hr. reflexivity.
Qed.

Lemma showDirLevel_resume_ignores_status
    (relPath : string) (s s' : Z) (b : option Json.value) (st : state) :
  showDirLevel_resume maxScroll relPath (Http.Responded (Http.mkResponse s b)) st
  = showDirLevel_resume maxScroll relPath (Http.Responded (Http.mkResponse s' b)) st.
Proof. reflexivity. Qed.

End ResultsRequests.

(** ** The note button of the case lookup *)

Section NoteButtonFacts.

Import CaseLookup.

Variable NOTE_TEMPLATE_DEFAULT : string.

Local Abbreviation probe := (getNoteState_resume NOTE_TEMPLATE_DEFAULT).












End NoteButtonFacts.


(** ** Failures of the backend, request by request *)

Section BackendFailures.

Variable maxScroll : list Results.row -> Z.
Variable NOTE_TEMPLATE_DEFAULT : string.

Lemma ensure_ok_failure_error (r : Http.response) :
  Http.is_failure r = true ->
  Http.ensure_ok r = Js.Throw (Surfaced.error_of "msg" r).
Proof.
  unfold Http.is_failure, Http.lacks_truthy_ok, Http.ensure_ok, Http.json_or,
    Surfaced.error_of.
  intros H.
  destruct (Http.ok r); cbn in *;
    destruct (Http.body r) as [[| | | | |fields]|]; cbn in *;
    try rewrite H; reflexivity.
Qed.

Lemma ensure_status_failure_error (r : Http.response) :
  Http.ok r = false ->
  Http.ensure_status r = Js.Throw (Surfaced.error_of "error" r).
Proof.
  unfold Http.ensure_status, Http.json_or, Surfaced.error_of.
  intros H. rewrite H. cbn.
  destruct (Http.body r) as [[| | | | |fields]|]; reflexivity.
Qed.

Lemma on_delete_response_failure_text
    (target : option nat) (r : Http.response) (st : Results.state) :
  Http.is_failure r = true ->
  Results.on_delete_response maxScroll target (Http.Responded r) st
  = (st, [Alert ("Delete failed: " ++ Surfaced.delete_text r)]).
Proof.
  unfold Http.is_failure, Http.lacks_truthy_ok, Results.on_delete_response,
    Results.delete_failure_message, Http.json_or, Surfaced.delete_text.
  intros H.
  destruct (Http.ok r); cbn [negb orb] in *;
    destruct (Http.body r) as [[| | | | |fields]|]; cbn in *;
    try rewrite H; reflexivity.
Qed.

Lemma note_click_resume_failure (id : option Json.value) (card : nat) (r : Http.response) :
  Http.is_failure r = true ->
  CaseLaw.note_click_resume id card (Http.Responded r)
  = [Alert ("Unable to load note: "
            ++ Js.message_or_self (Surfaced.error_of "msg" r))].
Proof.
  intros Hr. unfold CaseLaw.note_click_resume, Notes.checked.
  rewrite (ensure_ok_failure_error r Hr). reflexivity.
Qed.

Lemma saveCurrent_resume_failure (p : Notes.pending) (r : Http.response) (st : Notes.state) :
  Http.is_failure r = true ->
  Notes.saveCurrent_resume p (Http.Responded r) st
  = (st, [Alert ("Save failed: " ++ Js.message_or_self (Surfaced.error_of "msg" r))]).
Proof.
  intros Hr. unfold Notes.saveCurrent_resume, Notes.checked.
  rewrite (ensure_ok_failure_error r Hr). reflexivity.
Qed.

Lemma searches_with_status_test_failure (r : Http.response) :
  Http.ok r = false ->
  CaseLookup.performNameSearch_resume (Http.Responded r)
  = CaseLookup.NameText
      ("Search failed: " ++ Js.message_or_self (Surfaced.error_of "error" r))
  /\ (forall st,
        CaseLaw.performSearch_resume (Http.Responded r) st
        = (st, [Alert ("Search failed: "
                       ++ Js.message_or_self (Surfaced.error_of "error" r))])).
Proof.
  intros Hr.
  unfold CaseLookup.performNameSearch_resume, CaseLaw.performSearch_resume.
  rewrite (ensure_status_failure_error r Hr). cbn [Js.bind].
  split; reflexivity.
Qed.

Lemma searches_with_status_test_pass (r : Http.response) (fields : list (string * Json.value)) :
  Http.ok r = true ->
  Http.object_body r = Some fields ->
  CaseLookup.performNameSearch_resume (Http.Responded r)
  = CaseLookup.renderNameResults (Json.lookup "cases" fields)
  /\ (forall st,
        CaseLaw.view (fst (CaseLaw.performSearch_resume (Http.Responded r) st))
        = fst (CaseLaw.renderResults (Json.lookup "results" fields))
        /\ snd (CaseLaw.performSearch_resume (Http.Responded r) st)
           = match snd (CaseLaw.renderResults (Json.lookup "results" fields)) with
             | Some e => [Alert ("Search failed: " ++ Js.message_or_self e)]
             | None => []
             end).
Proof.
  intros Hr Hb.
  assert (Hd : Http.json_or (Json.Obj []) r = Json.Obj fields).
  { unfold Http.object_body in Hb. unfold Http.json_or.
    destruct (Http.body r) as [[| | | | |fields']|]; try discriminate;
      injection Hb as <-; reflexivity. }
  unfold CaseLookup.performNameSearch_resume, CaseLaw.performSearch_resume,
    Http.ensure_status.
  rewrite Hr, Hd. cbn [negb Js.bind Js.prop]. split; [reflexivity|].
  intros st.
  destruct (snd (CaseLaw.renderResults (Json.lookup "results" fields)));
    [split; reflexivity|].
  destruct (Json.lookup "filters" fields) as [fl|]; cbn;
    [destruct (Json.truthy fl)|]; split; reflexivity.
Qed.

Lemma searches_with_status_test_null (r : Http.response) :
  Http.ok r = true ->
  Http.body r = Some Json.Null ->
  CaseLookup.performNameSearch_resume (Http.Responded r)
  = CaseLookup.NameText
      ("Search failed: " ++ Js.message_or_self (Js.null_read "cases"))
  /\ (forall st,
        CaseLaw.performSearch_resume (Http.Responded r) st
        = (st, [Alert ("Search failed: "
                       ++ Js.message_or_self (Js.null_read "results"))])).
Proof.
  intros Hr Hb.
  unfold CaseLookup.performNameSearch_resume, CaseLaw.performSearch_resume,
    Http.ensure_status, Http.json_or.
  rewrite Hr, Hb. split; reflexivity.
Qed.

Lemma searches_with_status_test_other (r : Http.response) :
  Http.ok r = true ->
  Http.object_body r = None ->
  Http.body r <> Some Json.Null ->
  CaseLookup.performNameSearch_resume (Http.Responded r)
  = CaseLookup.NameText "No cases found."
  /\ (forall st,
        CaseLaw.performSearch_resume (Http.Responded r) st
        = ({| CaseLaw.view := CaseLaw.ViewText "No case law found.";
              CaseLaw.yearOptions := CaseLaw.yearOptions st |}, [])).
Proof.
  intros Hr Hb Hn.
  unfold CaseLookup.performNameSearch_resume, CaseLaw.performSearch_resume,
    Http.ensure_status, Http.json_or.
  unfold Http.object_body in Hb. rewrite Hr.
  destruct (Http.body r) as [[| | | | |fields]|]; try discriminate;
    try (exfalso; apply Hn; reflexivity); split; reflexivity.
Qed.

(** C1, as amended.  Let the answer have a status outside 2xx or a body
    without a truthy [ok].  Then: the delete of a file alerts
    [Delete failed: ...] and removes no row; a save of a note (either
    backend) alerts [Save failed: ...] and leaves the modal as it is; the
    fetch of a case-law note alerts [Unable to load note: ...] and opens
    nothing.  The text is the server's [msg], or [HTTP <status>] when there
    is none, for a body that is an object or does not parse;
    [HTTP <status>] for a body that is another value; and for the body
    [null] the message of the [TypeError] its read throws (for the delete
    of a file outside 2xx, [HTTP <status>]).  The probe of a case note
    reports that no note exists, with empty content, and shows no message.
    The case-name search and the case-law search test the status only:
    outside 2xx they show [Search failed: ...] with the server's [error] or
    [HTTP <status>] and render nothing; inside 2xx they render the [cases]
    and [results] of the body, whatever its [ok] - up to the first item
    that is [null], where the case-law search also alerts
    [Search failed: ...] - and show [Search failed: ...] for the body
    [null].  The basic and advanced search and the directory listing test
    neither the status nor [ok]: they do what they would for status 200,
    and a body whose [results] are records is rendered. *)
Theorem backend_failure_handling (r : Http.response) :
  Http.is_failure r = true ->
  (forall target st,
     Results.on_delete_response maxScroll target (Http.Responded r) st
     = (st, [Alert ("Delete failed: " ++ Surfaced.delete_text r)]))
  /\ (forall p st,
        Notes.saveCurrent_resume p (Http.Responded r) st
        = (st, [Alert ("Save failed: "
                       ++ Js.message_or_self (Surfaced.error_of "msg" r))]))
  /\ (forall id card,
        CaseLaw.note_click_resume id card (Http.Responded r)
        = [Alert ("Unable to load note: "
                  ++ Js.message_or_self (Surfaced.error_of "msg" r))])
  /\ CaseLookup.getNoteState_resume NOTE_TEMPLATE_DEFAULT (Http.Responded r)
     = ({| CaseLookup.exists_ := false; CaseLookup.content := Json.Str "";
           CaseLookup.template :=
             Json.or_value
               (CaseLookup.safe_prop (Http.body r) "template")
               (Json.Str NOTE_TEMPLATE_DEFAULT) |}, [])
  /\ (Http.ok r = false ->
      CaseLookup.performNameSearch_resume (Http.Responded r)
      = CaseLookup.NameText
          ("Search failed: " ++ Js.message_or_self (Surfaced.error_of "error" r))
      /\ (forall st,
            CaseLaw.performSearch_resume (Http.Responded r) st
            = (st, [Alert ("Search failed: "
                           ++ Js.message_or_self (Surfaced.error_of "error" r))])))
  /\ (Http.ok r = true ->
      (forall fields,
         Http.object_body r = Some fields ->
         CaseLookup.performNameSearch_resume (Http.Responded r)
         = CaseLookup.renderNameResults (Json.lookup "cases" fields)
         /\ (forall st,
               CaseLaw.view (fst (CaseLaw.performSearch_resume (Http.Responded r) st))
               = fst (CaseLaw.renderResults (Json.lookup "results" fields))
               /\ snd (CaseLaw.performSearch_resume (Http.Responded r) st)
                  = match snd (CaseLaw.renderResults (Json.lookup "results" fields)) with
                    | Some e => [Alert ("Search failed: " ++ Js.message_or_self e)]
                    | None => []
                    end))
      /\ (Http.body r = Some Json.Null ->
          CaseLookup.performNameSearch_resume (Http.Responded r)
          = CaseLookup.NameText
              ("Search failed: " ++ Js.message_or_self (Js.null_read "cases"))
          /\ (forall st,
                CaseLaw.performSearch_resume (Http.Responded r) st
                = (st, [Alert ("Search failed: "
                               ++ Js.message_or_self (Js.null_read "results"))])))
      /\ (Http.object_body r = None ->
          Http.body r <> Some Json.Null ->
          CaseLookup.performNameSearch_resume (Http.Responded r)
          = CaseLookup.NameText "No cases found."
          /\ (forall st,
                CaseLaw.performSearch_resume (Http.Responded r) st
                = ({| CaseLaw.view := CaseLaw.ViewText "No case law found.";
                      CaseLaw.yearOptions := CaseLaw.yearOptions st |}, []))))
  /\ (forall st,
        Results.on_search_response maxScroll (Http.Responded r) st
        = Results.on_search_response maxScroll
            (Http.Responded {| Http.status := 200; Http.body := Http.body r |}) st
        /\ (forall fields items l,
              Http.body r = Some (Json.Obj fields) ->
              Json.lookup "results" fields = Some (Json.Arr items) ->
              Results.records_of_json items = Some l ->
              Results.on_search_response maxScroll (Http.Responded r) st
              = Results.renderResults maxScroll (Some l) st))
  /\ (forall relPath st,
        Results.showDirLevel_resume maxScroll relPath (Http.Responded r) st
        = Results.showDirLevel_resume maxScroll relPath
            (Http.Responded {| Http.status := 200; Http.body := Http.body r |}) st).
Proof.
  intros Hr.
  split; [intros; apply on_delete_response_failure_text, Hr|].
  split; [intros; apply saveCurrent_resume_failure, Hr|].
  split; [intros; apply note_click_resume_failure, Hr|].
  split.
  { unfold Http.is_failure, Http.lacks_truthy_ok in Hr.
    unfold CaseLookup.getNoteState_resume, CaseLookup.safe_prop.
    destruct (Http.ok r); cbn [negb orb andb] in *; [|reflexivity].
    destruct (Http.body r) as [[| | | | |fields]|]; try reflexivity.
    apply negb_true_iff in Hr. rewrite Hr. reflexivity. }
  split; [apply searches_with_status_test_failure|].
  split.
  { intros Hok.
    split; [intros fields Hb; apply searches_with_status_test_pass; assumption|].
    split; [apply searches_with_status_test_null, Hok|].
    apply searches_with_status_test_other, Hok. }
  split.
  { intros st. split; [reflexivity|].
    intros fields items l Hb Hl Hrec.
    apply (on_search_response_renders maxScroll r fields items l st Hb Hl Hrec). }
  intros relPath st. reflexivity.
Qed.

End BackendFailures.

(** ** The examples *)

Section Worked.

Import Results Examples.

(** C1 fails as stated.  The answer [/search] gives on success has no [ok]
    member, so that it counts as a failure itself; and an answer with status
    500, or with status 200 and a body that says [ok: false], is rendered by
    the basic search exactly as the successful answer with the same
    [results] is: four rows, which also become the last rendered list. *)
Lemma search_renders_failure_counterexample :
  Http.is_failure search_answer = true
  /\ Http.is_failure search_answer_500 = true
  /\ Http.is_failure search_answer_not_ok = true
  /\ on_search_response layout (Http.Responded search_answer_500) search_page
     = on_search_response layout (Http.Responded search_answer) search_page
  /\ on_search_response layout (Http.Responded search_answer_not_ok) search_page
     = on_search_response layout (Http.Responded search_answer) search_page
  /\ option_map rows
       (results (on_search_response layout (Http.Responded search_answer_500)
                   search_page))
     = Some (map RecordRow [affidavit; bail_order; charge_sheet; deposition])
  /\ lastRenderedResults
       (on_search_response layout (Http.Responded search_answer_500) search_page)
     = Some [affidavit; bail_order; charge_sheet; deposition].
Proof. repeat split; vm_compute; reflexivity. Qed.

Lemma backend_failure_handling_witness :
  let r := {| Http.status := 500;
              Http.body := Some (Json.Obj [("msg", Json.Str "disk full")]) |} in
  on_delete_response layout (Some 0%nat) (Http.Responded r) searched_page
  = (searched_page, [Alert "Delete failed: disk full"])
  /\ Notes.saveCurrent_resume Notes.CaseLawSave (Http.Responded r) (Notes.init "")
     = (Notes.init "", [Alert "Save failed: disk full"])
  /\ CaseLookup.performNameSearch_resume (Http.Responded r)
     = CaseLookup.NameText "Search failed: HTTP 500".
Proof.
  cbv zeta.
  assert (Hr : Http.is_failure
                 {| Http.status := 500;
                    Http.body := Some (Json.Obj [("msg", Json.Str "disk full")]) |}
               = true) by (vm_compute; reflexivity).
  destruct (backend_failure_handling layout "template" _ Hr)
    as [Hd [Hs [_ [_ [Hn _]]]]].
  split; [|split].
  - refine (eq_trans (Hd (Some 0%nat) searched_page) _). vm_compute. reflexivity.
  - refine (eq_trans (Hs Notes.CaseLawSave (Notes.init "")) _).
    vm_compute. reflexivity.
  - destruct (Hn eq_refl) as [Hn1 _].
    refine (eq_trans Hn1 _). vm_compute. reflexivity.
Defined.

(** A listing that was asked for while browsing and arrives after the
    click on Exit changes nothing. *)
Lemma stale_directory_response_is_discarded_witness :
  let requested := fst (showDirLevel_request "2024" browsing_page) in
  let left := run layout requested [DirClick] in
  active (dirSearchState browsing_page) = true
  /\ showDirLevel_resume layout "2024" (Http.Responded listing_answer) left = left.
Proof.
  cbv zeta.
  destruct (stale_directory_response_is_discarded layout "2024"
              (Http.Responded listing_answer) browsing_page) as [_ H].
  apply (H (fst (showDirLevel_request "2024" browsing_page)) "2024" [DirClick]);
    vm_compute; reflexivity.
Defined.





End Worked.

(** * Further properties *)

(** ** [escapeHtml] *)

Section Escaping.

Import Html.

Lemma chars_app (a b : string) : chars (a ++ b) = (chars a ++ chars b)%list.
Proof. induction a as [|c a IH]; [reflexivity|]. cbn. rewrite IH. reflexivity. Qed.

Lemma string_app_assoc (a b c : string) :
  ((a ++ b) ++ c)%string = (a ++ b ++ c)%string.
Proof. induction a as [|x a IH]; [reflexivity|]. cbn. rewrite IH. reflexivity. Qed.

Lemma escapeHtml_app (a b : string) :
  escapeHtml (a ++ b)%string = (escapeHtml a ++ escapeHtml b)%string.
Proof.
  induction a as [|c a IH]; [reflexivity|].
  cbn [escapeHtml append]. rewrite IH, string_app_assoc. reflexivity.
Qed.

Lemma escape_char_no_markup (ch x : ascii) :
  In x (chars (escape_char ch)) -> is_markup x = false.
Proof.
  unfold escape_char.
  destruct (Ascii.eqb ch "&") eqn:E1; [cbn; intuition (subst; reflexivity)|].
  destruct (Ascii.eqb ch "<") eqn:E2; [cbn; intuition (subst; reflexivity)|].
  destruct (Ascii.eqb ch ">") eqn:E3; [cbn; intuition (subst; reflexivity)|].
  destruct (Ascii.eqb ch double_quote) eqn:E4; [cbn; intuition (subst; reflexivity)|].
  destruct (Ascii.eqb ch "'") eqn:E5; [cbn; intuition (subst; reflexivity)|].
  cbn. intros [<-|[]]. unfold is_markup. rewrite E2, E3, E4, E5. reflexivity.
Qed.

Lemma unescape_escape_char (ch : ascii) (t : string) :
  unescapeHtml (escape_char ch ++ escapeHtml t)%string
  = String ch (unescapeHtml (escapeHtml t)).
Proof.
  unfold escape_char.
  destruct (Ascii.eqb_spec ch "&"); [subst; reflexivity|].
  destruct (Ascii.eqb_spec ch "<"); [subst; reflexivity|].
  destruct (Ascii.eqb_spec ch ">"); [subst; reflexivity|].
  destruct (Ascii.eqb_spec ch double_quote); [subst; reflexivity|].
  destruct (Ascii.eqb_spec ch "'"); [subst; reflexivity|].
  cbn [append unescapeHtml].
  destruct (Ascii.eqb_spec ch "&"); [contradiction|]. reflexivity.
Qed.

Lemma unescape_escape (s : string) : unescapeHtml (escapeHtml s) = s.
Proof.
  induction s as [|c s IH]; [reflexivity|].
  cbn [escapeHtml]. rewrite unescape_escape_char, IH. reflexivity.
Qed.

(** X1.  The text [escapeHtml] returns contains none of the characters
    [<], [>], the double quote and the apostrophe, whatever its argument;
    escaping goes through concatenation; and the argument can be read back
    from the result, so that two different texts are never escaped to the
    same one. *)
Theorem escapeHtml_is_inert_and_faithful (a b : string) :
  (forall x, In x (chars (escapeHtml a)) -> is_markup x = false)
  /\ escapeHtml (a ++ b)%string = (escapeHtml a ++ escapeHtml b)%string
  /\ unescapeHtml (escapeHtml a) = a.
Proof.
  split; [|split; [apply escapeHtml_app | apply unescape_escape]].
  induction a as [|c a IH]; [intros x []|].
  intros x. cbn [escapeHtml]. rewrite chars_app. intros Hx.
  apply in_app_or in Hx as [Hx|Hx];
    [apply (escape_char_no_markup c x Hx) | apply IH, Hx].
Qed.

Lemma escapeHtml_is_inert_and_faithful_witness :
  is_markup "&"%char = false
  /\ escapeHtml "<b>Doe & Roe</b>" = "&lt;b&gt;Doe &amp; Roe&lt;/b&gt;".
Proof.
  destruct (escapeHtml_is_inert_and_faithful "<b>Doe & Roe</b>" "") as [H _].
  split; [apply H; vm_compute; tauto | vm_compute; reflexivity].
Defined.

End Escaping.

(** ** The view text of a note *)

Section ViewText.

Import Notes NotesView.

Lemma asViewText_other (c : ascii) (t : string) :
  Ascii.eqb c backslash = false ->
  asViewText (String c t) = String c (asViewText t).
Proof. intros H. cbn [asViewText]. rewrite H. reflexivity. Qed.

Lemma asViewText_backslash_kept (t : string) :
  not_escape_head t ->
  asViewText (String backslash t) = String backslash (asViewText t).
Proof.
  intros H. cbn [asViewText]. rewrite Ascii.eqb_refl.
  destruct t as [|d t']; [reflexivity|].
  destruct H as [Hr Hn]. rewrite Hr, Hn. reflexivity.
Qed.

(** The view text of a string that begins with a backslash begins with a
    line break or with a backslash. *)
Lemma asViewText_backslash_head (t : string) :
  not_escape_head (asViewText (String backslash t)).
Proof.
  cbn [asViewText]. rewrite Ascii.eqb_refl.
  destruct t as [|d t']; [cbn; auto|].
  destruct (Ascii.eqb d "r") eqn:Hr.
  - destruct t' as [|c2 [|d2 t'']]; try (cbn; auto).
    destruct (Ascii.eqb c2 backslash && Ascii.eqb d2 "n")%bool; cbn; auto.
  - destruct (Ascii.eqb d "n") eqn:Hn; cbn; auto.
Qed.

Lemma asViewText_length_and_fixpoint (n : nat) :
  forall s, (String.length s <= n)%nat ->
    (String.length (asViewText s) <= String.length s)%nat
    /\ asViewText (asViewText s) = asViewText s.
Proof.
  induction n as [|n IH]; intros s Hs.
  - destruct s; [cbn; auto | cbn in Hs; lia].
  - destruct s as [|c rest]; [cbn; auto|].
    cbn [String.length] in Hs.
    destruct (Ascii.eqb c backslash) eqn:Hc.
    + apply Ascii.eqb_eq in Hc. subst c.
      destruct rest as [|d rest'].
      * cbn. auto.
      * cbn [String.length] in Hs.
        destruct (Ascii.eqb d "r") eqn:Hr.
        { assert (Hnl : forall t, (String.length t <= n)%nat ->
                    asViewText (String backslash (String d rest'))
                    = String newline (asViewText t) ->
                    (String.length t < String.length (String d rest'))%nat ->
                    (String.length (asViewText (String backslash (String d rest')))
                     <= String.length (String backslash (String d rest')))%nat
                    /\ asViewText (asViewText (String backslash (String d rest')))
                       = asViewText (String backslash (String d rest'))).
          { intros t Ht -> Hlt. destruct (IH t Ht) as [H1 H2].
            rewrite asViewText_other by reflexivity. rewrite H2.
            cbn [String.length] in *. split; [lia|reflexivity]. }
          destruct rest' as [|c2 [|d2 rest'']].
          - apply (Hnl EmptyString); [cbn; lia | cbn; rewrite Hr; reflexivity | cbn; lia].
          - apply (Hnl (String c2 EmptyString));
              [cbn in *; lia | cbn [asViewText]; rewrite Ascii.eqb_refl, Hr; reflexivity
              | cbn; lia].
          - destruct (Ascii.eqb c2 backslash && Ascii.eqb d2 "n")%bool eqn:E.
            + apply (Hnl rest'');
                [cbn in *; lia
                | cbn [asViewText]; rewrite Ascii.eqb_refl, Hr, E; reflexivity
                | cbn; lia].
            + apply (Hnl (String c2 (String d2 rest'')));
                [cbn in *; lia
                | cbn [asViewText]; rewrite Ascii.eqb_refl, Hr, E; reflexivity
                | cbn; lia]. }
        destruct (Ascii.eqb d "n") eqn:Hn.
        { assert (E : asViewText (String backslash (String d rest'))
                      = String newline (asViewText rest'))
            by (cbn [asViewText]; rewrite Ascii.eqb_refl, Hr, Hn; reflexivity).
          rewrite E. destruct (IH rest' ltac:(lia)) as [H1 H2].
          rewrite asViewText_other by reflexivity. rewrite H2.
          cbn [String.length] in *. split; [lia|reflexivity]. }
        assert (E : asViewText (String backslash (String d rest'))
                    = String backslash (asViewText (String d rest')))
          by (apply asViewText_backslash_kept; cbn; auto).
        rewrite E. destruct (IH (String d rest') ltac:(cbn; lia)) as [H1 H2].
        split; [cbn [String.length] in *; lia|].
        rewrite asViewText_backslash_kept; [rewrite H2; reflexivity|].
        destruct (Ascii.eqb d backslash) eqn:Hd.
        { apply Ascii.eqb_eq in Hd. subst d. apply asViewText_backslash_head. }
        rewrite asViewText_other by exact Hd. cbn. auto.
    + rewrite asViewText_other by exact Hc.
      destruct (IH rest ltac:(lia)) as [H1 H2].
      rewrite asViewText_other by exact Hc. rewrite H2.
      cbn [String.length]. split; [lia|reflexivity].
Qed.

Lemma asViewText_idempotent (s : string) :
  asViewText (asViewText s) = asViewText s.
Proof. apply (asViewText_length_and_fixpoint (String.length s) s). lia. Qed.

Lemma asViewText_plain (s : string) :
  has_backslash s = false -> asViewText s = s.
Proof.
  induction s as [|c s IH]; [reflexivity|].
  cbn [has_backslash]. intros H. apply orb_false_elim in H as [Hc Hs].
  rewrite asViewText_other by exact Hc. rewrite IH by exact Hs. reflexivity.
Qed.

Lemma not_escape_head_spec (t : string) :
  not_escape_head t <->
  match t with
  | EmptyString => True
  | String d _ => negb (Ascii.eqb d "r"%char || Ascii.eqb d "n"%char) = true
  end.
Proof.
  destruct t as [|d t]; [tauto|]. cbn.
  destruct (Ascii.eqb d "r"), (Ascii.eqb d "n"); cbn; intuition congruence.
Qed.

Lemma asViewText_head (c : ascii) (t : string) :
  Ascii.eqb c backslash = false ->
  Ascii.eqb c "r" = false -> Ascii.eqb c "n" = false ->
  not_escape_head (asViewText (String c t)).
Proof.
  intros Hc Hr Hn. rewrite asViewText_other by exact Hc. cbn. auto.
Qed.

Lemma escape_free_cons (c : ascii) (t : string) :
  Ascii.eqb c backslash = false ->
  escape_free (String c t) = escape_free t.
Proof. intros H. cbn [escape_free]. rewrite H. reflexivity. Qed.

Lemma escape_free_backslash (t : string) :
  not_escape_head t -> escape_free (String backslash t) = escape_free t.
Proof.
  intros H. cbn [escape_free]. rewrite Ascii.eqb_refl.
  destruct t as [|d t]; [reflexivity|]. destruct H as [-> ->]. reflexivity.
Qed.

Lemma asViewText_escape_free_upto (n : nat) :
  forall s, (String.length s <= n)%nat -> escape_free (asViewText s) = true.
Proof.
  induction n as [|n IH]; intros s Hs.
  - destruct s; [reflexivity | cbn in Hs; lia].
  - destruct s as [|c rest]; [reflexivity|]. cbn [String.length] in Hs.
    destruct (Ascii.eqb c backslash) eqn:Hc.
    + apply Ascii.eqb_eq in Hc. subst c.
      destruct rest as [|d rest']; [reflexivity|]. cbn [String.length] in Hs.
      assert (Hnl : forall t, (String.length t <= n)%nat ->
                  escape_free (String newline (asViewText t)) = true).
      { intros t Ht. rewrite escape_free_cons by reflexivity. apply IH, Ht. }
      destruct (Ascii.eqb d "r") eqn:Hr.
      { cbn [asViewText]. rewrite Ascii.eqb_refl, Hr.
        destruct rest' as [|c2 [|d2 rest'']].
        - apply (Hnl EmptyString). cbn. lia.
        - apply (Hnl (String c2 EmptyString)). cbn in *. lia.
        - destruct (Ascii.eqb c2 backslash && Ascii.eqb d2 "n")%bool;
            apply Hnl; cbn in *; lia. }
      destruct (Ascii.eqb d "n") eqn:Hn.
      { cbn [asViewText]. rewrite Ascii.eqb_refl, Hr, Hn. apply Hnl. lia. }
      rewrite asViewText_backslash_kept by (cbn; auto).
      rewrite escape_free_backslash; [apply IH; cbn; lia|].
      destruct (Ascii.eqb d backslash) eqn:Hd.
      * apply Ascii.eqb_eq in Hd. subst d. apply asViewText_backslash_head.
      * apply asViewText_head; assumption.
    + rewrite asViewText_other by exact Hc.
      rewrite escape_free_cons by exact Hc. apply IH. lia.
Qed.

Lemma asViewText_escape_free (s : string) : escape_free (asViewText s) = true.
Proof. apply (asViewText_escape_free_upto (String.length s)). lia. Qed.

Lemma escape_free_fixed (s : string) : escape_free s = true -> asViewText s = s.
Proof.
  induction s as [|c rest IH]; [reflexivity|].
  cbn [escape_free]. intros H. apply andb_true_iff in H as [Hh Hr].
  destruct (Ascii.eqb c backslash) eqn:Hc.
  - apply Ascii.eqb_eq in Hc. subst c.
    rewrite asViewText_backslash_kept; [rewrite IH by exact Hr; reflexivity|].
    apply not_escape_head_spec. destruct rest; [exact I | exact Hh].
  - rewrite asViewText_other by exact Hc. rewrite IH by exact Hr. reflexivity.
Qed.

Lemma asViewText_plain_prefix (p t : string) :
  has_backslash p = false -> asViewText (p ++ t) = (p ++ asViewText t)%string.
Proof.
  induction p as [|c p IH]; [reflexivity|].
  cbn [has_backslash]. intros H. apply orb_false_elim in H as [Hc Hp].
  cbn [append]. rewrite asViewText_other by exact Hc. rewrite IH by exact Hp.
  reflexivity.
Qed.

Lemma asViewText_escaped_n (t : string) :
  asViewText (escaped_n ++ t) = String newline (asViewText t).
Proof. reflexivity. Qed.

Lemma asViewText_escaped_rn (t : string) :
  asViewText (escaped_rn ++ t) = String newline (asViewText t).
Proof. reflexivity. Qed.

Lemma asViewText_escaped_r (t : string) :
  not_escaped_n_head t ->
  asViewText (escaped_r ++ t) = String newline (asViewText t).
Proof.
  intros H. unfold escaped_r. cbn [append asViewText].
  rewrite Ascii.eqb_refl. cbn [Ascii.eqb Bool.eqb andb].
  destruct t as [|c2 [|d2 t']]; try reflexivity.
  cbn in H. rewrite H. reflexivity.
Qed.

(** *** The text as the textarea returns it *)

Lemma normalize_head (c : ascii) (t : string) :
  Ascii.eqb c carriage_return = false ->
  normalize_newlines (String c t) = String c (normalize_newlines t).
Proof. intros H. cbn [normalize_newlines]. rewrite H. reflexivity. Qed.

Lemma normalize_no_cr_upto (n : nat) :
  forall s, (String.length s <= n)%nat ->
    has_carriage_return (normalize_newlines s) = false
    /\ (escape_free s = true -> escape_free (normalize_newlines s) = true)
    /\ (not_escape_head s -> not_escape_head (normalize_newlines s)).
Proof.
  induction n as [|n IH]; intros s Hs.
  - destruct s; [cbn; auto | cbn in Hs; lia].
  - destruct s as [|c rest]; [cbn; auto|]. cbn [String.length] in Hs.
    destruct (Ascii.eqb c carriage_return) eqn:Hc.
    + apply Ascii.eqb_eq in Hc. subst c.
      assert (Hnl : forall t, (String.length t <= n)%nat ->
                  (escape_free (String carriage_return rest) = true ->
                   escape_free t = true) ->
                  has_carriage_return (String newline (normalize_newlines t)) = false
                  /\ (escape_free (String carriage_return rest) = true ->
                      escape_free (String newline (normalize_newlines t)) = true)
                  /\ (not_escape_head (String carriage_return rest) ->
                      not_escape_head (String newline (normalize_newlines t)))).
      { intros t Ht Hf. destruct (IH t Ht) as [H1 [H2 _]].
        split; [cbn [has_carriage_return]; rewrite H1; reflexivity|].
        split; [|cbn; auto].
        intros E. rewrite escape_free_cons by reflexivity. apply H2, Hf, E. }
      cbn [normalize_newlines]. rewrite Ascii.eqb_refl.
      destruct rest as [|d rest'].
      * cbn. auto.
      * cbn [String.length] in Hs.
        destruct (Ascii.eqb d newline) eqn:Hd.
        { apply Hnl; [lia|]. intros E.
          rewrite escape_free_cons in E by reflexivity.
          apply Ascii.eqb_eq in Hd. subst d.
          rewrite escape_free_cons in E by reflexivity. exact E. }
        { apply Hnl; [cbn; lia|]. intros E.
          rewrite escape_free_cons in E by reflexivity. exact E. }
    + rewrite normalize_head by exact Hc.
      destruct (IH rest ltac:(lia)) as [H1 [H2 H3]].
      split; [cbn [has_carriage_return]; rewrite Hc, H1; reflexivity|].
      split; [|cbn; auto].
      cbn [escape_free]. intros E. apply andb_true_iff in E as [Eh Er].
      rewrite (H2 Er), andb_true_r.
      destruct (Ascii.eqb c backslash); [|reflexivity].
      destruct rest as [|d rest']; [reflexivity|].
      assert (Hh : not_escape_head (String d rest'))
        by (apply not_escape_head_spec; exact Eh).
      apply H3 in Hh. apply not_escape_head_spec in Hh.
      destruct (normalize_newlines (String d rest')); [reflexivity | exact Hh].
Qed.

Lemma normalize_fixed (s : string) :
  has_carriage_return s = false -> normalize_newlines s = s.
Proof.
  induction s as [|c rest IH]; [reflexivity|].
  cbn [has_carriage_return]. intros H. apply orb_false_elim in H as [Hc Hr].
  rewrite normalize_head by exact Hc. rewrite IH by exact Hr. reflexivity.
Qed.

(** What the editor shows of a note is a fixed point of showing: it has no
    escape sequence and no carriage return left. *)
Lemma shown_text_fixed (s : string) :
  normalize_newlines (asViewText (normalize_newlines (asViewText s)))
  = normalize_newlines (asViewText s).
Proof.
  destruct (normalize_no_cr_upto (String.length (asViewText s)) (asViewText s)
              ltac:(lia)) as [H1 [H2 _]].
  rewrite (escape_free_fixed (normalize_newlines (asViewText s)))
    by (apply H2, asViewText_escape_free).
  apply normalize_fixed, H1.
Qed.

(** X2.  [asViewText] turns each escape sequence of a note (backslash-n,
    backslash-r, and backslash-r-backslash-n as one) into one line break
    and copies everything else: text without a backslash before a sequence
    is kept as it is, and what follows the sequence is decoded in turn.  The
    view text is never longer than the note and has no escape sequence left,
    so that decoding it again changes nothing; a note without escape
    sequences is shown as it is. *)
Theorem asViewText_decodes_once (raw : string) :
  (String.length (asViewText raw) <= String.length raw)%nat
  /\ escape_free (asViewText raw) = true
  /\ asViewText (asViewText raw) = asViewText raw
  /\ (escape_free raw = true -> asViewText raw = raw)
  /\ (forall plain : string,
        has_backslash plain = false ->
        asViewText (plain ++ escaped_n ++ raw)
        = (plain ++ String newline (asViewText raw))%string
        /\ asViewText (plain ++ escaped_rn ++ raw)
           = (plain ++ String newline (asViewText raw))%string
        /\ (not_escaped_n_head raw ->
            asViewText (plain ++ escaped_r ++ raw)
            = (plain ++ String newline (asViewText raw))%string)).
Proof.
  split; [apply (asViewText_length_and_fixpoint (String.length raw) raw); lia|].
  split; [apply asViewText_escape_free|].
  split; [apply asViewText_idempotent|].
  split; [apply escape_free_fixed|].
  intros plain Hp. split; [|split].
  - rewrite (asViewText_plain_prefix plain _ Hp), asViewText_escaped_n.
    reflexivity.
  - rewrite (asViewText_plain_prefix plain _ Hp), asViewText_escaped_rn.
    reflexivity.
  - intros H.
    rewrite (asViewText_plain_prefix plain _ Hp), (asViewText_escaped_r raw H).
    reflexivity.
Qed.

Lemma asViewText_decodes_once_witness :
  asViewText ("Heard on 12 March" ++ escaped_r ++ "Next date: 2 April")
  = ("Heard on 12 March" ++ String newline "Next date: 2 April")%string.
Proof.
  destruct (asViewText_decodes_once "Next date: 2 April") as [_ [_ [_ [H4 H5]]]].
  destruct (H5 "Heard on 12 March") as [_ [_ H]]; [vm_compute; reflexivity|].
  rewrite H by (vm_compute; reflexivity).
  rewrite H4 by (vm_compute; reflexivity). reflexivity.
Defined.

End ViewText.
(** ** The modal from its first opening on *)

Section ModalPresentation.

Import Notes NotesView.

Ltac modal :=
  cbv [step shown _openNotesWith openModal on_edit_click on_input
       handleCancel on_close_click finish commit closeModal show_modal
       setState updateDirtyState set_contents set_intent set_context
       save_enabled dirty is_edit is_create
       dataset_state dataset_intent originalContent rawContent noteContext
       editor_value editor_readOnly editor_shown save_disabled save_visible
       cancel_visible edit_visible modal_hidden fst snd negb andb orb]
    in *.

Ltac split_modal :=
  repeat match goal with
    | |- context [if ?b then _ else _] => destruct b eqn:?
    | H : context [if ?b then _ else _] |- _ => destruct b eqn:?
    | |- context [match ?x with Some _ => _ | None => _ end] => destruct x eqn:?
    | |- context [match ?x with View => _ | Edit => _ end] => destruct x eqn:?
    | |- context [match ?x with Update => _ | Create => _ end] => destruct x eqn:?
    end.

Ltac use_implications :=
  repeat match goal with
    | H : ?a = ?a -> _ |- _ => specialize (H eq_refl)
    | H : ?P -> _, H' : ?P |- _ => specialize (H H')
    | H : _ /\ _ |- _ => destruct H
    end.

Ltac close_modal_goal :=
  try reflexivity; try discriminate; try congruence;
  try (intros; use_implications; subst; try split; congruence).

Lemma open_presented (st : state) (content : string) (i : intent) (ctx : NoteContext) :
  presented (step st (OpenNote content i ctx)).
Proof.
  destruct st, i; split; modal; close_modal_goal; auto.
Qed.

Lemma finish_presented (st : state) : presented (finish (commit st)).
Proof.
  destruct st; split; modal; split_modal; close_modal_goal; auto.
Qed.

Lemma commit_hidden_presented (st : state) :
  consistent st -> presented st -> noteContext st = None ->
  presented (commit st).
Proof.
  intros [HI HJ HK] [P1 P2 P3 P4 P5 P6] Hc.
  specialize (HJ (HK Hc)). specialize (P4 HJ). destruct P4 as [P4 P4'].
  destruct st; split; modal; subst; split_modal; close_modal_goal; auto.
  all: intros _; split; [reflexivity|]; symmetry; apply shown_text_fixed.
Qed.

Lemma step_presented (st : state) (e : event) :
  consistent st -> presented st -> presented (step st e).
Proof.
  intros Hc Hp. destruct e.
  - apply open_presented.
  - destruct Hp as [P1 P2 P3 P4 P5 P6].
    destruct st; split; modal; split_modal; close_modal_goal; auto.
  - destruct Hp as [P1 P2 P3 P4 P5 P6].
    destruct st; split; modal; split_modal; close_modal_goal; auto.
  - cbn [step]. unfold saveCurrent_resume.
    destruct (checked f) as [data|err]; [|exact Hp].
    destruct p.
    + destruct (noteContext (commit st)) eqn:Hctx; cbn [fst].
      * apply finish_presented.
      * apply commit_hidden_presented; [exact Hc | exact Hp |].
        destruct st; exact Hctx.
    + cbn [fst]. apply finish_presented.
  - destruct Hp as [P1 P2 P3 P4 P5 P6].
    destruct st; split; modal; split_modal; close_modal_goal; auto.
  - destruct Hp as [P1 P2 P3 P4 P5 P6].
    destruct st; split; modal; split_modal; close_modal_goal; auto.
Qed.

Lemma run_consistent_presented (st : state) (evs : list event) :
  consistent st -> presented st ->
  consistent (run st evs) /\ presented (run st evs).
Proof.
  revert st. induction evs as [|e evs IH]; intros st Hc Hp; [auto|].
  apply IH; [apply step_consistent, Hc | apply step_presented; assumption].
Qed.

(** X3.  From the moment a note is opened, after every sequence of events
    the modal shows what its state says: Save and Cancel are visible
    exactly in the edit state, Edit exactly in the view state of a note
    that exists; the editor is read-only exactly outside the edit state,
    where [editor.value] is the view text of [originalContent] with its
    line ends normalised as a textarea returns them (CR LF and CR read back
    as LF); and the modal is never hidden while in the edit state. *)
Theorem modal_presents_its_state
    (st0 : state) (content : string) (i : intent) (ctx : NoteContext)
    (evs : list event) :
  let st := run (step st0 (OpenNote content i ctx)) evs in
  save_visible st = is_edit st
  /\ cancel_visible st = is_edit st
  /\ edit_visible st = negb (is_edit st || is_create st)
  /\ editor_readOnly st = negb (is_edit st)
  /\ (is_edit st = false ->
      editor_value st = normalize_newlines (asViewText (originalContent st)))
  /\ (is_edit st = true -> modal_hidden st = false).
Proof.
  cbv zeta.
  destruct (run_consistent_presented (step st0 (OpenNote content i ctx)) evs
              (open_consistent _ _ _ _) (open_presented _ _ _ _))
    as [_ [P1 P2 P3 P4 P5 P6]].
  repeat split; try assumption.
  - destruct (is_edit _) eqn:E; [apply P5 | apply P4]; reflexivity.
  - intros E. apply P4, E.
  - intros E. apply P5, E.
Qed.

Lemma modal_presents_its_state_witness :
  let note :=
    ("Heard" ++ String carriage_return (String newline "Adjourned\nto May"))%string in
  let st := run (step (init "") (OpenNote note Update (CaseContext "2024" "Mar" "Doe v. Roe")))
              [EditClick; Input "abc"; CancelClick] in
  editor_value st
  = ("Heard" ++ String newline ("Adjourned" ++ String newline "to May"))%string.
Proof.
  cbv zeta.
  destruct (modal_presents_its_state (init "")
              ("Heard" ++ String carriage_return (String newline "Adjourned\nto May"))
              Update (CaseContext "2024" "Mar" "Doe v. Roe")
              [EditClick; Input "abc"; CancelClick]) as [_ [_ [_ [_ [H _]]]]].
  refine (eq_trans (H _) _); vm_compute; reflexivity.
Defined.

Lemma step_raw_is_original (st : state) (e : event) :
  rawContent st = originalContent st ->
  rawContent (step st e) = originalContent (step st e).
Proof.
  intros H. destruct e; cbn [step].
  - destruct st, i; reflexivity.
  - destruct (shown (edit_visible st) st); [destruct st; reflexivity | exact H].
  - destruct (shown (negb (editor_readOnly st)) st); [|exact H].
    destruct st; exact H.
  - unfold saveCurrent_resume.
    destruct (checked f) as [data|err]; [|exact H].
    destruct p; [destruct (noteContext (commit st))|]; destruct st; reflexivity.
  - destruct (shown (cancel_visible st) st); [|exact H].
    destruct st as [[[|]|] [[|]|] ? ? ? ? ? ? ? ? ? ? ?]; reflexivity.
  - destruct (shown true st); [destruct st; reflexivity | exact H].
Qed.

Lemma step_keeps_saved_text (st : state) (e : event) :
  keeps_saved_text e = true ->
  originalContent (step st e) = originalContent st.
Proof.
  intros H. destruct e; cbn [step]; try discriminate H.
  - destruct (shown (edit_visible st) st); [destruct st|]; reflexivity.
  - destruct (shown (negb (editor_readOnly st)) st); [destruct st|]; reflexivity.
  - cbn [keeps_saved_text] in H. unfold saveCurrent_resume.
    destruct (checked_failed f H) as [err ->]. reflexivity.
  - destruct (shown (cancel_visible st) st); [|reflexivity].
    destruct st as [[[|]|] [[|]|] ? ? ? ? ? ? ? ? ? ? ?]; reflexivity.
  - destruct (shown true st); [destruct st|]; reflexivity.
Qed.

(** X4.  [rawContent] and [originalContent] hold the same text after every
    sequence of events, from the state the page starts in: every listener
    that writes one of them writes the other, so that the text being typed
    lives in the editor alone.  And [originalContent] changes only when a
    note is opened or a save succeeds: whatever is typed, cancelled, closed
    or refused by the backend leaves it as it is. *)
Theorem saved_text_changes_only_by_open_or_save
    (st : state) (editorText : string) (evs : list event) :
  rawContent (run (init editorText) evs) = originalContent (run (init editorText) evs)
  /\ (forallb keeps_saved_text evs = true ->
      originalContent (run st evs) = originalContent st).
Proof.
  split.
  - assert (H : forall s, rawContent s = originalContent s ->
                          rawContent (run s evs) = originalContent (run s evs)).
    { induction evs as [|e evs IH]; intros s Hs; [exact Hs|].
      apply IH, step_raw_is_original, Hs. }
    apply H. reflexivity.
  - revert st. induction evs as [|e evs IH]; intros st Hq; [reflexivity|].
    cbn [forallb] in Hq. apply andb_true_iff in Hq as [He Hq].
    cbn [run fold_left]. change (fold_left step evs (step st e)) with (run (step st e) evs).
    rewrite (IH _ Hq). apply step_keeps_saved_text, He.
Qed.

Lemma saved_text_changes_only_by_open_or_save_witness :
  let st := step (init "") (OpenNote "saved" Update (CaseContext "2024" "Mar" "Doe v. Roe")) in
  let refused := Http.Responded {| Http.status := 500; Http.body := None |} in
  originalContent (run st [EditClick; Input "typed"; SaveDone (CaseSave Update) refused;
                           CancelClick; CloseClick])
  = "saved".
Proof.
  cbv zeta.
  destruct (saved_text_changes_only_by_open_or_save
              (step (init "") (OpenNote "saved" Update (CaseContext "2024" "Mar" "Doe v. Roe")))
              ""
              [EditClick; Input "typed";
               SaveDone (CaseSave Update)
                 (Http.Responded {| Http.status := 500; Http.body := None |});
               CancelClick; CloseClick]) as [_ H].
  rewrite H by (vm_compute; reflexivity). vm_compute. reflexivity.
Defined.

(** X5.  Cancel in the edit state throws the typed text away: the state
    becomes [view], [editor.value] is the view text of [originalContent]
    (which is unchanged) with its line ends normalised as a textarea returns
    them, and Save is disabled.  For a note being created the modal is
    closed and its context dropped; for an existing note the modal stays
    open. *)
Theorem cancel_discards_the_edit
    (st0 : state) (content : string) (i : intent) (ctx : NoteContext)
    (evs : list event) :
  let st := run (step st0 (OpenNote content i ctx)) evs in
  is_edit st = true ->
  let st' := step st CancelClick in
  dataset_state st' = Some View
  /\ originalContent st' = originalContent st
  /\ editor_value st' = normalize_newlines (asViewText (originalContent st))
  /\ save_enabled st' = false
  /\ modal_hidden st' = is_create st
  /\ (is_create st = true -> noteContext st' = None)
  /\ (is_create st = false -> noteContext st' = noteContext st).
Proof.
  cbv zeta. intros He.
  destruct (run_consistent_presented (step st0 (OpenNote content i ctx)) evs
              (open_consistent _ _ _ _) (open_presented _ _ _ _))
    as [_ [P1 P2 P3 P4 P5 P6]].
  destruct (P5 He) as [_ Hh]. rewrite He in P2.
  generalize dependent (run (step st0 (OpenNote content i ctx)) evs).
  intros st He P1 P2 P3 P4 P5 P6 Hh.
  destruct st as [[[|]|] [[|]|] ? ? ? ? ? ? ? ? ? ? ?];
    cbn in He, P2, Hh, P6; try discriminate; subst;
    repeat split; try reflexivity; try discriminate.
Qed.

Lemma cancel_discards_the_edit_witness :
  let note := ("Heard" ++ String carriage_return "Adjourned")%string in
  let st := run (step (init "") (OpenNote note Update (CaseLawContext (Some (Json.Num 7)) 0%nat)))
              [EditClick; Input "draft"] in
  editor_value (step st CancelClick)
  = ("Heard" ++ String newline "Adjourned")%string
  /\ modal_hidden (step st CancelClick) = false
  /\ originalContent (step st CancelClick) = note.
Proof.
  cbv zeta.
  pose proof (cancel_discards_the_edit (init "")
                ("Heard" ++ String carriage_return "Adjourned") Update
                (CaseLawContext (Some (Json.Num 7)) 0%nat)
                [EditClick; Input "draft"]) as H.
  cbv zeta in H.
  assert (He : is_edit (run (step (init "")
                               (OpenNote ("Heard" ++ String carriage_return "Adjourned")
                                  Update (CaseLawContext (Some (Json.Num 7)) 0%nat)))
                         [EditClick; Input "draft"]) = true) by (vm_compute; reflexivity).
  destruct (H He) as [_ [H2 [H3 [_ [H5 _]]]]].
  split; [refine (eq_trans H3 _); vm_compute; reflexivity|].
  split; [refine (eq_trans H5 _) | refine (eq_trans H2 _)]; vm_compute; reflexivity.
Defined.

End ModalPresentation.

(** ** The option nodes of the year panel *)

Section YearPanel.

Import YearDropdown.

Lemma years_in (lo hi y : Z) : lo <= y <= hi -> In y (years lo hi).
Proof.
  intros H. unfold years. apply in_map_iff.
  exists (Z.to_nat (y - lo)). split; [lia|]. apply in_seq. lia.
Qed.

Lemma NoDup_map_injective {A B} (f : A -> B) (l : list A) :
  (forall a b, f a = f b -> a = b) -> NoDup l -> NoDup (map f l).
Proof.
  intros Hf Hl. induction Hl as [|x l Hx Hl IH]; cbn; constructor; [|exact IH].
  intros Hin. apply in_map_iff in Hin as [a [Ha Hin]].
  apply Hf in Ha. subst. contradiction.
Qed.

Lemma years_NoDup (lo hi : Z) : NoDup (years lo hi).
Proof.
  unfold years. apply NoDup_map_injective; [|apply seq_NoDup].
  intros a b H. lia.
Qed.

Lemma keydown_ready (s : state) (k : key) :
  ready (step s (KeyDown k)) = ready s.
Proof.
  cbn [step]. unfold on_keydown, extend_for, close, setYear, set_panel_hidden.
  destruct k; cbn [from to ready];
    repeat match goal with
      | |- context [if ?b then _ else _] => destruct b
      end; reflexivity.
Qed.

(** X6.  Once the panel has been rendered, after every sequence of events
    its option nodes are the years of the window, each once and in
    ascending order: their number is [to - from + 1]. *)
Theorem year_panel_renders_the_window
    (startYear : Z) (panelHidden : bool) (evs : list event) :
  let s := run (init startYear panelHidden) evs in
  ready s = true ->
  items s = years (from s) (to s)
  /\ Z.of_nat (List.length (items s)) = to s - from s + 1
  /\ NoDup (items s).
Proof.
  cbv zeta. intros Hr.
  destruct (run_items startYear panelHidden evs Hr) as [H1 H2].
  split; [exact H1|]. split; [exact H2|]. rewrite H1. apply years_NoDup.
Qed.

Lemma year_panel_renders_the_window_witness :
  Z.of_nat (List.length (items (run (init 2025 true)
                                  [TriggerClick; Scroll true false; KeyDown Home])))
  = to (run (init 2025 true) [TriggerClick; Scroll true false; KeyDown Home])
    - from (run (init 2025 true) [TriggerClick; Scroll true false; KeyDown Home])
    + 1.
Proof.
  destruct (year_panel_renders_the_window 2025 true
              [TriggerClick; Scroll true false; KeyDown Home]) as [_ [H _]];
    [vm_compute; reflexivity | exact H].
Defined.

(** X7.  After every sequence of events the hidden input of the form holds
    the selected year.  On a rendered panel, a move by key selects a year
    whose option node exists, the window being extended for it when needed;
    and a click on an option node selects its year and closes the panel. *)
Theorem selected_year_has_its_node
    (startYear : Z) (panelHidden : bool) (evs : list event) :
  let s := run (init startYear panelHidden) evs in
  hidden_value s = selected s
  /\ (ready s = true ->
      forall k, is_move k = true ->
        let s' := step s (KeyDown k) in
        selected s' = next_year k (selected s)
        /\ In (selected s') (items s'))
  /\ (forall y, In y (items s) ->
        let s' := step s (ItemClick y) in
        selected s' = y /\ hidden_value s' = y
        /\ In y (items s') /\ panel_hidden s' = true).
Proof.
  cbv zeta.
  pose proof (run_shape _ evs (init_shape startYear panelHidden)) as Hs.
  split; [apply (mirrored _ Hs)|]. split.
  - intros Hr k Hk.
    assert (Hsel : selected (step (run (init startYear panelHidden) evs) (KeyDown k))
                   = next_year k (selected (run (init startYear panelHidden) evs))).
    { rewrite <- (mirrored _ Hs).
      generalize (run (init startYear panelHidden) evs). intros s.
      cbn [step]. unfold on_keydown, extend_for, setYear.
      destruct k; try discriminate Hk; cbn [from to];
        repeat match goal with
          | |- context [if ?b then _ else _] => destruct b
          end; reflexivity. }
    split; [exact Hsel|].
    rewrite (step_items _ (KeyDown k) Hs).
    + apply years_in. apply (key_move_window_ok _ k Hs Hk).
    + intros _. apply (run_items startYear panelHidden evs Hr).
    + rewrite keydown_ready. exact Hr.
  - intros y Hy.
    generalize dependent (run (init startYear panelHidden) evs). intros s _ Hy.
    cbn [step]. unfold on_item_click.
    assert (E : existsb (Z.eqb y) (items s) = true).
    { apply existsb_exists. exists y. split; [exact Hy | apply Z.eqb_refl]. }
    rewrite E. unfold close, setYear, set_panel_hidden. cbn [panel_hidden].
    destruct (panel_hidden s) eqn:Hp; cbn; auto.
Qed.

Lemma selected_year_has_its_node_witness :
  In 9999 (items (step (run (init 2025 true) [TriggerClick]) (KeyDown Home))).
Proof.
  destruct (selected_year_has_its_node 2025 true [TriggerClick]) as [_ [H _]].
  assert (Hr : ready (run (init 2025 true) [TriggerClick]) = true)
    by (vm_compute; reflexivity).
  destruct (H Hr Home eq_refl) as [Hsel Hin].
  rewrite Hsel in Hin. exact Hin.
Defined.

End YearPanel.

(** ** Paths of the directory overlay *)

Section DirectoryPaths.

Import Results ResultsRest JsString.

Lemma lastIndexOf_aux_app (c : ascii) (a b : list ascii) (i acc : Z) :
  lastIndexOf_aux c (a ++ b) i acc
  = lastIndexOf_aux c b (i + len a) (lastIndexOf_aux c a i acc).
Proof.
  revert i acc. induction a as [|x a IH]; intros i acc.
  - cbn. f_equal. unfold len. cbn. lia.
  - cbn [app lastIndexOf_aux]. rewrite IH. f_equal.
    unfold len. cbn [List.length]. lia.
Qed.

Lemma lastIndexOf_aux_absent (c : ascii) (b : list ascii) (i acc : Z) :
  ~ In c b -> lastIndexOf_aux c b i acc = acc.
Proof.
  revert i acc. induction b as [|x b IH]; intros i acc H; [reflexivity|].
  cbn [lastIndexOf_aux].
  destruct (Ascii.eqb_spec x c) as [->|Hne]; [exfalso; apply H; left; reflexivity|].
  apply IH. intros Hin. apply H. right. exact Hin.
Qed.

Lemma list_ascii_of_string_app (a b : string) :
  list_ascii_of_string (a ++ b)%string
  = list_ascii_of_string a ++ list_ascii_of_string b.
Proof. induction a as [|x a IH]; [reflexivity|]. cbn. rewrite IH. reflexivity. Qed.

Lemma parent_of_child (relPath dir : string) :
  no_slash dir -> parent_path (child_path relPath dir) = relPath.
Proof.
  intros Hd. unfold child_path, parent_path.
  destruct (String.eqb_spec relPath "") as [->|Hne].
  - unfold lastIndexOf. rewrite lastIndexOf_aux_absent by exact Hd. reflexivity.
  - rewrite !list_ascii_of_string_app. cbn [list_ascii_of_string].
    set (a := list_ascii_of_string relPath).
    set (b := list_ascii_of_string dir).
    assert (Hi : lastIndexOf "/" (a ++ ("/"%char :: nil) ++ b) = len a).
    { unfold lastIndexOf. rewrite !lastIndexOf_aux_app.
      rewrite (lastIndexOf_aux_absent "/" b) by exact Hd.
      cbn [lastIndexOf_aux]. rewrite Ascii.eqb_refl. lia. }
    change (a ++ "/"%char :: b) with (a ++ ("/"%char :: nil) ++ b).
    rewrite Hi.
    assert (Hlen : 0 <= len a) by (unfold len; lia).
    destruct (len a =? -1) eqn:E; [lia|].
    rewrite slice_head by exact Hlen.
    unfold len. rewrite Nat2Z.id, firstn_app, Nat.sub_diag, firstn_all.
    cbn [firstn]. rewrite app_nil_r.
    apply string_of_list_ascii_of_string.
Qed.

(** X8.  In the directory overlay, going up from a folder that was entered
    leads back to where it was entered from: for a folder name without a
    slash, the path the up row asks for below [relPath/dir] (or below [dir]
    at the top) is [relPath]. *)
Theorem up_row_undoes_descent (relPath dir : string) :
  no_slash dir ->
  up_rows (child_path relPath dir) = [UpRow relPath]
  \/ (relPath = "" /\ dir = "" /\ up_rows (child_path relPath dir) = []).
Proof.
  intros Hd. unfold up_rows.
  destruct (String.eqb_spec (child_path relPath dir) "") as [E|E].
  - right. unfold child_path in E.
    destruct (String.eqb_spec relPath "") as [->|Hne]; [auto|].
    destruct relPath; [contradiction | discriminate E].
  - left. rewrite parent_of_child by exact Hd. reflexivity.
Qed.

Lemma up_row_undoes_descent_witness :
  up_rows (child_path "2024/Mar" "Doe v. Roe") = [UpRow "2024/Mar"].
Proof.
  destruct (up_row_undoes_descent "2024/Mar" "Doe v. Roe") as [H|[H _]].
  - vm_compute. intros [H|[H|[H|[H|[H|[H|[H|[H|[H|[H|[]]]]]]]]]]]; discriminate H.
  - exact H.
  - discriminate H.
Defined.

End DirectoryPaths.

(** ** The overlay over every sequence of events *)

Section OverlayAtRest.

Import Results ResultsRest.

Variable maxScroll : list row -> Z.

Ltac surface :=
  cbv [renderResults renderResults_throws showDirLevel_request showDirLevel_resume showDirLevel_catch
       on_dir_click enter exit exit_prologue restore_scroll clear_previousScroll
       row_remove with_results with_dir with_button with_last
       results dirBtn dirSearchState lastRenderedResults isAdmin
       active previousScroll currentPath option_map negb fst snd] in *.








Lemma step_last (st : state) (e : event) :
  is_search e = false ->
  lastRenderedResults (step maxScroll st e) = lastRenderedResults st.
Proof.
  intros H. destruct e as [f| |relPath|relPath f|target f|v]; cbn [step];
    [discriminate| | | | |].
  - destruct st as [[host|] [b|] [[|] ps cp] lr adm]; surface; try reflexivity.
    destruct (cloneResults lr) as [l|] eqn:E; surface; [|reflexivity].
    rewrite cloneResults_id in *. symmetry. exact E.
  - destruct st as [[host|] [b|] [[|] ps cp] lr adm]; surface; reflexivity.
  - destruct st as [[host|] [b|] [[|] ps cp] lr adm]; surface; try reflexivity;
      destruct f as [e|r]; try reflexivity;
      destruct (listing_rows _ _) as [[rs|]|e]; reflexivity.
  - destruct (isAdmin st); [|reflexivity].
    unfold on_delete_response. destruct f as [e|r]; [reflexivity|].
    destruct (Http.ok r); cbn [negb]; [|reflexivity].
    destruct (Js.prop _ _) as [v|e]; cbn [Js.bind]; [|reflexivity].
    destruct (negb (Json.truthy_opt v)); [reflexivity|]. cbn [fst].
    destruct st as [[host|] [b|] [[|] ps cp] lr adm]; destruct target;
      surface; reflexivity.
  - destruct st as [[host|] [b|] [[|] ps cp] lr adm]; surface; reflexivity.
Qed.

(** X10.  The snapshot that leaving the directory overlay restores is
    written by the two searches only: over any sequence of clicks on
    Directory Search, folder clicks, listings, deletions and scrolls,
    [lastRenderedResults] stays what it was, although leaving the overlay
    calls [renderResults] itself. *)
Theorem snapshot_written_by_searches_only (st : state) (evs : list event) :
  forallb (fun e => negb (is_search e)) evs = true ->
  lastRenderedResults (run maxScroll st evs) = lastRenderedResults st.
Proof.
  revert st. induction evs as [|e evs IH]; intros st H; [reflexivity|].
  cbn [forallb] in H. apply andb_true_iff in H as [He Hr].
  apply negb_true_iff in He.
  change (run maxScroll st (e :: evs)) with (run maxScroll (step maxScroll st e) evs).
  rewrite IH by exact Hr. apply step_last, He.
Qed.










End OverlayAtRest.

Section OverlayWorked.

Import Results ResultsRest.

Local Abbreviation search_page := Examples.search_page.
Local Abbreviation layout := Examples.layout.


Lemma snapshot_written_by_searches_only_witness :
  lastRenderedResults
    (run layout Examples.searched_page
       [DirClick; DirDone "" (Http.Responded Examples.listing_answer);
        DeleteDone (Some 0%nat) (Http.Responded Examples.ok_answer); DirClick])
  = lastRenderedResults Examples.searched_page.
Proof.
  apply (snapshot_written_by_searches_only layout Examples.searched_page).
  vm_compute. reflexivity.
Defined.


End OverlayWorked.

(** ** The confirmation dialog *)

Section Confirmation.

Import Confirm.

Lemma after_confirm_all (answer : bool) (ws : list delete_request) :
  after_confirm (map (fun k => (k, answer)) ws) = if answer then ws else [].
Proof.
  unfold after_confirm. induction ws as [|k ws IH]; [destruct answer; reflexivity|].
  cbn [map filter snd]. destruct answer; cbn [map fst filter snd] in *;
    [rewrite IH; reflexivity | exact IH].
Qed.

Lemma step_tidy (st : state) (e : event) : tidy st -> tidy (fst (step st e)).
Proof.
  intros [Hs Ha Hp]. destruct st as [p t h a ws]. cbn in Hs, Ha, Hp.
  destruct e as [rec native|title id native| | |];
    cbv [step openConfirm click parts confirmText hidden aria_hidden waiting negb fst];
    destruct p; try destruct ws as [|w ws];
    cbv [fst parts confirmText hidden aria_hidden waiting];
    split; cbv [parts confirmText hidden aria_hidden waiting];
    try assumption; try reflexivity; try tauto;
    try (split; intros; discriminate);
    try (intros; discriminate);
    try (split; [discriminate | intros E; destruct ws; discriminate E]).
Qed.

Lemma step_sent (st : state) (e : event) :
  forall q, In q (snd (step st e)) -> In q (waiting st ++ asked e).
Proof.
  intros q.
  destruct e as [rec native|title id native| | |]; unfold step, openConfirm, click;
    try (destruct (parts st); cbn [negb fst snd after_confirm filter map];
         [contradiction|];
         destruct native; cbn [negb fst snd after_confirm filter map asked];
         [intros [<-|[]]; apply in_or_app; right; left; reflexivity
         | contradiction]);
    destruct (waiting st) as [|w ws]; cbn [snd]; try contradiction;
    rewrite (after_confirm_all _ (w :: ws)); try contradiction;
    intros H; apply in_or_app; left; exact H.
Qed.

Lemma step_waiting (st : state) (e : event) :
  forall q, In q (waiting (fst (step st e))) -> In q (waiting st ++ asked e).
Proof.
  intros q.
  destruct e as [rec native|title id native| | |]; unfold step, openConfirm, click;
    try (destruct (parts st); cbn [negb fst waiting asked];
         [intros H; exact H | intros H; apply in_or_app; left; exact H]);
    destruct (waiting st) as [|w ws] eqn:E; cbn [fst waiting asked];
    rewrite ?E; try contradiction; intros H; rewrite app_nil_r; exact H.
Qed.

Lemma step_quiet (st : state) (e : event) :
  parts st = true -> is_yes e = false ->
  snd (step st e) = [] /\ parts (fst (step st e)) = true.
Proof.
  intros Hp He. destruct st as [p t h a ws]. cbn in Hp. subst p.
  destruct e as [rec native|title id native| | |]; try discriminate He;
    cbv [step openConfirm click parts waiting negb];
    try destruct ws as [|w ws]; cbn [snd fst parts];
    try (rewrite (after_confirm_all false (_ :: _))); auto.
Qed.

(** X12.  No file and no case-law entry is deleted without a click on Yes:
    on a page that has the confirmation dialog, whatever delete buttons are
    clicked and however often No and Close are clicked, no delete request
    is sent.  In every sequence of events, a request that is sent is one a
    delete click asked for (or one that was already waiting), and between
    events the dialog is shown exactly while a confirmation is waited for.
    The dialog names the file or entry asked about last, while one click on
    Yes confirms every deletion that is waiting. *)
Theorem delete_needs_a_yes (st : state) (evs : list event) :
  tidy st ->
  tidy (fst (run st evs))
  /\ (forall q, In q (snd (run st evs)) ->
        In q (waiting st ++ flat_map asked evs))
  /\ (parts st = true -> forallb (fun e => negb (is_yes e)) evs = true ->
      snd (run st evs) = [])
  /\ (parts st = true -> waiting st = [] ->
      forall a b na nb,
        let out := run st [FileDeleteClick a na; FileDeleteClick b nb; ClickYes] in
        snd out = [PostDeleteFile (Results.path a); PostDeleteFile (Results.path b)]
        /\ confirmText (fst out)
           = option_map (fun _ => file_message b) (confirmText st)
        /\ hidden (fst out) = true).
Proof.
  intros H. split; [|split; [|split]].
  - revert st H. induction evs as [|e evs IH]; intros st H; [exact H|].
    cbn [run]. pose proof (step_tidy st e H) as H1.
    destruct (step st e) as [st1 s1]. cbn [fst] in H1.
    specialize (IH st1 H1). destruct (run st1 evs) as [st2 s2]. exact IH.
  - clear H. revert st. induction evs as [|e evs IH]; intros st q; [contradiction|].
    cbn [run flat_map].
    pose proof (step_sent st e) as Hs. pose proof (step_waiting st e) as Hw.
    destruct (step st e) as [st1 s1]. cbn [fst snd] in Hs, Hw.
    specialize (IH st1 q). destruct (run st1 evs) as [st2 s2]. cbn [snd] in *.
    intros Hin. apply in_app_or in Hin as [Hin|Hin].
    + apply Hs in Hin. rewrite app_assoc. apply in_or_app. left. exact Hin.
    + apply IH in Hin. apply in_app_or in Hin as [Hin|Hin].
      * apply Hw in Hin. rewrite app_assoc. apply in_or_app. left. exact Hin.
      * apply in_or_app. right. apply in_or_app. right. exact Hin.
  - clear H. revert st. induction evs as [|e evs IH]; intros st Hp Hevs; [reflexivity|].
    cbn [forallb] in Hevs. apply andb_true_iff in Hevs as [He Hr].
    apply negb_true_iff in He. cbn [run].
    destruct (step_quiet st e Hp He) as [Hs Hp1].
    destruct (step st e) as [st1 s1]. cbn [fst snd] in Hs, Hp1.
    specialize (IH st1 Hp1 Hr). destruct (run st1 evs) as [st2 s2].
    cbn [snd] in *. subst. reflexivity.
  - intros Hp Hw a b na nb. destruct st as [p t h ar ws]. cbn in Hp, Hw. subst.
    cbv zeta. cbn [run step openConfirm click parts waiting negb app fst snd
                    after_confirm map filter confirmText hidden].
    split; [reflexivity|]. split; [|reflexivity]. destruct t; reflexivity.
Qed.

End Confirmation.

Lemma delete_needs_a_yes_witness :
  snd (Confirm.run
         (Confirm.mkState true (Some "") true "true" [])
         [Confirm.FileDeleteClick Examples.affidavit true; Confirm.ClickNo;
          Confirm.CardDeleteClick "State v. Doe" "7" true; Confirm.ClickClose])
  = [].
Proof.
  apply (delete_needs_a_yes
           (Confirm.mkState true (Some "") true "true" [])
           [Confirm.FileDeleteClick Examples.affidavit true; Confirm.ClickNo;
            Confirm.CardDeleteClick "State v. Doe" "7" true; Confirm.ClickClose]).
  - split; cbn; [tauto | reflexivity | reflexivity].
  - reflexivity.
  - vm_compute. reflexivity.
Defined.

(** ** The selects of the case lookup and the actions they enable *)

Section CaseCascade.

Import Cascade.

Variable NOTE_TEMPLATE_DEFAULT : string.

Lemma updateCaseActions_spec (st : state) :
  fst (updateCaseActions st)
  = {| yearSel := yearSel st; monthSel := monthSel st; caseSel := caseSel st;
       noteBtn := if complete st then noteBtn st else hidden_button (noteBtn st);
       invoiceDisabled := negb (complete st) |}
  /\ snd (updateCaseActions st)
     = if complete st
       then [Probe (GetNote (value (yearSel st)) (value (monthSel st))
                      (value (caseSel st)))]
       else [].
Proof.
  unfold updateCaseActions, complete, CaseLookup.updateCaseActions_request.
  destruct (CaseLookup.hasSelection (selection st)); cbn; auto.
Qed.

Lemma complete_values (st : state) :
  complete st
  = negb (String.eqb (value (yearSel st)) "")
    && negb (String.eqb (value (monthSel st)) "")
    && negb (String.eqb (value (caseSel st)) "").
Proof. reflexivity. Qed.

Lemma updateCaseActions_ok (st : state) :
  whole (noteBtn st) -> actions_ok (fst (updateCaseActions st)).
Proof.
  intros Hb. destruct (updateCaseActions_spec st) as [-> _].
  split; cbn [invoiceDisabled noteBtn].
  - rewrite !complete_values. cbn [yearSel monthSel caseSel].
    intros H. apply negb_false_iff in H. exact H.
  - destruct (complete st); [exact Hb|]. reflexivity.
Qed.

Lemma on_probe_ok (f : Http.fetched) (st : state) :
  actions_ok st -> actions_ok (on_probe NOTE_TEMPLATE_DEFAULT f st).
Proof.
  intros [Hi Hb]. unfold on_probe, CaseLookup.updateCaseActions_resume.
  destruct (CaseLookup.getNoteState_resume NOTE_TEMPLATE_DEFAULT f) as [ns effs].
  destruct (negb (CaseLookup.exists_ ns)); cbn [fst]; split;
    try (rewrite complete_values in *; cbn; exact Hi); reflexivity.
Qed.

Lemma step_actions_ok (st : state) (e : event) :
  readable_event e = true ->
  actions_ok st -> actions_ok (fst (step NOTE_TEMPLATE_DEFAULT st e)).
Proof.
  intros Hr H. pose proof H as [Hi Hb].
  destruct e as [v|v|v|f|f|f|f]; cbn [step readable_event] in *.
  - destruct (can_pick v (yearSel st)); [|exact H].
    unfold on_year_change. cbn [with_year yearSel pick value].
    destruct (String.eqb_spec v "") as [->|Hv].
    + apply updateCaseActions_ok. exact Hb.
    + cbn [fst]. split; [|exact Hb]. intros Hd. specialize (Hi Hd).
      rewrite complete_values in *. cbn [with_year yearSel monthSel caseSel pick value].
      apply andb_true_iff in Hi as [Hi Hc]. apply andb_true_iff in Hi as [_ Hm].
      rewrite Hm, Hc. destruct (String.eqb_spec v ""); [contradiction|reflexivity].
  - destruct (can_pick v (monthSel st)); [|exact H].
    unfold on_month_change. cbn [with_month yearSel monthSel pick value].
    destruct (negb (String.eqb (value (yearSel st)) "") && negb (String.eqb v "")) eqn:E.
    + cbn [fst]. split; [|exact Hb]. intros Hd. specialize (Hi Hd).
      rewrite complete_values in *. cbn [with_month yearSel monthSel caseSel pick value].
      apply andb_true_iff in Hi as [_ Hc]. rewrite E, Hc. reflexivity.
    + apply updateCaseActions_ok. exact Hb.
  - destruct (can_pick v (caseSel st)); [|exact H].
    apply updateCaseActions_ok. exact Hb.
  - unfold loadYears_resume, readable in *. destruct f as [e|r]; [exact H|].
    destruct (listed "years" r) as [items|e]; [|discriminate Hr].
    apply updateCaseActions_ok. exact Hb.
  - unfold loadMonths_resume, readable in *. destruct f as [e|r]; [exact H|].
    destruct (listed "months" r) as [items|e]; [|discriminate Hr].
    apply updateCaseActions_ok. exact Hb.
  - unfold loadCases_resume, readable in *. destruct f as [e|r]; [exact H|].
    destruct (listed "cases" r) as [items|e]; [|discriminate Hr].
    apply updateCaseActions_ok. exact Hb.
  - cbn [fst]. apply on_probe_ok, H.
Qed.

Lemma run_actions_ok (st : state) (evs : list event) :
  forallb readable_event evs = true ->
  actions_ok st -> actions_ok (run NOTE_TEMPLATE_DEFAULT st evs).
Proof.
  revert st. induction evs as [|e evs IH]; intros st Hr H; [exact H|].
  cbn [forallb] in Hr. apply andb_true_iff in Hr as [He Hr].
  cbn [run fold_left]. apply IH; [exact Hr|]. apply step_actions_ok; assumption.
Qed.

Lemma init_actions_ok : actions_ok init.
Proof. split; [discriminate | reflexivity]. Qed.

(** X13.  In the case lookup, Generate Invoice is enabled only while a
    year, a month and a case are all selected, so that a click on it either
    does nothing (disabled) or navigates with the three values now
    selected; and the note button is shown exactly when it carries its
    handler, [data-has-note] and [data-intent="update"].  This holds from
    the form as it is built, after any sequence of picks in the three
    selects and of answers to the year, month, case and note requests,
    arriving in any order and however late, as long as no list answer makes
    its loader throw.  (A click on a result of the case-name search, which
    sets the selects from the script, is not among these events.) *)
Theorem invoice_enabled_only_when_complete (evs : list event) :
  forallb readable_event evs = true ->
  let st := run NOTE_TEMPLATE_DEFAULT init evs in
  (invoiceDisabled st = false -> complete st = true)
  /\ on_invoice_click st
     = (if invoiceDisabled st then None
        else Some (value (yearSel st), value (monthSel st), value (caseSel st)))
  /\ CaseLookup.wired (noteBtn st) = CaseLookup.visible (noteBtn st)
  /\ CaseLookup.hasNote (noteBtn st) = CaseLookup.visible (noteBtn st)
  /\ CaseLookup.intent_attr (noteBtn st)
     = (if CaseLookup.visible (noteBtn st) then Some Update else None).
Proof.
  intros Hr. cbv zeta.
  destruct (run_actions_ok init evs Hr init_actions_ok) as [Hi Hb].
  set (st := run NOTE_TEMPLATE_DEFAULT init evs) in *.
  split; [exact Hi|]. split.
  - unfold on_invoice_click. destruct (invoiceDisabled st); [reflexivity|].
    specialize (Hi eq_refl). rewrite complete_values in Hi.
    apply andb_true_iff in Hi as [Hi Hc]. apply andb_true_iff in Hi as [Hy Hm].
    apply negb_true_iff in Hy, Hm, Hc. rewrite Hy, Hm, Hc. reflexivity.
  - unfold whole in Hb. destruct (CaseLookup.visible (noteBtn st)) eqn:E;
      rewrite Hb; repeat split; reflexivity.
Qed.

Lemma loaded_clears (st : state) (r : Http.response) :
  readable "months" (Http.Responded r) = true ->
  let st' := fst (loadMonths_resume (Http.Responded r) st) in
  value (monthSel st') = "" /\ disabled (monthSel st') = false
  /\ caseSel st' = reset (caseSel st)
  /\ invoiceDisabled st' = true
  /\ noteBtn st' = hidden_button (noteBtn st)
  /\ snd (loadMonths_resume (Http.Responded r) st) = [].
Proof.
  unfold readable, loadMonths_resume.
  destruct (listed "months" r) as [items|e]; [|discriminate]. intros _. cbv zeta.
  match goal with |- context [updateCaseActions ?s] =>
    destruct (updateCaseActions_spec s) as [E1 E2]; rewrite E1, E2;
    assert (C : complete s = false) by (rewrite complete_values; cbn;
      rewrite andb_false_r; reflexivity)
  end.
  rewrite C. cbn. repeat split; reflexivity.
Qed.

(** X14.  What empties the selects below a changed one, and when.  Picking
    the placeholder of the year select empties and disables the month and
    case selects at once, disables Generate Invoice and hides the note
    button, without any request.  Picking a year only asks for its months:
    month, case, the invoice button and the note button stay as they are
    until the answer arrives, and stay so for good if the request is
    rejected.  The answer, once it arrives, leaves no month selected,
    empties and disables the case select, disables Generate Invoice and
    hides the note button. *)
Theorem year_change_clears_on_arrival (st : state) (v : string) :
  can_pick v (yearSel st) = true ->
  let out := step NOTE_TEMPLATE_DEFAULT st (YearPicked v) in
  (v = "" ->
   monthSel (fst out) = reset (monthSel st)
   /\ caseSel (fst out) = reset (caseSel st)
   /\ invoiceDisabled (fst out) = true
   /\ noteBtn (fst out) = hidden_button (noteBtn st)
   /\ snd out = [])
  /\ (v <> "" ->
      snd out = [GetMonths v]
      /\ fst out = with_year (pick v (yearSel st)) st
      /\ (forall e,
            step NOTE_TEMPLATE_DEFAULT (fst out) (MonthsLoaded (Http.Rejected e))
            = (fst out, []))
      /\ (forall r,
            readable "months" (Http.Responded r) = true ->
            let st' := fst (step NOTE_TEMPLATE_DEFAULT (fst out)
                              (MonthsLoaded (Http.Responded r))) in
            value (yearSel st') = v
            /\ value (monthSel st') = "" /\ disabled (monthSel st') = false
            /\ caseSel st' = reset (caseSel st)
            /\ invoiceDisabled st' = true
            /\ noteBtn st' = hidden_button (noteBtn st))).
Proof.
  intros Hp. cbv zeta. cbn [step]. rewrite Hp. unfold on_year_change.
  cbn [with_year yearSel pick value]. split.
  - intros ->. cbn [String.eqb].
    match goal with |- context [updateCaseActions ?s] =>
      destruct (updateCaseActions_spec s) as [E1 E2]; rewrite E1, E2;
      assert (C : complete s = false) by reflexivity
    end.
    rewrite C. cbn. repeat split; reflexivity.
  - intros Hv. destruct (String.eqb_spec v "") as [E|_]; [contradiction|].
    cbn [fst snd]. split; [reflexivity|]. split; [reflexivity|]. split.
    + intros e. reflexivity.
    + intros r Hr.
      destruct (loaded_clears (with_year (pick v (yearSel st)) st) r Hr)
        as [A [B [C [D [E F]]]]].
      cbv zeta in *. cbn [step].
      split; [|auto].
      unfold loadMonths_resume.
      unfold readable in Hr. destruct (listed "months" r) as [items|e]; [|discriminate].
      match goal with |- context [updateCaseActions ?s] =>
        destruct (updateCaseActions_spec s) as [E1 _]; rewrite E1
      end.
      reflexivity.
Qed.

End CaseCascade.

Lemma invoice_enabled_only_when_complete_witness :
  Cascade.on_invoice_click
    (Cascade.run ""
       Cascade.init
       [Cascade.YearsLoaded
          (Http.Responded (Http.mkResponse 200
             (Some (Json.Obj [("years", Json.Arr [Json.Str "2024"])]))));
        Cascade.YearPicked "2024";
        Cascade.MonthsLoaded
          (Http.Responded (Http.mkResponse 200
             (Some (Json.Obj [("months", Json.Arr [Json.Str "Mar"])]))));
        Cascade.MonthPicked "Mar";
        Cascade.CasesLoaded
          (Http.Responded (Http.mkResponse 200
             (Some (Json.Obj [("cases", Json.Arr [Json.Str "Doe v. Roe"])]))));
        Cascade.CasePicked "Doe v. Roe"])
  = Some ("2024", "Mar", "Doe v. Roe").
Proof.
  destruct (invoice_enabled_only_when_complete ""
       [Cascade.YearsLoaded
          (Http.Responded (Http.mkResponse 200
             (Some (Json.Obj [("years", Json.Arr [Json.Str "2024"])]))));
        Cascade.YearPicked "2024";
        Cascade.MonthsLoaded
          (Http.Responded (Http.mkResponse 200
             (Some (Json.Obj [("months", Json.Arr [Json.Str "Mar"])]))));
        Cascade.MonthPicked "Mar";
        Cascade.CasesLoaded
          (Http.Responded (Http.mkResponse 200
             (Some (Json.Obj [("cases", Json.Arr [Json.Str "Doe v. Roe"])]))));
        Cascade.CasePicked "Doe v. Roe"]) as [_ [H _]].
  - vm_compute. reflexivity.
  - rewrite H. vm_compute. reflexivity.
Defined.

Lemma year_change_clears_on_arrival_witness :
  snd (Cascade.step "" (Cascade.with_year (Cascade.fill [Json.Str "2024"]
                                             (Cascade.yearSel Cascade.init))
                          Cascade.init)
         (Cascade.YearPicked "2024"))
  = [Cascade.GetMonths "2024"].
Proof.
  destruct (year_change_clears_on_arrival ""
              (Cascade.with_year (Cascade.fill [Json.Str "2024"]
                                    (Cascade.yearSel Cascade.init))
                 Cascade.init) "2024") as [_ H].
  - vm_compute. reflexivity.
  - destruct H as [H _]; [discriminate | exact H].
Defined.

(** ** The cards of the case-law search *)

Section CaseLawSurface.

Import CaseLaw CaseLawCards.

Lemma card_remove_not_blank (target : option nat) (v : results_view) :
  card_remove target v <> Cards [].
Proof.
  unfold card_remove.
  destruct v as [t|items]; destruct target as [i|]; try discriminate;
    try (destruct (Results.remove_nth i items); discriminate);
    destruct items; discriminate.
Qed.

Lemma performSearch_resume_blank (f : Http.fetched) (st : state) :
  not_blank st ->
  null_first (SearchDone f) = false ->
  not_blank (fst (performSearch_resume f st)).
Proof.
  unfold not_blank. intros H Hn. destruct f as [e|r]; [exact H|].
  destruct (Http.ok r) eqn:Hok.
  2:{ destruct (ensure_status_failure r Hok) as [e He].
      unfold performSearch_resume. rewrite He. exact H. }
  unfold performSearch_resume, Http.ensure_status, Http.json_or.
  cbn [null_first] in Hn. rewrite Hok in *. cbn [negb andb Js.bind] in *.
  destruct (Http.body r) as [[|b|n|t|l|fields]|]; cbn; try exact H;
    try discriminate.
  destruct (Json.lookup "results" fields) as [[|b|n|t|[|[|b|n|t|l'|fs] l]|fs]|];
    try discriminate Hn; cbn;
    repeat match goal with
      | |- context [if ?c then _ else _] => destruct c; cbn
      | |- context [match ?o with Some _ => _ | None => _ end] => destruct o; cbn
      end;
    discriminate.
Qed.

Lemma performSearch_resume_null_first (r : Http.response) (st : state) :
  null_first (SearchDone (Http.Responded r)) = true ->
  performSearch_resume (Http.Responded r) st
  = ({| view := Cards []; yearOptions := yearOptions st |},
     [Alert ("Search failed: " ++ Js.message_or_self (Js.null_read "petitioner"))]).
Proof.
  unfold performSearch_resume, Http.ensure_status, Http.json_or.
  cbn [null_first]. intros Hn. apply andb_true_iff in Hn as [Hok Hn].
  rewrite Hok. cbn [negb Js.bind].
  destruct (Http.body r) as [[|b|n|t|l|fields]|]; try discriminate Hn.
  cbn [Js.prop Js.bind].
  destruct (Json.lookup "results" fields) as [[|b|n|t|[|[|b|n|t|l'|fs] l]|fs]|];
    try discriminate Hn.
  reflexivity.
Qed.

Lemma step_not_blank_cards (st : state) (e : event) :
  null_first e = false -> not_blank st -> not_blank (fst (step st e)).
Proof.
  intros Hn H. destruct e as [f|target f|]; cbn [step].
  - apply performSearch_resume_blank; assumption.
  - unfold not_blank in *. unfold on_delete_response.
    destruct (Notes.checked f); [|exact H].
    cbn. apply card_remove_not_blank.
  - cbn. discriminate.
Qed.

(** X15.  [#cls-results] has something to read, but for one kind of
    answer: after any sequence of searches, card deletions and clicks on
    Reset in which no 2xx search answer has [null] for its first result it
    shows cards or a line of text, never an empty list; a deletion that
    removes the last card puts "No case law found." in its place.  A
    deletion that fails (a rejected request, a status outside 2xx, a body
    without a truthy [ok]) leaves the cards and the year options as they
    are and alerts once.  A 2xx search answer whose first result is [null]
    does leave the list empty, with the alert [Search failed: ...] and the
    year options untouched. *)
Theorem case_law_results_never_blank (st : state) (evs : list event) :
  not_blank st ->
  forallb (fun e => negb (null_first e)) evs = true ->
  not_blank (run st evs)
  /\ (forall target f,
        Http.failed f = true ->
        exists msg, step st (CardDeleteDone target f)
                    = (st, [Alert ("Delete failed: " ++ msg)]))
  /\ (forall x r,
        view st = Cards [x] -> Http.is_failure r = false ->
        step st (CardDeleteDone (Some 0%nat) (Http.Responded r))
        = ({| view := ViewText "No case law found.";
              yearOptions := yearOptions st |}, []))
  /\ (forall e,
        null_first e = true ->
        step st e
        = ({| view := Cards []; yearOptions := yearOptions st |},
           [Alert ("Search failed: "
                   ++ Js.message_or_self (Js.null_read "petitioner"))])).
Proof.
  intros H Hevs. split; [|split; [|split]].
  - revert st H. induction evs as [|e evs IH]; intros st H; [exact H|].
    cbn [forallb] in Hevs. apply andb_true_iff in Hevs as [He Hr].
    apply negb_true_iff in He.
    apply IH; [exact Hr|]. apply step_not_blank_cards; assumption.
  - intros target f Hf. destruct (checked_failed f Hf) as [e He].
    exists (Js.message_or_self e). cbn [step]. unfold on_delete_response.
    rewrite He. reflexivity.
  - intros x r Hv Hr. destruct (ensure_ok_success r Hr) as [fields [_ [_ E]]].
    cbn [step]. unfold on_delete_response. cbn [Notes.checked].
    rewrite E, Hv. reflexivity.
  - intros e He. destruct e as [[e|r]|target f|]; try discriminate He.
    cbn [step]. apply performSearch_resume_null_first, He.
Qed.

End CaseLawSurface.

Lemma case_law_results_never_blank_witness :
  let page := CaseLaw.mkState (CaseLaw.Cards [Json.Obj [("id", Json.Num 7)]]) [] in
  let answer :=
    Http.Responded
      {| Http.status := 200;
         Http.body :=
           Some (Json.Obj [("results",
                            Json.Arr [Json.Null; Json.Obj [("id", Json.Num 8)]])]) |} in
  CaseLawCards.not_blank
    (CaseLawCards.run page
       [CaseLawCards.CardDeleteDone (Some 0%nat) (Http.Responded Examples.ok_answer);
        CaseLawCards.ResetClick])
  /\ CaseLaw.view (fst (CaseLawCards.step page (CaseLawCards.SearchDone answer)))
     = CaseLaw.Cards [].
Proof.
  cbv zeta.
  destruct (case_law_results_never_blank
           (CaseLaw.mkState (CaseLaw.Cards [Json.Obj [("id", Json.Num 7)]]) [])
           [CaseLawCards.CardDeleteDone (Some 0%nat) (Http.Responded Examples.ok_answer);
            CaseLawCards.ResetClick]) as [H [_ [_ Hn]]].
  - vm_compute. discriminate.
  - vm_compute. reflexivity.
  - split; [exact H|].
    match goal with
    | |- CaseLaw.view (fst (CaseLawCards.step _ ?e)) = _ =>
        refine (eq_trans (f_equal (fun x => CaseLaw.view (fst x)) (Hn e eq_refl)) _)
    end.
    reflexivity.
Defined.

(** ** The theme *)

Section ThemeFacts.

Import Theme.

Lemma applyTheme_themed (theme : string) (st : state) :
  theme = "light" \/ theme = "dark" -> themed (applyTheme theme st).
Proof.
  intros H. split; cbn.
  - destruct H as [-> | ->]; auto.
  - intros ->. reflexivity.
Qed.

Lemma start_themed (button : bool) (saved : option string) (prefersDark : option bool) :
  themed (start button saved prefersDark).
Proof.
  assert (H : themed (initTheme prefersDark (page button saved))).
  { unfold initTheme. cbn [page stored].
    destruct saved as [s|].
    - destruct (String.eqb_spec s "light") as [->|Hl]; cbn [orb].
      + apply applyTheme_themed. auto.
      + destruct (String.eqb_spec s "dark") as [->|Hd].
        * apply applyTheme_themed. auto.
        * apply applyTheme_themed. destruct prefersDark as [[|]|]; auto.
    - apply applyTheme_themed. destruct prefersDark as [[|]|]; auto. }
  unfold start, setupThemeToggle.
  destruct (has_button (initTheme prefersDark (page button saved))) eqn:E;
    cbn [negb]; [|exact H].
  destruct H as [Ht Hi]. split; cbn; [exact Ht | intros _; exact (Hi E)].
Qed.

Lemma step_themed (st : state) (e : event) : themed st -> themed (step st e).
Proof.
  intros H. destruct e as [|m]; cbn [step].
  - unfold on_toggle. destruct (has_button st) eqn:E; cbn [negb]; [|exact H].
    destruct H as [[Ht|Ht] _]; rewrite Ht; cbn; split; cbn; auto;
      intros _; rewrite E; reflexivity.
  - unfold on_scheme_change. destruct (follows_system st); [|exact H].
    apply applyTheme_themed. destruct m; auto.
Qed.

Lemma run_themed (st : state) (evs : list event) : themed st -> themed (run st evs).
Proof.
  revert st. induction evs as [|e evs IH]; intros st H; [exact H|].
  apply IH, step_themed, H.
Qed.

Lemma start_saved_quiet (button : bool) (saved : string) (prefersDark : option bool) :
  is_theme saved = true ->
  let st := start button (Some saved) prefersDark in
  follows_system st = false /\ stored st = data_theme st.
Proof.
  unfold is_theme. intros H. cbv zeta. unfold start, initTheme.
  cbn [page stored]. rewrite H. unfold setupThemeToggle. cbn [applyTheme has_button page].
  destruct button; cbn [negb]; cbn; [|auto].
  destruct (String.eqb_spec saved "") as [->|Hne]; [discriminate H|]. auto.
Qed.

Lemma step_saved_quiet (st : state) (e : event) :
  follows_system st = false /\ stored st = data_theme st ->
  follows_system (step st e) = false /\ stored (step st e) = data_theme (step st e).
Proof.
  intros [Hf Hs]. destruct e as [|m]; cbn [step].
  - unfold on_toggle. destruct (has_button st); cbn; auto.
  - unfold on_scheme_change. rewrite Hf. auto.
Qed.

Lemma step_has_button (st : state) (e : event) :
  has_button (step st e) = has_button st.
Proof.
  destruct e as [|m]; cbn [step].
  - unfold on_toggle. destruct (has_button st) eqn:E; cbn; congruence.
  - unfold on_scheme_change. destruct (follows_system st); reflexivity.
Qed.

Lemma run_has_button (st : state) (evs : list event) :
  has_button (run st evs) = has_button st.
Proof.
  revert st. induction evs as [|e evs IH]; intros st; [reflexivity|].
  cbn [run fold_left]. fold (run (step st e) evs).
  rewrite IH. apply step_has_button.
Qed.

Lemma start_has_button (button : bool) (saved : option string) (prefersDark : option bool) :
  has_button (start button saved prefersDark) = button.
Proof.
  unfold start, setupThemeToggle, initTheme. cbn [page stored].
  destruct saved as [s|]; [destruct (String.eqb s "light" || String.eqb s "dark")|];
    cbn [applyTheme has_button page]; destruct button; reflexivity.
Qed.

Lemma run_saved_quiet (st : state) (evs : list event) :
  follows_system st = false /\ stored st = data_theme st ->
  stored (run st evs) = data_theme (run st evs).
Proof.
  revert st. induction evs as [|e evs IH]; intros st H; [apply H|].
  cbn [run fold_left]. fold (run (step st e) evs).
  apply IH, step_saved_quiet, H.
Qed.

(** X16.  Once the page has started, the document always carries one of
    the two themes, whatever was stored (another word, nothing) and
    whatever the system prefers, and the toggle button shows the sun in the
    dark theme and the moon in the light one.  Two clicks on the toggle give
    the theme back, and each click stores the theme it sets.  If a valid
    theme was stored when the page started, the page never follows the
    system's colour scheme, so the theme shown is always the one stored. *)
Theorem theme_is_light_or_dark
    (button : bool) (saved : option string) (prefersDark : option bool)
    (evs : list event) :
  let st := run (start button saved prefersDark) evs in
  (data_theme st = Some "light" \/ data_theme st = Some "dark")
  /\ (button = true ->
      button_icon st
      = Some (if String.eqb (match data_theme st with Some t => t | None => "" end) "dark"
              then Sun else Moon)
      /\ stored (on_toggle st) = data_theme (on_toggle st)
      /\ data_theme (on_toggle st) <> data_theme st
      /\ data_theme (on_toggle (on_toggle st)) = data_theme st)
  /\ (forall s, saved = Some s -> is_theme s = true ->
      stored st = data_theme st).
Proof.
  cbv zeta.
  pose proof (run_themed _ evs (start_themed button saved prefersDark)) as [Ht Hi].
  assert (Hb : has_button (run (start button saved prefersDark) evs) = button)
    by (rewrite run_has_button; apply start_has_button).
  set (st := run (start button saved prefersDark) evs) in *.
  split; [exact Ht|]. split.
  - intros ->. split; [exact (Hi Hb)|].
    unfold on_toggle. rewrite Hb. cbn [negb].
    destruct Ht as [E|E]; rewrite E; cbn; rewrite ?Hb; cbn;
      repeat split; try reflexivity; discriminate.
  - intros s -> Hs.
    apply run_saved_quiet. apply (start_saved_quiet button s prefersDark Hs).
Qed.

End ThemeFacts.

Lemma theme_is_light_or_dark_witness :
  Theme.stored
    (Theme.run (Theme.start true (Some "dark") (Some false))
       [Theme.ToggleClick; Theme.SchemeChange true])
  = Some "light".
Proof.
  destruct (theme_is_light_or_dark true (Some "dark") (Some false)
              [Theme.ToggleClick; Theme.SchemeChange true]) as [_ [_ H]].
  rewrite (H "dark"); [vm_compute; reflexivity | reflexivity | reflexivity].
Defined.

(** ** Trimming, and the case name of the create form *)

Section Trimming.

Import JsText.

Lemma trimStart_head (l : list ascii) :
  match trimStart l with
  | [] => True
  | c :: _ => is_space c = false
  end.
Proof.
  induction l as [|c r IH]; [exact I|]. cbn [trimStart].
  destruct (is_space c) eqn:E; [exact IH | exact E].
Qed.

Lemma trimStart_fixed (l : list ascii) :
  match l with [] => True | c :: _ => is_space c = false end ->
  trimStart l = l.
Proof. destruct l as [|c r]; [reflexivity|]. cbn. intros ->. reflexivity. Qed.

Lemma trimStart_idempotent (l : list ascii) : trimStart (trimStart l) = trimStart l.
Proof. apply trimStart_fixed, trimStart_head. Qed.

Lemma trimStart_blank (l : list ascii) :
  trimStart l = [] <-> Forall (fun c => is_space c = true) l.
Proof.
  induction l as [|c r IH]; [split; auto|]. cbn [trimStart].
  destruct (is_space c) eqn:E; split; intros H.
  - constructor; [exact E | apply IH, H].
  - apply IH. inversion H; assumption.
  - discriminate H.
  - inversion H; congruence.
Qed.

Lemma trimStart_snoc (l : list ascii) (c : ascii) :
  is_space c = false -> trimStart (l ++ [c]) = trimStart l ++ [c].
Proof.
  intros Hc. induction l as [|x r IH]; cbn [app trimStart].
  - rewrite Hc. reflexivity.
  - destruct (is_space x); [exact IH | reflexivity].
Qed.

Lemma trimStart_suffix (l : list ascii) : exists p, l = p ++ trimStart l.
Proof.
  induction l as [|c r [p IH]]; [exists []; reflexivity|]. cbn [trimStart].
  destruct (is_space c); [exists (c :: p); cbn; f_equal; exact IH | exists []; reflexivity].
Qed.

(** The head of a list that ends in a character that is no white space
    still is no white space after the white space at its end is cut. *)
Lemma trimEnd_head (l : list ascii) :
  match l with [] => True | c :: _ => is_space c = false end ->
  match trimEnd l with [] => l = [] | c :: _ => is_space c = false end.
Proof.
  unfold trimEnd. intros H. destruct l as [|c r]; [reflexivity|].
  destruct (trimStart_suffix (rev (c :: r))) as [p Hp].
  destruct (trimStart (rev (c :: r))) as [|x t] eqn:E.
  - apply trimStart_blank in E. rewrite Forall_forall in E.
    specialize (E c). rewrite <- in_rev in E. specialize (E (or_introl eq_refl)).
    congruence.
  - assert (Hr : c :: r = rev (x :: t) ++ rev p).
    { rewrite <- rev_app_distr, <- Hp, rev_involutive. reflexivity. }
    destruct (rev (x :: t)) as [|y u] eqn:Ey.
    + apply (f_equal (@List.length ascii)) in Ey. rewrite length_rev in Ey. discriminate Ey.
    + cbn in Hr. injection Hr as <- _. exact H.
Qed.

Lemma last_rev_cons {A} (x : A) (t : list A) (d : A) : last (rev (x :: t)) d = x.
Proof. cbn [rev]. apply last_last. Qed.

Lemma trim_chars_tight (l : list ascii) : tight (trim_chars l).
Proof.
  unfold trim_chars, tight.
  pose proof (trimEnd_head (trimStart l) (trimStart_head l)) as Hh.
  destruct (trimEnd (trimStart l)) as [|c r] eqn:E; [exact I|].
  split; [exact Hh|].
  unfold trimEnd in E.
  pose proof (trimStart_head (rev (trimStart l))) as Hl.
  destruct (trimStart (rev (trimStart l))) as [|x t] eqn:Ex; [discriminate E|].
  rewrite <- E. rewrite last_rev_cons. exact Hl.
Qed.

Lemma trimEnd_fixed (l : list ascii) :
  match rev l with [] => True | c :: _ => is_space c = false end ->
  trimEnd l = l.
Proof.
  intros H. unfold trimEnd. rewrite trimStart_fixed by exact H.
  apply rev_involutive.
Qed.

Lemma trim_chars_fixed (l : list ascii) : tight l -> trim_chars l = l.
Proof.
  unfold tight, trim_chars. destruct l as [|c r]; [reflexivity|].
  intros [Hc Hl]. rewrite trimStart_fixed by exact Hc.
  apply trimEnd_fixed.
  destruct (rev (c :: r)) as [|x t] eqn:E; [exact I|].
  assert (E' : c :: r = rev (x :: t)) by (rewrite <- E, rev_involutive; reflexivity).
  rewrite E' in Hl. rewrite last_rev_cons in Hl. exact Hl.
Qed.

Lemma trim_chars_idempotent (l : list ascii) :
  trim_chars (trim_chars l) = trim_chars l.
Proof. apply trim_chars_fixed, trim_chars_tight. Qed.

Lemma trim_chars_blank (l : list ascii) :
  trim_chars l = [] <-> Forall (fun c => is_space c = true) l.
Proof.
  unfold trim_chars. split.
  - intros H. apply trimStart_blank.
    pose proof (trimEnd_head (trimStart l) (trimStart_head l)) as Hh.
    rewrite H in Hh. exact Hh.
  - intros H. apply trimStart_blank in H. rewrite H. reflexivity.
Qed.

Lemma trim_idempotent (s : string) : trim (trim s) = trim s.
Proof.
  unfold trim. rewrite list_ascii_of_string_of_list_ascii, trim_chars_idempotent.
  reflexivity.
Qed.

Lemma trim_blank (s : string) : trim s = "" <-> blank s.
Proof.
  unfold trim, blank. rewrite <- trim_chars_blank. split.
  - intros H. apply (f_equal list_ascii_of_string) in H.
    rewrite list_ascii_of_string_of_list_ascii in H. exact H.
  - intros ->. reflexivity.
Qed.

Lemma trim_tight (s : string) : tight (list_ascii_of_string (trim s)).
Proof.
  unfold trim. rewrite list_ascii_of_string_of_list_ascii. apply trim_chars_tight.
Qed.

End Trimming.

Section CaseName.

Import JsText CreateCase.

Lemma run_named (st : state) (evs : list event) : named st -> named (run st evs).
Proof.
  revert st. induction evs as [|e evs IH]; intros st H; [exact H|].
  apply IH. destruct e; split; reflexivity.
Qed.

(** X17.  The case name the create form submits is made of the party
    names it submits: after any sequence of edits of the two name fields, a
    click on Create Case either alerts and sends nothing, exactly when one
    of the names is empty or white space only, or sends as case name the
    trimmed petitioner name, " v. " and the trimmed respondent name, both
    non-empty and the same texts it sends as party names.  The preview
    always shows the name that would be sent. *)
Theorem case_name_is_made_of_the_parties (evs : list event) :
  let st := run init evs in
  cc_name_preview st = cc_name st
  /\ ((exists a, on_submit st = NameMissing a) <-> blank (pn st) \/ blank (rn st))
  /\ (forall caseName p r,
        on_submit st = CreateCaseRequest caseName p r ->
        caseName = (p ++ " v. " ++ r)%string
        /\ p = trim (pn st) /\ r = trim (rn st)
        /\ p <> "" /\ r <> ""
        /\ tight (list_ascii_of_string p) /\ tight (list_ascii_of_string r)).
Proof.
  cbv zeta.
  assert (H0 : named init) by (split; reflexivity).
  destruct (run_named init evs H0) as [Hn Hp].
  set (st := run init evs) in *.
  split; [exact Hp|].
  assert (Hcases :
    (trim (pn st) = "" \/ trim (rn st) = "") /\ cc_name st = ""
    \/ trim (pn st) <> "" /\ trim (rn st) <> ""
       /\ cc_name st = (trim (pn st) ++ " v. " ++ trim (rn st))%string).
  { destruct (String.eqb_spec (trim (pn st)) "") as [E1|E1];
      destruct (String.eqb_spec (trim (rn st)) "") as [E2|E2];
      cbn [negb andb] in Hn; auto. }
  unfold on_submit. split.
  - rewrite <- !trim_blank. split.
    + intros [a Ha]. destruct Hcases as [[Hb _]|[H1 [H2 Hc]]]; [exact Hb|].
      rewrite Hc in Ha. destruct (trim (pn st)); [contradiction | discriminate Ha].
    + intros Hb. destruct Hcases as [[_ Hc]|[H1 [H2 _]]]; [|tauto].
      rewrite Hc. eexists. reflexivity.
  - intros caseName p r Hs.
    destruct Hcases as [[_ Hc]|[H1 [H2 Hc]]]; rewrite Hc in Hs.
    + discriminate Hs.
    + destruct (trim (pn st)) as [|c t] eqn:Ep; [contradiction|].
      cbn [String.eqb append] in Hs. injection Hs as <- <- <-.
      rewrite <- Ep. repeat split; try assumption; try apply trim_tight.
      * rewrite Ep. reflexivity.
      * rewrite Ep. discriminate.
Qed.

End CaseName.

Lemma case_name_is_made_of_the_parties_witness :
  CreateCase.on_submit
    (CreateCase.run CreateCase.init
       [CreateCase.InputPetitioner "  Doe "; CreateCase.InputRespondent "Roe"])
  = CreateCase.CreateCaseRequest "Doe v. Roe" "Doe" "Roe"
  /\ "Doe"
     = JsText.trim
         (CreateCase.pn
            (CreateCase.run CreateCase.init
               [CreateCase.InputPetitioner "  Doe "; CreateCase.InputRespondent "Roe"])).
Proof.
  assert (E : CreateCase.on_submit
                (CreateCase.run CreateCase.init
                   [CreateCase.InputPetitioner "  Doe "; CreateCase.InputRespondent "Roe"])
              = CreateCase.CreateCaseRequest "Doe v. Roe" "Doe" "Roe")
    by (vm_compute; reflexivity).
  split; [exact E|].
  destruct (case_name_is_made_of_the_parties
              [CreateCase.InputPetitioner "  Doe "; CreateCase.InputRespondent "Roe"])
    as [_ [_ H]].
  apply (H "Doe v. Roe" "Doe" "Roe" E).
Defined.

(** ** The invoice page *)

Section AmountField.

Import Invoice.

Local Abbreviation digit := (fun c => is_digit c = true).
Local Abbreviation digit_or_dot := (fun c => is_digit c || is_dot c = true).

Lemma digit_no_dot (c : ascii) : is_digit c = true -> is_dot c = false.
Proof.
  unfold is_dot. destruct (Ascii.eqb_spec c ".") as [->|_]; [|reflexivity].
  vm_compute. discriminate.
Qed.

Lemma clean_chars (l : list ascii) : Forall digit_or_dot (clean l).
Proof.
  apply Forall_forall. intros c Hc. apply filter_In in Hc. apply Hc.
Qed.

Lemma before_dot_digits (l : list ascii) :
  Forall digit_or_dot l -> Forall digit (before_dot l).
Proof.
  induction 1 as [|c r Hc _ IH]; [constructor|]. cbn [before_dot].
  destruct (is_dot c) eqn:E; [constructor|].
  rewrite orb_false_r in Hc. constructor; assumption.
Qed.

Lemma after_dot_chars (l : list ascii) :
  Forall digit_or_dot l -> Forall digit_or_dot (after_dot l).
Proof.
  induction 1 as [|c r Hc Hr IH]; [constructor|]. cbn [after_dot].
  destruct (is_dot c); assumption.
Qed.

Lemma no_dots_digits (l : list ascii) :
  Forall digit_or_dot l -> Forall digit (no_dots l).
Proof.
  induction 1 as [|c r Hc _ IH]; [constructor|]. cbn [no_dots filter].
  fold (no_dots r). destruct (is_dot c) eqn:E; cbn [negb]; [exact IH|].
  rewrite orb_false_r in Hc. constructor; assumption.
Qed.

Lemma firstn_Forall {A} (P : A -> Prop) (n : nat) (l : list A) :
  Forall P l -> Forall P (firstn n l).
Proof.
  intros H. revert n. induction H as [|x r Hx _ IH]; intros [|n]; cbn;
    constructor; auto.
Qed.

Lemma amount_input_shape (text : list ascii) : amount_shape (amount_input text).
Proof.
  unfold amount_input.
  pose proof (clean_chars text) as Hc.
  pose proof (before_dot_digits _ Hc) as Hi.
  pose proof (firstn_Forall _ 2 _ (no_dots_digits _ (after_dot_chars _ Hc))) as Hf.
  assert (Hl : (List.length (firstn 2 (no_dots (after_dot (clean text)))) <= 2)%nat)
    by apply firstn_le_length.
  destruct (firstn 2 (no_dots (after_dot (clean text)))) as [|x f].
  - rewrite andb_false_r. cbn [negb is_empty].
    exists (before_dot (clean text)), []. rewrite app_nil_r.
    repeat split; auto; try (intros H; contradiction).
  - cbn [negb is_empty]. rewrite andb_true_r.
    destruct (before_dot (clean text)) as [|y i]; cbn [is_empty].
    + exists ["0"%char], (x :: f). repeat split; auto; try discriminate.
    + exists (y :: i), (x :: f). repeat split; auto; discriminate.
Qed.

Lemma clean_fixed (l : list ascii) : Forall digit_or_dot l -> clean l = l.
Proof.
  induction 1 as [|c r Hc _ IH]; [reflexivity|]. cbn [clean filter].
  rewrite Hc. fold (clean r). rewrite IH. reflexivity.
Qed.

Lemma no_dots_fixed (l : list ascii) : Forall digit l -> no_dots l = l.
Proof.
  induction 1 as [|c r Hc _ IH]; [reflexivity|]. cbn [no_dots filter].
  rewrite (digit_no_dot c Hc). cbn [negb]. fold (no_dots r). rewrite IH. reflexivity.
Qed.

Lemma before_dot_app (i rest : list ascii) :
  Forall digit i -> before_dot (i ++ "."%char :: rest) = i.
Proof.
  induction 1 as [|c r Hc _ IH]; [reflexivity|]. cbn [app before_dot].
  rewrite (digit_no_dot c Hc), IH. reflexivity.
Qed.

Lemma after_dot_app (i rest : list ascii) :
  Forall digit i -> after_dot (i ++ "."%char :: rest) = rest.
Proof.
  induction 1 as [|c r Hc _ IH]; [reflexivity|]. cbn [app after_dot].
  rewrite (digit_no_dot c Hc), IH. reflexivity.
Qed.

Lemma before_dot_digits_fixed (i : list ascii) :
  Forall digit i -> before_dot i = i /\ after_dot i = [].
Proof.
  induction 1 as [|c r Hc _ [IH1 IH2]]; [auto|]. cbn [before_dot after_dot].
  rewrite (digit_no_dot c Hc), IH1, IH2. auto.
Qed.

Lemma digits_are_chars (l : list ascii) : Forall digit l -> Forall digit_or_dot l.
Proof.
  intros H. eapply Forall_impl; [|exact H]. cbn. intros c ->. reflexivity.
Qed.

Lemma amount_input_fixed (l : list ascii) : amount_shape l -> amount_input l = l.
Proof.
  intros [i [f [-> [Hi [Hf [Hl Hne]]]]]]. unfold amount_input.
  destruct f as [|x f].
  - rewrite app_nil_r. rewrite clean_fixed by (apply digits_are_chars, Hi).
    destruct (before_dot_digits_fixed i Hi) as [-> ->]. cbn.
    rewrite andb_false_r. reflexivity.
  - rewrite clean_fixed.
    2:{ apply Forall_app. split; [apply digits_are_chars, Hi|].
        constructor; [reflexivity | apply digits_are_chars, Hf]. }
    rewrite before_dot_app, after_dot_app by exact Hi.
    rewrite no_dots_fixed by exact Hf.
    rewrite firstn_all2 by exact Hl.
    cbn [is_empty negb]. rewrite andb_true_r.
    destruct i as [|y i]; [exfalso; apply Hne; [discriminate | reflexivity]|].
    reflexivity.
Qed.

Lemma amount_input_decimal (i f : list ascii) :
  Forall digit i -> Forall digit f -> i <> [] -> f <> [] ->
  amount_input (i ++ "."%char :: f) = i ++ "."%char :: firstn 2 f.
Proof.
  intros Hi Hf Hni Hnf. unfold amount_input.
  rewrite clean_fixed.
  2:{ apply Forall_app. split; [apply digits_are_chars, Hi|].
      constructor; [reflexivity | apply digits_are_chars, Hf]. }
  rewrite before_dot_app, after_dot_app by exact Hi.
  rewrite no_dots_fixed by exact Hf.
  destruct f as [|x f]; [contradiction|].
  destruct i as [|y i]; [contradiction|].
  reflexivity.
Qed.

(** X18.  Whatever is typed or pasted into an amount field, the [input]
    listener leaves digits in it, or digits, a dot and one or two digits,
    with at least one digit before the dot.  A text of that shape, with or
    without a fraction, is left as it is, so the listener changes nothing
    when it runs again; of a longer fraction the first two digits are kept.
    A dot at the end of the digits does not survive: typed after [12], it
    is taken out at once. *)
Theorem amount_field_keeps_a_decimal_shape (text : list ascii) :
  amount_shape (amount_input text)
  /\ amount_input (amount_input text) = amount_input text
  /\ (amount_shape text -> amount_input text = text)
  /\ (Forall (fun c => is_digit c = true) text ->
      amount_input text = text
      /\ amount_input (text ++ ["."%char]) = text
      /\ (forall fraction,
            text <> [] -> fraction <> [] ->
            Forall (fun c => is_digit c = true) fraction ->
            amount_input (text ++ "."%char :: fraction)
            = text ++ "."%char :: firstn 2 fraction)).
Proof.
  split; [apply amount_input_shape|]. split; [|split].
  - apply amount_input_fixed, amount_input_shape.
  - apply amount_input_fixed.
  - intros Hd. split; [|split].
    + apply amount_input_fixed. exists text, []. rewrite app_nil_r.
      repeat split; auto; try (intros H; contradiction).
    + unfold amount_input. rewrite clean_fixed.
      2:{ apply Forall_app. split; [apply digits_are_chars, Hd|].
          constructor; [reflexivity | constructor]. }
      rewrite before_dot_app, after_dot_app by exact Hd. cbn.
      rewrite andb_false_r. reflexivity.
    + intros fraction Ht Hf Hfd. apply amount_input_decimal; assumption.
Qed.

End AmountField.

Lemma amount_field_keeps_a_decimal_shape_witness :
  Invoice.amount_input (list_ascii_of_string "12" ++ ["."%char])
  = list_ascii_of_string "12"
  /\ Invoice.amount_input (list_ascii_of_string "12.5") = list_ascii_of_string "12.5"
  /\ Invoice.amount_input (list_ascii_of_string "12" ++ "."%char :: list_ascii_of_string "507")
     = list_ascii_of_string "12.50".
Proof.
  destruct (amount_field_keeps_a_decimal_shape (list_ascii_of_string "12"))
    as [_ [_ [_ H]]].
  destruct H as [_ [H1 H2]]; [repeat constructor|].
  split; [exact H1|]. split.
  - destruct (amount_field_keeps_a_decimal_shape (list_ascii_of_string "12.5"))
      as [_ [_ [H _]]].
    apply H. exists (list_ascii_of_string "12"), (list_ascii_of_string "5").
    repeat split; try (repeat constructor); discriminate.
  - refine (eq_trans (H2 (list_ascii_of_string "507") _ _ _) _);
      try discriminate; repeat constructor.
Defined.

Section FileNames.

Import Invoice JsText.

Local Abbreviation kept := (fun c => keep c = true).

Lemma keep_plain (c : ascii) :
  keep c = true -> is_space c = false /\ lower c = c.
Proof.
  destruct c as [[] [] [] [] [] [] [] []]; vm_compute; intros H;
    first [discriminate H | split; reflexivity].
Qed.

Lemma last_Forall {A} (P : A -> Prop) (l : list A) (d : A) :
  Forall P l -> P d -> P (last l d).
Proof.
  induction 1 as [|x r Hx Hr IH]; intros Hd; [exact Hd|].
  destruct r as [|y r]; [exact Hx|]. apply IH, Hd.
Qed.

Lemma kept_fixed (l : list ascii) : Forall kept l -> sanitizeForFilename l = l.
Proof.
  intros H. unfold sanitizeForFilename.
  rewrite trim_chars_fixed.
  2:{ unfold tight. destruct l as [|c r]; [exact I|].
      assert (Hs : Forall (fun c => is_space c = false) (c :: r))
        by (eapply Forall_impl; [|exact H]; intros a Ha; apply keep_plain, Ha).
      split; [inversion Hs; assumption|].
      apply (last_Forall (fun c => is_space c = false)); [exact Hs|].
      inversion Hs; assumption. }
  assert (Hm : map lower l = l).
  { induction H as [|c r Hc _ IH]; [reflexivity|]. cbn [map].
    rewrite (proj2 (keep_plain c Hc)), IH. reflexivity. }
  rewrite Hm.
  assert (Hd : forall b, dash_spaces b l = l).
  { induction H as [|c r Hc _ IH]; intros b; [reflexivity|]. cbn [dash_spaces].
    rewrite (proj1 (keep_plain c Hc)), IH by (inversion Hm; congruence).
    reflexivity. }
  rewrite Hd.
  clear Hm Hd. induction H as [|c r Hc _ IH]; [reflexivity|]. cbn [filter].
  rewrite Hc, IH. reflexivity.
Qed.

Lemma sanitize_kept (l : list ascii) : Forall kept (sanitizeForFilename l).
Proof.
  apply Forall_forall. intros c Hc. apply filter_In in Hc. apply Hc.
Qed.

Lemma join_kept (parts : list (list ascii)) :
  Forall (Forall kept) parts -> Forall kept (join_underscore parts).
Proof.
  induction 1 as [|p rest Hp Hr IH]; [constructor|]. cbn [join_underscore].
  destruct rest as [|q rest]; [exact Hp|].
  apply Forall_app. split; [exact Hp|]. constructor; [reflexivity | exact IH].
Qed.

Lemma lower_kept (l : list ascii) : Forall kept l -> map lower l = l.
Proof.
  induction 1 as [|c r Hc _ IH]; [reflexivity|]. cbn [map].
  rewrite (proj2 (keep_plain c Hc)), IH. reflexivity.
Qed.

Lemma dash_spaces_kept (l rest : list ascii) (in_run : bool) :
  Forall kept l ->
  dash_spaces in_run (l ++ rest)
  = l ++ dash_spaces (match l with [] => in_run | _ => false end) rest.
Proof.
  intros H. revert in_run. induction H as [|c r Hc _ IH]; intros in_run;
    [reflexivity|].
  cbn [app dash_spaces]. rewrite (proj1 (keep_plain c Hc)), IH.
  destruct r; reflexivity.
Qed.

Lemma filter_kept (l : list ascii) : Forall kept l -> filter keep l = l.
Proof.
  induction 1 as [|c r Hc _ IH]; [reflexivity|]. cbn [filter].
  rewrite Hc, IH. reflexivity.
Qed.

Lemma last_app_cons {A} (l : list A) (x : A) (r : list A) (d : A) :
  last (l ++ x :: r) d = last (x :: r) d.
Proof.
  induction l as [|y l IH]; [reflexivity|].
  cbn [app]. change (last (y :: l ++ x :: r) d)
    with (match l ++ x :: r with [] => y | _ :: _ => last (l ++ x :: r) d end).
  destruct (l ++ x :: r) eqn:E; [destruct l; discriminate E|].
  exact IH.
Qed.

(** White space between two words becomes one dash. *)
Lemma sanitize_two_words (first second : list ascii) :
  Forall kept first -> Forall kept second -> first <> [] -> second <> [] ->
  sanitizeForFilename (first ++ " "%char :: second)
  = first ++ "-"%char :: second.
Proof.
  intros Ha Hb Hna Hnb. unfold sanitizeForFilename.
  rewrite trim_chars_fixed.
  2:{ destruct first as [|c a]; [contradiction|]. cbn [app tight].
      split; [inversion Ha; apply keep_plain; assumption|].
      change (c :: a ++ " "%char :: second)
        with ((c :: a) ++ " "%char :: second).
      rewrite last_app_cons.
      destruct second as [|d b]; [contradiction|].
      change (last (" "%char :: d :: b) c) with (last (d :: b) c).
      apply (last_Forall (fun c => is_space c = false)).
      - eapply Forall_impl; [|exact Hb]. intros x Hx. apply keep_plain, Hx.
      - inversion Ha; apply keep_plain; assumption. }
  rewrite map_app. cbn [map]. rewrite (lower_kept _ Ha), (lower_kept _ Hb).
  rewrite (dash_spaces_kept first _ false Ha).
  assert (Hd : dash_spaces true second = second).
  { rewrite <- (app_nil_r second) at 1.
    rewrite (dash_spaces_kept second [] true Hb). apply app_nil_r. }
  replace (dash_spaces (match first with [] => false | _ => false end)
             (lower " " :: second))
    with ("-"%char :: second).
  2:{ destruct first; cbn; rewrite Hd; reflexivity. }
  apply filter_kept. apply Forall_app. split; [exact Ha|].
  constructor; [reflexivity | exact Hb].
Qed.

(** X19.  The file name the invoice page suggests for the PDF is safe to
    use as one: it is a non-empty base followed by [.pdf], and as long as
    the date stamp consists of digits and dashes the base holds nothing but
    lower-case letters, digits, [_] and [-] (no slash, no dot, no space),
    whatever the invoice number, the client name and the invoice date are.
    When these three are non-empty texts of such characters already, the
    base is the three joined by [_].  [sanitizeForFilename], which makes
    the parts, leaves a text of such characters as it is, so sanitizing
    twice is sanitizing once, and it puts one dash for the space between
    two words. *)
Theorem suggested_filename_is_safe
    (invoiceNumber clientName invoiceDate stamp : list ascii) :
  Forall (fun c => keep c = true) stamp ->
  (exists base,
     suggested_filename invoiceNumber clientName invoiceDate stamp = base ++ pdf
     /\ base <> []
     /\ Forall (fun c => keep c = true) base)
  /\ (Forall (fun c => keep c = true) invoiceNumber ->
      Forall (fun c => keep c = true) clientName ->
      Forall (fun c => keep c = true) invoiceDate ->
      invoiceNumber <> [] -> clientName <> [] -> invoiceDate <> [] ->
      suggested_filename invoiceNumber clientName invoiceDate stamp
      = invoiceNumber ++ "_"%char :: clientName ++ "_"%char :: invoiceDate ++ pdf)
  /\ (forall value,
        Forall (fun c => keep c = true) (sanitizeForFilename value)
        /\ sanitizeForFilename (sanitizeForFilename value)
           = sanitizeForFilename value
        /\ (Forall (fun c => keep c = true) value ->
            sanitizeForFilename value = value))
  /\ (forall first second,
        Forall (fun c => keep c = true) first ->
        Forall (fun c => keep c = true) second ->
        first <> [] -> second <> [] ->
        sanitizeForFilename (first ++ " "%char :: second)
        = first ++ "-"%char :: second).
Proof.
  intros Hs. split; [|split; [|split]].
  - unfold suggested_filename. eexists. split; [reflexivity|].
    match goal with |- context [join_underscore ?ps] =>
      assert (Hp : Forall kept (join_underscore ps))
    end.
    { apply join_kept. apply Forall_forall. intros p Hp.
      apply filter_In in Hp as [Hp _]. apply in_map_iff in Hp as [v [<- _]].
      apply sanitize_kept. }
    unfold or_text at 1.
    match goal with |- context [is_empty ?j] => destruct j as [|c r] end;
      cbn [is_empty].
    + split; [discriminate|].
      apply Forall_app. split; [repeat constructor | exact Hs].
    + split; [discriminate | exact Hp].
  - intros Hn Hc Hd Hnn Hnc Hnd. unfold suggested_filename, or_text.
    destruct invoiceNumber as [|n0 n]; [contradiction|].
    destruct clientName as [|c0 c]; [contradiction|].
    destruct invoiceDate as [|d0 d]; [contradiction|].
    cbn [is_empty map].
    rewrite (kept_fixed _ Hn), (kept_fixed _ Hc), (kept_fixed _ Hd).
    cbn [filter is_empty negb join_underscore app].
    repeat (rewrite <- app_assoc; cbn [app]). reflexivity.
  - intros value. split; [apply sanitize_kept|].
    split; [apply kept_fixed, sanitize_kept | apply kept_fixed].
  - apply sanitize_two_words.
Qed.

End FileNames.

Lemma suggested_filename_is_safe_witness :
  Invoice.suggested_filename
    (list_ascii_of_string "inv-7") (list_ascii_of_string "doe")
    (list_ascii_of_string "2026-03-12") (list_ascii_of_string "2026-11-02")
  = list_ascii_of_string "inv-7_doe_2026-03-12.pdf"
  /\ Invoice.sanitizeForFilename (list_ascii_of_string "doe roe")
     = list_ascii_of_string "doe-roe".
Proof.
  destruct (suggested_filename_is_safe
              (list_ascii_of_string "inv-7") (list_ascii_of_string "doe")
              (list_ascii_of_string "2026-03-12") (list_ascii_of_string "2026-11-02"))
    as [_ [H [_ Hw]]]; [repeat constructor|].
  split.
  - refine (eq_trans (H _ _ _ _ _ _) _);
      try discriminate; try (repeat constructor).
  - refine (eq_trans (Hw (list_ascii_of_string "doe") (list_ascii_of_string "roe")
                        _ _ _ _) _);
      try discriminate; try (repeat constructor).
Defined.

Section ItemRows.

Import Invoice.

Lemma renumber_from_numbered (k : nat) (rows : list ItemRow) :
  numbered_from k (renumber_from k rows).
Proof.
  revert k. induction rows as [|r rest IH]; intros k; [exact I|].
  cbn. split; [reflexivity | apply IH].
Qed.

Lemma renumber_from_nil (k : nat) (rows : list ItemRow) :
  renumber_from k rows = [] -> rows = [].
Proof. destruct rows; [reflexivity | discriminate]. Qed.

Lemma set_fields_numbered (k index : nat) (i d a : string) (rows : list ItemRow) :
  numbered_from k rows -> numbered_from k (set_fields index i d a rows).
Proof.
  revert k index. induction rows as [|r rest IH]; intros k index H;
    [destruct index; exact I|].
  destruct index as [|n]; cbn in *; [exact H|].
  split; [apply H | apply IH, H].
Qed.

Lemma set_fields_nil (index : nat) (i d a : string) (rows : list ItemRow) :
  set_fields index i d a rows = [] -> rows = [].
Proof. destruct rows, index; try reflexivity; discriminate. Qed.

Lemma step_rows (rows : list ItemRow) (e : event) :
  rows <> [] /\ numbered_from 0 rows ->
  step rows e <> [] /\ numbered_from 0 (step rows e).
Proof.
  intros [Hne Hn]. destruct e as [|index|index i d a]; cbn [step].
  - unfold createItemRow, renumberRows. split; [|apply renumber_from_numbered].
    intros H. apply renumber_from_nil in H. destruct rows; discriminate H.
  - unfold on_remove_click. destruct (nth_error rows index) eqn:E; [|auto].
    unfold renumberRows. split; [|apply renumber_from_numbered].
    intros H. apply renumber_from_nil in H.
    destruct rows as [|r [|r2 rest]]; [contradiction | discriminate H |].
    destruct index as [|[|n]]; discriminate H.
  - split; [|apply set_fields_numbered, Hn].
    intros H. apply set_fields_nil in H. contradiction.
Qed.

(** X20.  The item table of an invoice always has a row, and its rows
    are always numbered 1, 2, 3, ... from the top: this holds once
    [ensureAtLeastOneRow] has run, whatever rows the page came with, and
    after any sequence of clicks on Add item, clicks on the remove button of
    a row and edits of the fields.  The remove button of the only row
    empties its fields instead of removing it. *)
Theorem invoice_rows_stay_numbered (rows0 : list ItemRow) (evs : list event) :
  let rows := run (ensureAtLeastOneRow rows0) evs in
  rows <> [] /\ numbered_from 0 rows
  /\ (forall r, rows = [r] ->
      step rows (RemoveClick 0)
      = [{| sn := number_text 0; item := ""; description := ""; amount := "" |}]).
Proof.
  cbv zeta.
  assert (H0 : ensureAtLeastOneRow rows0 <> []
               /\ numbered_from 0 (ensureAtLeastOneRow rows0)).
  { unfold ensureAtLeastOneRow, createItemRow, renumberRows.
    destruct rows0 as [|r rest]; (split; [discriminate | apply renumber_from_numbered]). }
  assert (H : run (ensureAtLeastOneRow rows0) evs <> []
              /\ numbered_from 0 (run (ensureAtLeastOneRow rows0) evs)).
  { revert H0. generalize (ensureAtLeastOneRow rows0).
    induction evs as [|e evs IH]; intros rows H0; [exact H0|].
    apply IH, step_rows, H0. }
  destruct H as [Hne Hn]. split; [exact Hne|]. split; [exact Hn|].
  intros r ->. reflexivity.
Qed.

End ItemRows.

Lemma invoice_rows_stay_numbered_witness :
  Invoice.step
    (Invoice.run (Invoice.ensureAtLeastOneRow [])
       [Invoice.FieldsTyped 0 "Drafting" "Bail application" "1500.00"])
    (Invoice.RemoveClick 0)
  = [Invoice.mkItemRow "1" "" "" ""].
Proof.
  destruct (invoice_rows_stay_numbered []
              [Invoice.FieldsTyped 0 "Drafting" "Bail application" "1500.00"])
    as [_ [_ H]].
  rewrite (H (Invoice.mkItemRow "1" "Drafting" "Bail application" "1500.00"));
    vm_compute; reflexivity.
Defined.

(** ** Names that are cut *)

Section TruncatedNames.

Import JsString.

(** X21.  A name that is cut and whose extension leaves room for two
    characters of the base comes out exactly [maxLen] characters long: the
    first [ceil(keep / 2)] characters of the name, the three dots, and the
    last characters of the name (the end of the base and the extension)
    that fill the rest.  Cutting it again returns it unchanged. *)
Theorem smartTruncate_fills_the_width (filename : list ascii) (maxLen : Z) :
  maxLen < len filename ->
  2 <= maxLen - len (ext_of filename) - 3 ->
  let a := ceil_half (maxLen - len (ext_of filename) - 3) in
  smartTruncate filename maxLen
  = firstn (Z.to_nat a) filename ++ ellipsis
    ++ skipn (Z.to_nat (len filename - (maxLen - 3 - a))) filename
  /\ len (smartTruncate filename maxLen) = maxLen
  /\ smartTruncate (smartTruncate filename maxLen) maxLen
     = smartTruncate filename maxLen.
Proof.
  intros Hlong Hkeep. cbv zeta.
  set (k := maxLen - len (ext_of filename) - 3) in *.
  pose proof (half_bounds k Hkeep) as [Hf Hc].
  pose proof (ceil_floor_half k) as Hsum.
  pose proof (base_ext filename) as Hbe.
  assert (Hlen : len (base_of filename) + len (ext_of filename) = len filename)
    by (rewrite <- len_app, Hbe; reflexivity).
  assert (Hne : filename <> []).
  { intros E. rewrite E in Hlong. unfold len in *. cbn in *. lia. }
  assert (Heq :
    smartTruncate filename maxLen
    = firstn (Z.to_nat (ceil_half k)) filename ++ ellipsis
      ++ skipn (Z.to_nat (len filename - (maxLen - 3 - ceil_half k))) filename).
  { rewrite (smartTruncate_long filename maxLen Hne Hlong). fold k.
    rewrite slice_head by lia. rewrite slice_tail by lia.
    replace (Z.to_nat (len filename - (maxLen - 3 - ceil_half k)))
      with (Z.to_nat (len (base_of filename) - floor_half k))
      by (unfold len in *; lia).
    remember (base_of filename) as b eqn:Eb.
    remember (ext_of filename) as e eqn:Ee.
    rewrite <- Hbe.
    rewrite firstn_app, skipn_app.
    replace (Z.to_nat (ceil_half k) - List.length b)%nat with 0%nat
      by (unfold len in *; lia).
    replace (Z.to_nat (len b - floor_half k) - List.length b)%nat with 0%nat
      by (unfold len in *; lia).
    cbn [firstn skipn]. rewrite app_nil_r. reflexivity. }
  split; [exact Heq|]. split.
  - rewrite Heq, !len_app, len_firstn, len_skipn.
    change (len ellipsis) with 3. unfold len in *. lia.
  - apply smartTruncate_idempotent_when_fits. exact Hkeep.
Qed.

End TruncatedNames.

Lemma smartTruncate_fills_the_width_witness :
  JsString.len
    (JsString.smartTruncate
       (list_ascii_of_string "affidavit of service " ++ repeat "x"%char 100
        ++ list_ascii_of_string ".pdf") 100)
  = 100.
Proof.
  apply (smartTruncate_fills_the_width
           (list_ascii_of_string "affidavit of service " ++ repeat "x"%char 100
            ++ list_ascii_of_string ".pdf") 100).
  - vm_compute. reflexivity.
  - vm_compute. intros H. discriminate H.
Defined.

(** ** The files chosen for upload *)

Section ChosenFiles.

Import FileSelection.

Lemma has_in (selectedFiles : list File) (f : File) :
  has selectedFiles f = true <-> In (key f) (map key selectedFiles).
Proof.
  unfold has. rewrite existsb_exists. split.
  - intros [k [Hk E]]. apply String.eqb_eq in E. congruence.
  - intros H. exists (key f). split; [exact H | apply String.eqb_refl].
Qed.

Lemma filter_none {A} (p : A -> bool) (l : list A) :
  (forall x, In x l -> p x = false) -> filter p l = [].
Proof.
  induction l as [|x r IH]; intros H; [reflexivity|]. cbn [filter].
  rewrite (H x (or_introl eq_refl)). apply IH. intros y Hy. apply H. right. exact Hy.
Qed.

Lemma NoDup_map_filter {A B} (g : A -> B) (p : A -> bool) (l : list A) :
  NoDup (map g l) -> NoDup (map g (filter p l)).
Proof.
  induction l as [|x r IH]; intros H; [constructor|]. cbn [map] in H.
  inversion H as [|? ? Hx Hr]; subst. cbn [filter].
  destruct (p x); [|apply IH, Hr]. cbn [map]. constructor; [|apply IH, Hr].
  intros Hin. apply Hx. apply in_map_iff in Hin as [y [E Hy]].
  apply filter_In in Hy as [Hy _]. apply in_map_iff. exists y. auto.
Qed.

(** X22.  Dropping files on the drop zone only ever adds to the files
    chosen: those already chosen stay where they are, and a dropped file is
    appended exactly when no chosen file has its name and size.  Dropping
    the same files again therefore changes nothing, and as long as no two
    of the files dropped together share name and size, a list without such
    doubles stays without them. *)
Theorem drop_adds_only_new_files (files selectedFiles : list File) :
  let out := on_drop files selectedFiles in
  (exists added,
     out = selectedFiles ++ added
     /\ forall f, In f added <-> In f files /\ ~ In (key f) (map key selectedFiles))
  /\ on_drop files out = out
  /\ (NoDup (map key selectedFiles) -> NoDup (map key files) ->
      NoDup (map key out)).
Proof.
  cbv zeta.
  assert (Hout : on_drop files selectedFiles
                 = selectedFiles
                   ++ filter (fun f => negb (has selectedFiles f)) files).
  { unfold on_drop. destruct files; [cbn; rewrite app_nil_r|]; reflexivity. }
  split; [|split].
  - exists (filter (fun f => negb (has selectedFiles f)) files).
    split; [exact Hout|]. intros f. rewrite filter_In, negb_true_iff.
    rewrite <- has_in. destruct (has selectedFiles f); split; intros [A B];
      split; auto; try discriminate. exfalso. apply B. reflexivity.
  - assert (E : filter (fun f => negb (has (on_drop files selectedFiles) f)) files = []).
    { apply filter_none. intros f Hf. apply negb_false_iff, has_in.
      rewrite Hout, map_app. apply in_or_app.
      destruct (has selectedFiles f) eqn:Hh.
      - left. apply has_in, Hh.
      - right. apply in_map. apply filter_In. rewrite Hh. auto. }
    unfold on_drop at 1. rewrite E. destruct files; [reflexivity | apply app_nil_r].
  - intros Hs Hf. rewrite Hout, map_app.
    apply NoDup_app; [exact Hs | apply NoDup_map_filter, Hf |].
    intros k Hk Hk'. apply in_map_iff in Hk' as [f [<- Hin]].
    apply filter_In in Hin as [_ Hn]. apply negb_true_iff in Hn.
    apply has_in in Hk. congruence.
Qed.

End ChosenFiles.

Lemma drop_adds_only_new_files_witness :
  NoDup
    (map FileSelection.key
       (FileSelection.on_drop
          [FileSelection.mkFile "order.pdf" 2048; FileSelection.mkFile "plaint.pdf" 512]
          [FileSelection.mkFile "order.pdf" 2048])).
Proof.
  apply (drop_adds_only_new_files
           [FileSelection.mkFile "order.pdf" 2048; FileSelection.mkFile "plaint.pdf" 512]
           [FileSelection.mkFile "order.pdf" 2048]).
  - repeat constructor. intros [].
  - repeat constructor; vm_compute; intros H; repeat destruct H as [H|H];
      try discriminate H; exact H.
Defined.
